(** * bazel-init prototype: autodetection, build-file generation, packaging

    A shallow embedding of [experimental/init/autodetect.py],
    [experimental/init/buildgen.py] and [experimental/init/packgen.py],
    together with the properties their specification states.

    The sources are Python 2 ([iteritems], [0444 << 16L], [reduce]); the
    builtins they use (string methods, [re], [dict], [filter]) are modelled
    in [Py] with their Python 2 behaviour. *)

From Stdlib Require Import String Ascii List ZArith Lia Bool Arith PeanoNat.
From Stdlib Require DecimalString.
Import ListNotations.

Set Warnings "-register-all".

Open Scope string_scope.
Open Scope list_scope.

(* ================================================================== *)
(** ** Python 2 builtins *)

Module Py.

(** Outcome of a Python call: a value, a raised exception, or a loop that
    was still running when the fuel ran out. *)
Inductive exn : Type :=
| TypeError | KeyError (key : string) | AttributeError | ValueError
| IOError | CalledProcessError | ReError.

Inductive res (A : Type) : Type :=
| Return (a : A)
| Raise (e : exn)
| Diverge.
Arguments Return {A} a.
Arguments Raise {A} e.
Arguments Diverge {A}.

Definition bind {A B} (m : res A) (k : A -> res B) : res B :=
  match m with
  | Return a => k a
  | Raise e => Raise e
  | Diverge => Diverge
  end.

Notation "x <- m ;; k" := (bind m (fun x => k))
  (at level 61, m at next level, right associativity).

(** [str.split(sep)] for a one-character separator. *)
Fixpoint split (sep : ascii) (s : string) : list string :=
  match s with
  | EmptyString => [EmptyString]
  | String c r =>
      if Ascii.eqb c sep then EmptyString :: split sep r
      else match split sep r with
           | h :: t => String c h :: t
           | [] => [String c EmptyString]
           end
  end.

(** The characters [str.strip()] and [str.split()] treat as whitespace,
    also the class [\s] of [re] on byte strings. *)
Definition isspace (c : ascii) : bool :=
  let n := nat_of_ascii c in
  ((n =? 32) || ((9 <=? n) && (n <=? 13)))%nat.

Fixpoint lstrip (s : string) : string :=
  match s with
  | EmptyString => EmptyString
  | String c r => if isspace c then lstrip r else s
  end.

Fixpoint rstrip (s : string) : string :=
  match s with
  | EmptyString => EmptyString
  | String c r =>
      match rstrip r with
      | EmptyString => if isspace c then EmptyString else String c EmptyString
      | r' => String c r'
      end
  end.

Definition strip (s : string) : string := rstrip (lstrip s).

(** [s.startswith(p)] and [s.endswith(p)]. *)
Definition startswith (s p : string) : bool := String.prefix p s.

Fixpoint drop (n : nat) (s : string) : string :=
  match n, s with
  | O, _ => s
  | S _, EmptyString => EmptyString
  | S n', String _ r => drop n' r
  end.

Definition endswith (s p : string) : bool :=
  (String.length p <=? String.length s)%nat &&
  String.eqb (drop (String.length s - String.length p) s) p.

(** Truth value of a string: non-empty. *)
Definition truthy (s : string) : bool :=
  match s with EmptyString => false | _ => true end.

(** [a > b] and [a < b] on byte strings: lexicographic on the bytes. *)
Definition str_gt (a b : string) : bool :=
  match String.compare a b with Gt => true | _ => false end.
Definition str_lt (a b : string) : bool :=
  match String.compare a b with Lt => true | _ => false end.

(** [str.split()] with no argument: the maximal runs of non-whitespace. *)
Fixpoint split_ws (s : string) : list string :=
  match s with
  | EmptyString => []
  | String c r =>
      if isspace c then split_ws r
      else match r with
           | EmptyString => [String c EmptyString]
           | String c' _ =>
               if isspace c' then String c EmptyString :: split_ws r
               else match split_ws r with
                    | h :: t => String c h :: t
                    | [] => [String c EmptyString]
                    end
           end
  end.

Definition newline : ascii := "010"%char.
Definition carriage_return : ascii := "013"%char.

Definition snoc (s : string) (c : ascii) : string :=
  (s ++ String c EmptyString)%string.

(** [str.splitlines()]: lines end at LF, CR or CR LF; the ends are not
    kept and a final line break opens no further line. *)
Fixpoint splitlines_from (cur s : string) : list string :=
  match s with
  | EmptyString => if truthy cur then [cur] else []
  | String c r =>
      if Ascii.eqb c newline then cur :: splitlines_from EmptyString r
      else if Ascii.eqb c carriage_return then
        match r with
        | String c' r' =>
            if Ascii.eqb c' newline then cur :: splitlines_from EmptyString r'
            else cur :: splitlines_from EmptyString r
        | EmptyString => [cur]
        end
      else splitlines_from (snoc cur c) r
  end.
Definition splitlines (s : string) : list string :=
  splitlines_from EmptyString s.

(** The lines a [for line in f] loop sees: each ends at LF and keeps it. *)
Fixpoint readlines_from (cur s : string) : list string :=
  match s with
  | EmptyString => if truthy cur then [cur] else []
  | String c r =>
      if Ascii.eqb c newline then snoc cur c :: readlines_from EmptyString r
      else readlines_from (snoc cur c) r
  end.
Definition readlines (s : string) : list string :=
  readlines_from EmptyString s.

(** [os.path.join(a, b)] on a POSIX host. *)
Definition os_path_join (a b : string) : string :=
  if startswith b "/" then b
  else if negb (truthy a) || endswith a "/" then (a ++ b)%string
  else (a ++ "/" ++ b)%string.

(** *** Dictionaries

    A [dict] with string keys is kept as the list of its entries in the
    order the keys were first inserted.  Python 2 does not iterate in that
    order: [iteritems] walks the slots of the hash table.  No source of this
    repository deletes a key, so the table is a function of the insertion
    sequence, replayed by [slot_order] as CPython 2.7 does on a 64-bit host
    (string hash, 8 initial slots, perturbed probing, growth at 2/3). *)
Definition dict (V : Type) : Type := list (string * V).

Fixpoint dict_get {V} (k : string) (d : dict V) : option V :=
  match d with
  | [] => None
  | (k', v) :: r => if String.eqb k' k then Some v else dict_get k r
  end.

Definition dict_mem {V} (k : string) (d : dict V) : bool :=
  match dict_get k d with Some _ => true | None => false end.

Fixpoint dict_set {V} (k : string) (v : V) (d : dict V) : dict V :=
  match d with
  | [] => [(k, v)]
  | (k', v') :: r =>
      if String.eqb k' k then (k, v) :: r else (k', v') :: dict_set k v r
  end.

Definition two64 : Z := Z.pow 2 64.

Definition ord (c : ascii) : Z := Z.of_nat (nat_of_ascii c).

(** [hash(s)] for a byte string, as an unsigned 64-bit word. *)
Definition string_hash (s : string) : Z :=
  match s with
  | EmptyString => 0%Z
  | String c _ =>
      let x := fold_left
                 (fun x ch => Z.lxor ((1000003 * x) mod two64) (ord ch))
                 (list_ascii_of_string s) (Z.shiftl (ord c) 7) in
      let x := Z.lxor x (Z.of_nat (String.length s)) in
      if Z.eqb x (two64 - 1) then (two64 - 2)%Z else x
  end.

(** The probe sequence of [lookdict] for a key that is not in the table:
    the first free slot met. *)
Fixpoint free_slot (fuel : nat) (table : list (option string))
  (mask i perturb : Z) : nat :=
  let j := Z.to_nat (Z.land i mask) in
  match fuel with
  | O => j
  | S fuel' =>
      match nth j table None with
      | None => j
      | Some _ =>
          free_slot fuel' table mask
            ((Z.shiftl i 2 + i + perturb + 1) mod two64)%Z
            (Z.shiftr perturb 5)
      end
  end.

Fixpoint set_nth {A} (n : nat) (a : A) (l : list A) : list A :=
  match n, l with
  | _, [] => []
  | O, _ :: r => a :: r
  | S n', x :: r => x :: set_nth n' a r
  end.

Definition table_insert (table : list (option string)) (key : string)
  : list (option string) :=
  let mask := (Z.of_nat (length table) - 1)%Z in
  let h := string_hash key in
  set_nth (free_slot (length table + 16) table mask (Z.land h mask) h)
    (Some key) table.

Definition table_keys (table : list (option string)) : list string :=
  flat_map (fun o => match o with Some k => [k] | None => [] end) table.

(** [dictresize]: the first size, doubling from 8, above [minused]. *)
Fixpoint grown_size (fuel size minused : nat) : nat :=
  if Nat.leb size minused then
    match fuel with
    | O => size
    | S fuel' => grown_size fuel' (2 * size) minused
    end
  else size.

Definition table_add (table : list (option string)) (key : string)
  : list (option string) :=
  let t := table_insert table key in
  let used := length (table_keys t) in
  if Nat.leb (length t * 2) (used * 3) then
    fold_left table_insert (table_keys t)
      (repeat None
         (grown_size used 8 ((if Z.ltb 50000 (Z.of_nat used) then 2 else 4) * used)))
  else t.

Definition slot_order (keys : list string) : list string :=
  table_keys (fold_left table_add keys (repeat None 8)).

Definition iteritems {V} (d : dict V) : list (string * V) :=
  flat_map (fun k => match dict_get k d with
                     | Some v => [(k, v)]
                     | None => []
                     end)
    (slot_order (map fst d)).

(** Values held by the dictionaries of [autodetect.py]. *)
Inductive pyval : Type :=
| VStr (s : string)
| VList (l : list string)
| VDict (d : list (string * pyval)).

(** The two arguments of the builtin [filter]. *)
Inductive pyobj : Type :=
| OList (l : list string)
| OFun (f : string -> bool).

(** [filter(function, iterable)]: the second argument must be iterable and
    the first is called on each of its items. *)
Definition py_filter (function iterable : pyobj) : res (list string) :=
  match iterable with
  | OFun _ => Raise TypeError
  | OList l =>
      match function with
      | OFun f => Return (filter f l)
      | OList _ => match l with [] => Return [] | _ :: _ => Raise TypeError end
      end
  end.

(** *** The two regular expressions of [autodetect.py] *)

(** The class [[a-zA-Z._-]]. *)
Definition is_name_char (c : ascii) : bool :=
  let n := nat_of_ascii c in
  ((65 <=? n) && (n <=? 90) || (97 <=? n) && (n <=? 122))%nat ||
  Ascii.eqb c "." || Ascii.eqb c "_" || Ascii.eqb c "-".

(** The longest prefix made of characters of a class, and what follows. *)
Fixpoint span (p : ascii -> bool) (s : string) : string * string :=
  match s with
  | EmptyString => (EmptyString, EmptyString)
  | String c r =>
      if p c then let (a, b) := span p r in (String c a, b)
      else (EmptyString, s)
  end.

(** [re.match] of the line pattern of [pc_read] (a run of name characters,
    blanks, [=] or [:], blanks, the rest) on one line without a line break:
    groups 1, 2 and 3.  The name is the longest run of name characters,
    since no shorter one can be followed by blanks and [=] or [:]. *)
Definition match_assignment (line : string)
  : option (string * ascii * string) :=
  let (key, rest) := span is_name_char line in
  match lstrip rest with
  | String c value =>
      if Ascii.eqb c "=" || Ascii.eqb c ":" then Some (key, c, lstrip value)
      else None
  | EmptyString => None
  end.

(** The token pattern of [sub_variables] (dollar, brace, a run of name
    characters, brace) matched at the start of [s]: group 1. *)
Definition match_token (s : string) : option string :=
  match s with
  | String "$" (String "{" r) =>
      let (name, rest) := span is_name_char r in
      match rest with
      | String "}" _ => Some name
      | _ => None
      end
  | _ => None
  end.

(** [regex.search]: the leftmost match. *)
Fixpoint search_token (s : string) : option string :=
  match match_token s with
  | Some name => Some name
  | None =>
      match s with
      | EmptyString => None
      | String _ r => search_token r
      end
  end.

(** One character of the pattern built by ["\$\{%s\}" % var]: a name is
    pasted into the pattern as it is, so its letters, [_] and [-] stand for
    themselves and [.] stands for any character but a line break. *)
Definition pattern_char (p c : ascii) : bool :=
  if Ascii.eqb p "." then negb (Ascii.eqb c newline) else Ascii.eqb p c.

Fixpoint match_pattern (pat s : string) : option string :=
  match pat with
  | EmptyString => Some s
  | String p pat' =>
      match s with
      | String c r => if pattern_char p c then match_pattern pat' r else None
      | EmptyString => None
      end
  end.

(** The pattern [\$\{var\}] matched at the start of [s]. *)
Definition match_reference (var s : string) : bool :=
  match s with
  | String "$" (String "{" r) =>
      match match_pattern var r with
      | Some (String "}" _) => true
      | _ => false
      end
  | _ => false
  end.

(** [re.sub]'s scan: every leftmost non-overlapping match is replaced;
    [skip] counts the characters of the current match still to pass. *)
Fixpoint sub_scan (var : string) (repl : string -> string) (skip : nat)
  (s : string) : string :=
  match s with
  | EmptyString => EmptyString
  | String c r =>
      match skip with
      | S k => sub_scan var repl k r
      | O =>
          if match_reference var s then
            (repl (substring 0 (String.length var + 3) s)
               ++ sub_scan var repl (String.length var + 2) r)%string
          else String c (sub_scan var repl 0 r)
      end
  end.

Fixpoint has_backslash (s : string) : bool :=
  match s with
  | EmptyString => false
  | String c r => Ascii.eqb c "\" || has_backslash r
  end.

(** [re.sub("\$\{%s\}" % var, val, value)].  A replacement without
    backslash is taken as it is; [template] reads the others. *)
Definition re_sub (template : string -> res (string -> string))
  (var val value : string) : res string :=
  if has_backslash val then
    repl <- template val ;; Return (sub_scan var repl 0 value)
  else Return (sub_scan var (fun _ => val) 0 value).

End Py.

Import Py.

(* ================================================================== *)
(** ** autodetect.py *)

Module Autodetect.

(** *** [version_compare] *)

(** The [for i in range(0, min(len(ver1), len(ver2)))] loop, with its two
    early returns; [None] when the loop runs to its end. *)
Fixpoint version_compare_loop (ver1 ver2 : list string) (range : list nat)
  : option Z :=
  match range with
  | [] => None
  | i :: rest =>
      if str_gt (nth i ver1 "") (nth i ver2 "") then Some 1%Z
      else if str_lt (nth i ver1 "") (nth i ver2 "") then Some (-1)%Z
      else version_compare_loop ver1 ver2 rest
  end.

Definition version_compare (version1 version2 : string) : Z :=
  let ver1 := split "." version1 in
  let ver2 := split "." version2 in
  match version_compare_loop ver1 ver2
          (seq 0 (Nat.min (length ver1) (length ver2))) with
  | Some r => r
  | None =>
      if Nat.ltb (length ver1) (length ver2) then (-1)%Z
      else if Nat.ltb (length ver2) (length ver1) then 1%Z
      else 0%Z
  end.

(** *** [__process_flags] *)

(** One turn of the [for opt in astr.split(" ")] loop; [result.append] is
    the append at the end of the list built so far. *)
Definition __process_flags_step (strip_option : option string)
  (result : list string) (opt : string) : list string :=
  let opt := strip opt in
  match strip_option with
  | Some p =>
      if startswith opt p then
        if negb (String.eqb opt p) then result ++ [drop (String.length p) opt]
        else result
      else result ++ [opt]
  | None => result ++ [opt]
  end.

Definition __process_flags (astr : string) (strip_option : option string)
  : list string :=
  let result :=
    fold_left (__process_flags_step strip_option) (split " " astr) [] in
  map strip (filter (fun s => truthy (strip s)) result).

(** *** The host

    What the helpers read from the machine they run on. *)
Record world : Type := {
  (** [os.environ] *)
  environ : string -> option string;
  (** [os.stat(path)[ST_MODE]]; [None] when [os.path.exists] is false *)
  st_mode : string -> option Z;
  (** what [open(path, "r")] reads; [None] when the file cannot be opened *)
  contents : string -> option string;
  (** exit status and standard output of running a command line *)
  run : list string -> Z * string;
  (** [re]'s reading of a replacement template that holds a backslash:
      an error, or the replacement text for each matched text *)
  re_template : string -> res (string -> string)
}.

(** Commands issued so far, oldest first. *)
Definition trace : Type := list (list string).

(** A helper that may start commands: it extends the trace. *)
Definition M (A : Type) : Type := trace -> res A * trace.

Definition ret {A} (a : A) : M A := fun t => (Return a, t).
Definition raise {A} (e : exn) : M A := fun t => (Raise e, t).
Definition lift {A} (r : res A) : M A := fun t => (r, t).

Definition mbind {A B} (m : M A) (k : A -> M B) : M B :=
  fun t =>
    match m t with
    | (Return a, t') => k a t'
    | (Raise e, t') => (Raise e, t')
    | (Diverge, t') => (Diverge, t')
    end.

Notation "x <~ m ;; k" := (mbind m (fun x => k))
  (at level 61, m at next level, right associativity).

(** [try: m except subprocess.CalledProcessError: pass], then [k]. *)
Definition catch_called_process_error {A} (m : M A) (handler : M A) : M A :=
  fun t =>
    match m t with
    | (Raise CalledProcessError, t') => handler t'
    | r => r
    end.

(** [subprocess.call(args)] and [subprocess.check_output(args)]. *)
Definition call (w : world) (args : list string) : M Z :=
  fun t => (Return (fst (run w args)), t ++ [args]).

Definition check_output (w : world) (args : list string) : M string :=
  fun t =>
    (if Z.eqb (fst (run w args)) 0 then Return (snd (run w args))
     else Raise CalledProcessError,
     t ++ [args]).

(** *** [which] *)

Definition S_IXUSR : Z := 64.

Definition is_executable (w : world) (path : string) : bool :=
  match st_mode w path with
  | Some mode => negb (Z.eqb (Z.land S_IXUSR mode) 0)
  | None => false
  end.

Definition which (w : world) (prog : string) : option string :=
  match environ w "PATH" with
  | Some path =>
      find (is_executable w)
        (map (fun s => os_path_join s prog) (split ":" path))
  | None => None
  end.

(** *** [pkg_config] *)

(** The existence test chosen from the version arguments. *)
Definition pkg_config_test (atleast_version exact_version max_version
  : option string) : string :=
  match exact_version with
  | Some v => ("--exact-version=" ++ v)%string
  | None =>
      match atleast_version with
      | Some v => ("--atleast-version=" ++ v)%string
      | None =>
          match max_version with
          | Some v => ("--max-version=" ++ v)%string
          | None => "--exists"
          end
      end
  end.

(** The [for var in variables.splitlines()] loop. *)
Fixpoint pkg_config_variables (w : world) (pkg_config name : string)
  (vars : list string) (acc : dict pyval) : M (dict pyval) :=
  match vars with
  | [] => ret acc
  | var :: rest =>
      out <~ check_output w
               [pkg_config; ("--variable=" ++ var)%string; name] ;;
      pkg_config_variables w pkg_config name rest
        (dict_set var (VStr (strip out)) acc)
  end.

(** The part of [pkg_config] after the checks: the flag queries. *)
Definition pkg_config_result (w : world) (pkg_config name : string)
  : M (dict pyval) :=
  library_dirs <~ check_output w [pkg_config; "--libs-only-L"; name] ;;
  let result := dict_set "library_dirs"
                  (VList (__process_flags library_dirs (Some "-L"))) [] in
  libraries <~ check_output w [pkg_config; "--libs-only-l"; name] ;;
  let result := dict_set "libraries"
                  (VList (__process_flags libraries (Some "-l"))) result in
  ldflags <~ check_output w [pkg_config; "--libs-only-other"; name] ;;
  let result := dict_set "ldflags"
                  (VList (__process_flags ldflags None)) result in
  include_dirs <~ check_output w [pkg_config; "--cflags-only-I"; name] ;;
  let result := dict_set "include_dirs"
                  (VList (__process_flags include_dirs (Some "-I"))) result in
  cflags <~ check_output w [pkg_config; "--cflags-only-other"; name] ;;
  let result := dict_set "cflags"
                  (VList (__process_flags cflags None)) result in
  variables <~ check_output w [pkg_config; "--print-variables"; name] ;;
  vars <~ pkg_config_variables w pkg_config name (splitlines variables) [] ;;
  ret (dict_set "variables" (VDict vars) result).

Definition pkg_config (w : world) (name : string)
  (atleast_version exact_version max_version : option string)
  : M (option (dict pyval)) :=
  match which w "pkg-config" with
  | None => ret None
  | Some pkg_config =>
      let test :=
        pkg_config_test atleast_version exact_version max_version in
      status <~ call w [pkg_config; test; name] ;;
      if negb (Z.eqb status 0) then ret None
      else
        let construct :=
          result <~ pkg_config_result w pkg_config name ;;
          ret (Some result) in
        match atleast_version, max_version with
        | Some _, Some v =>
            status <~ call w
                        [pkg_config; ("--max-version=" ++ v)%string; name] ;;
            if negb (Z.eqb status 0) then ret None else construct
        | _, _ => construct
        end
  end.

(** *** [brew_prefix] and [port_content] *)

Definition brew_prefix (w : world) (package : string) : M (option string) :=
  catch_called_process_error
    (match which w "brew" with
     | Some brew =>
         out <~ check_output w [brew; "--prefix"; package] ;;
         ret (Some (strip out))
     | None => ret None
     end)
    (ret None).

Definition port_content (w : world) (package : string)
  : M (option (list string)) :=
  catch_called_process_error
    (match which w "port" with
     | Some port =>
         out <~ check_output w [port; "-q"; "contents"; package] ;;
         ret (Some (map strip (filter truthy (splitlines out))))
     | None => ret None
     end)
    (ret None).

(** *** [pc_read] *)

(** [d[k]] read from a dictionary. *)
Definition getitem (d : dict pyval) (k : string) : res pyval :=
  match dict_get k d with
  | Some v => Return v
  | None => Raise (KeyError k)
  end.

(** The body of the [for line in f] loop. *)
Definition pc_read_line (result : dict pyval) (line : string)
  : res (dict pyval) :=
  let line := strip line in
  if truthy line && negb (startswith line "#") then
    match match_assignment line with
    | Some (key, sep, value) =>
        if Ascii.eqb sep ":" then Return (dict_set key (VStr value) result)
        else
          variables <- getitem result "variables" ;;
          match variables with
          | VDict vars =>
              Return (dict_set "variables"
                        (VDict (dict_set key (VStr value) vars)) result)
          | _ => Raise TypeError
          end
    | None => Return result
    end
  else Return result.

Fixpoint pc_read_lines (lines : list string) (result : dict pyval)
  : res (dict pyval) :=
  match lines with
  | [] => Return result
  | line :: rest =>
      result' <- pc_read_line result line ;; pc_read_lines rest result'
  end.

Definition pc_read (w : world) (filename : string)
  : res (option (dict pyval)) :=
  match st_mode w filename with
  | None => Return None
  | Some _ =>
      match contents w filename with
      | None => Raise IOError
      | Some text =>
          result <- pc_read_lines (readlines text) [("variables", VDict [])] ;;
          Return (Some result)
      end
  end.

(** *** [sub_variables] *)

(** Each turn of the [while match] loop takes one unit of [fuel]. *)
Fixpoint sub_variables (w : world) (fuel : nat) (value : string)
  (variables : dict pyval) : res string :=
  match search_token value with
  | None => Return value
  | Some var =>
      match fuel with
      | O => Diverge
      | S fuel' =>
          val <- match dict_get var variables with
                 | Some (VStr v) => Return v
                 | Some _ => Raise TypeError
                 | None => Return EmptyString
                 end ;;
          value' <- re_sub (re_template w) var val value ;;
          sub_variables w fuel' value' variables
      end
  end.

(** *** [__pc_variables] *)

(** The loop over [variables.iteritems()]: the keys come in table order
    and each value is read when its turn comes. *)
Fixpoint __pc_variables_loop (w : world) (fuel : nat) (keys : list string)
  (variables : dict pyval) : res (dict pyval) :=
  match keys with
  | [] => Return variables
  | key :: rest =>
      value <- getitem variables key ;;
      match value with
      | VStr value =>
          v <- sub_variables w fuel value variables ;;
          __pc_variables_loop w fuel rest (dict_set key (VStr v) variables)
      | _ => Raise TypeError
      end
  end.

Definition __pc_variables (w : world) (fuel : nat) (variables : pyval)
  : res (dict pyval) :=
  match variables with
  | VDict d => __pc_variables_loop w fuel (map fst (iteritems d)) d
  | _ => Raise AttributeError
  end.

(** *** [__pc_extract_flag] *)

Fixpoint map_res {A B} (f : A -> res B) (l : list A) : res (list B) :=
  match l with
  | [] => Return []
  | a :: r => b <- f a ;; bs <- map_res f r ;; Return (b :: bs)
  end.

Definition __pc_extract_flag (w : world) (fuel : nat) (astr : pyval)
  (variables : dict pyval) (include : option string)
  (excludes : option (list string)) : res (list string) :=
  match astr with
  | VStr astr =>
      match include with
      | Some (String c r as inc) =>
          map_res
            (fun i => sub_variables w fuel (drop (String.length inc) i)
                        variables)
            (filter (fun i => startswith i inc) (split_ws astr))
      | _ =>
          match excludes with
          | Some excludes =>
              map_res (fun i => sub_variables w fuel i variables)
                (filter
                   (fun i => fold_left
                               (fun x v => x && negb (startswith i v))
                               excludes true)
                   (split_ws astr))
          | None =>
              match split_ws astr with
              | [] => Return []
              | _ :: _ => Raise TypeError
              end
          end
      end
  | _ => Raise AttributeError
  end.

(** *** [read_pc_as_pkg_config] *)

Definition read_pc_as_pkg_config (w : world) (fuel : nat) (filename : string)
  : res (option (dict pyval)) :=
  f <- pc_read w filename ;;
  match f with
  | None | Some [] => Return None
  | Some f =>
      fvars <- getitem f "variables" ;;
      variables <- __pc_variables w fuel fvars ;;
      let result := [("variables", VDict variables)] in
      libs <- getitem f "Libs" ;;
      library_dirs <-
        __pc_extract_flag w fuel libs variables (Some "-L") None ;;
      let result := dict_set "library_dirs" (VList library_dirs) result in
      libs <- getitem f "Libs" ;;
      libraries <- __pc_extract_flag w fuel libs variables (Some "-l") None ;;
      let result := dict_set "libraries" (VList libraries) result in
      libs <- getitem f "Libs" ;;
      ldflags <-
        __pc_extract_flag w fuel libs variables None (Some ["-l"; "-L"]) ;;
      let result := dict_set "ldflags" (VList ldflags) result in
      cflags <- getitem f "Cflags" ;;
      include_dirs <-
        __pc_extract_flag w fuel cflags variables (Some "-I") None ;;
      let result := dict_set "include_dirs" (VList include_dirs) result in
      cflags <- getitem f "Cflags" ;;
      cflags' <- __pc_extract_flag w fuel cflags variables None (Some ["-I"]) ;;
      Return (Some (dict_set "cflags" (VList cflags') result))
  end.

(** *** [find_library] *)

Definition brew_default (brew_prefix : string) : dict pyval :=
  [("variables",
    VDict [("prefix", VStr brew_prefix);
           ("exec_prefix", VStr brew_prefix);
           ("libdir", VStr (brew_prefix ++ "/lib")%string);
           ("includedir", VStr (brew_prefix ++ "/include")%string)])].

Definition port_default (port_files : list string) : dict pyval :=
  [("variables",
    VDict [("content", VList port_files);
           ("prefix", VStr "/opt/local");
           ("exec_prefix", VStr "/opt/local");
           ("libdir", VStr "/opt/local/lib");
           ("includedir", VStr "/opt/local/include")])].

Definition find_library (w : world) (fuel : nat) (name : string)
  : M (option (dict pyval)) :=
  result <~ pkg_config w name None None None ;;
  match result with
  | Some (_ :: _) => ret result
  | _ =>
      brew_prefix <~ brew_prefix w name ;;
      match brew_prefix with
      | Some (String _ _ as brew_prefix) =>
          result <~ lift (read_pc_as_pkg_config w fuel
                            (brew_prefix ++ "/lib/pkgconfig/" ++ name
                               ++ ".pc")%string) ;;
          match result with
          | None => ret (Some (brew_default brew_prefix))
          | Some result => ret (Some result)
          end
      | _ =>
          port_files <~ port_content w name ;;
          match port_files with
          | Some (_ :: _ as port_files) =>
              pc_files <~ lift (py_filter (OList port_files)
                                  (OFun (fun f => endswith f ".pc"))) ;;
              result <~ match pc_files with
                        | pc_file :: _ =>
                            lift (read_pc_as_pkg_config w fuel pc_file)
                        | [] => ret None
                        end ;;
              match result with
              | None => ret (Some (port_default port_files))
              | Some result =>
                  variables <~ lift (getitem result "variables") ;;
                  match variables with
                  | VDict vars =>
                      ret (Some (dict_set "variables"
                                   (VDict (dict_set "content"
                                             (VList port_files) vars))
                                   result))
                  | _ => raise TypeError
                  end
              end
          | _ => ret None
          end
      end
  end.

End Autodetect.

(* ================================================================== *)
(** ** buildgen.py *)

Module Buildgen.

Definition dq : string := String "034"%char EmptyString.
Definition nl : string := String newline EmptyString.

(** *** Values *)

(** What stands in the positional argument [_first] of a
    [BuildSerializable]: strings, integers, and lists and dictionaries of
    them, as at every use in the repository ([glob] patterns, the list of
    [exports_files], the dictionary of [select]).  [str] prints these; an
    object there would print as its address in memory. *)
Inductive plain : Type :=
| PStr (s : string)
| PInt (z : Z)
| PList (l : list plain)
| PDict (d : list (string * plain)).

(** The values of rule attributes.  [Call] is a [BuildSerializable]
    ([name], [first], [kwargs]); [Label] is a [BuildGeneratorLabel], its
    [parent] a reference to a [BuildGeneratorHelper] in the store. *)
Inductive value : Type :=
| Str (s : string)
| Int (z : Z)
| List (l : list value)
| Dict (d : list (string * value))
| Call (name : string) (first : option plain) (kwargs : list (string * value))
| Label (package name : string) (parent : option nat).

(** A value that can stand in [_first]. *)
Fixpoint to_plain (v : value) : option plain :=
  match v with
  | Str s => Some (PStr s)
  | Int z => Some (PInt z)
  | List l =>
      option_map PList
        (fold_right (fun x acc =>
                       match to_plain x, acc with
                       | Some p, Some ps => Some (p :: ps)
                       | _, _ => None
                       end) (Some []) l)
  | Dict d =>
      option_map PDict
        (fold_right (fun kv acc =>
                       match to_plain (snd kv), acc with
                       | Some p, Some ps => Some ((fst kv, p) :: ps)
                       | _, _ => None
                       end) (Some []) d)
  | Call _ _ _ | Label _ _ _ => None
  end.

(** A [BuildGeneratorHelper]. *)
Record helper : Type := {
  repositories : dict nat;
  rules : list value;
  bindings : dict value;
  workspace : list value;
  embedded : list string;
  files : dict string;
  package : string;
  parent : option nat
}.

(** The helpers alive, each at the index that is its identity. *)
Definition store : Type := list helper.

(** A method that may change helpers. *)
Definition SM (A : Type) : Type := store -> res A * store.

Definition sret {A} (a : A) : SM A := fun st => (Return a, st).
Definition sraise {A} (e : exn) : SM A := fun st => (Raise e, st).
Definition sbind {A B} (m : SM A) (k : A -> SM B) : SM B :=
  fun st =>
    match m st with
    | (Return a, st') => k a st'
    | (Raise e, st') => (Raise e, st')
    | (Diverge, st') => (Diverge, st')
    end.

Definition slift {A} (r : res A) : SM A := fun st => (r, st).

Notation "x <:- m ;; k" := (sbind m (fun x => k))
  (at level 61, m at next level, right associativity).

(** *** [str] and [repr] of plain values *)

Definition hex_digit (n : nat) : ascii :=
  nth n ["0"; "1"; "2"; "3"; "4"; "5"; "6"; "7"; "8"; "9";
         "a"; "b"; "c"; "d"; "e"; "f"]%char "0"%char.

Fixpoint contains (c : ascii) (s : string) : bool :=
  match s with
  | EmptyString => false
  | String c' r => Ascii.eqb c c' || contains c r
  end.

(** [repr] of one character of a byte string quoted with [quote]. *)
Definition repr_char (quote c : ascii) : string :=
  let n := nat_of_ascii c in
  if Ascii.eqb c quote || Ascii.eqb c "\" then String "\" (String c "")
  else if Ascii.eqb c "009" then "\t"
  else if Ascii.eqb c newline then "\n"
  else if Ascii.eqb c carriage_return then "\r"
  else if Nat.ltb n 32 || Nat.leb 127 n then
    String "\" (String "x" (String (hex_digit (n / 16))
                              (String (hex_digit (n mod 16)) "")))
  else String c "".

Fixpoint concat_map (f : ascii -> string) (s : string) : string :=
  match s with
  | EmptyString => EmptyString
  | String c r => (f c ++ concat_map f r)%string
  end.

Definition repr_str (s : string) : string :=
  let quote := if contains "'" s && negb (contains "034" s)
               then "034"%char else "'"%char in
  (String quote "" ++ concat_map (repr_char quote) s ++ String quote "")%string.

Definition str_int (z : Z) : string := DecimalString.NilZero.string_of_int (Z.to_int z).

Fixpoint join (sep : string) (l : list string) : string :=
  match l with
  | [] => EmptyString
  | [x] => x
  | x :: r => (x ++ sep ++ join sep r)%string
  end.

(** [repr]; a dictionary prints its entries in table order. *)
Fixpoint repr (v : plain) : string :=
  match v with
  | PStr s => repr_str s
  | PInt z => str_int z
  | PList l => ("[" ++ join ", " (map repr l) ++ "]")%string
  | PDict d =>
      ("{" ++ join ", "
                (map (fun kv => (repr_str (fst kv) ++ ": " ++ snd kv)%string)
                   (iteritems (map (fun kv => (fst kv, repr (snd kv))) d)))
           ++ "}")%string
  end.

Definition str (v : plain) : string :=
  match v with
  | PStr s => s
  | _ => repr v
  end.

(** *** [BuildSerializable] *)

(** [astring.replace(old, new)] for a one-character [old]. *)
Definition replace (old : ascii) (new : string) (astring : string) : string :=
  concat_map (fun c => if Ascii.eqb c old then new else String c "") astring.

Definition __escape (astring : string) : string :=
  replace "'" "\'"
    (replace "034" (String "\" dq)
       (replace newline "\n" (replace "\" "\\" astring))).

(** ["%s" % x] where [x] is a string or [None]. *)
Definition fmt (x : option string) : string :=
  match x with Some s => s | None => "None" end.

(** [x.strip()] where [x] is a string or [None]. *)
Definition strip_method (x : option string) : SM string :=
  match x with
  | Some s => sret (strip s)
  | None => sraise AttributeError
  end.

Definition get_helper (self : nat) : SM helper :=
  fun st => match nth_error st self with
            | Some h => (Return h, st)
            | None => (Raise AttributeError, st)
            end.

Definition set_helper (self : nat) (h : helper) : SM unit :=
  fun st => (Return tt, set_nth self h st).

Definition set_bindings (h : helper) (b : dict value) : helper :=
  {| repositories := repositories h; rules := rules h; bindings := b;
     workspace := workspace h; embedded := embedded h; files := files h;
     package := package h; parent := parent h |}.

(** The dictionary [**kwargs] receives when a class is called with the
    keyword arguments [keywords]: the interpreter stores them from the last
    to the first. *)
Definition keyword_arguments {V} (keywords : list (string * V)) : dict V :=
  fold_left (fun d kv => dict_set (fst kv) (snd kv) d) (rev keywords) [].

(** [BuildSerializable(_name, _first, **kwargs)]: the entries of [kwargs]
    reach [__init__] in table order and make the new dictionary
    [self.kwargs]; [_name] or [_first] among them clash with the positional
    arguments, and [_first] among them is the parameter itself when no
    positional [_first] is given. *)
Definition BuildSerializable (_name : string) (_first : option plain)
  (kwargs : dict value) : res value :=
  if dict_mem "_name" kwargs then Raise TypeError
  else
    let rest :=
      filter (fun kv => negb (String.eqb (fst kv) "_first"))
        (iteritems kwargs) in
    match _first, dict_get "_first" kwargs with
    | Some _, Some _ => Raise TypeError
    | Some p, None => Return (Call _name (Some p) rest)
    | None, None => Return (Call _name None rest)
    | None, Some v =>
        match to_plain v with
        | Some p => Return (Call _name (Some p) rest)
        | None => Raise TypeError
        end
    end.

(** [BuildGeneratorHelper.bind] *)
Definition bind (self : nat) (package' name : string) : SM string :=
  h <:- get_helper self ;;
  _ <:- (if negb (dict_mem name (bindings h)) then
           node <:- slift
                      (BuildSerializable "bind" None
                         (keyword_arguments
                            [("name", Str (package h ++ "/" ++ name)%string);
                             ("actual",
                              Str (package' ++ ":" ++ name)%string)])) ;;
           set_helper self
             (set_bindings h (dict_set name node (bindings h)))
         else sret tt) ;;
  sret ("//external:" ++ package h ++ "/" ++ name)%string.

(** The [for item in obj] loop of [__serialize] on a list; [items] holds
    the serialisation of each item, yet to run. *)
Fixpoint serialize_items (items : list (SM (option string)))
  (result : string) : SM string :=
  match items with
  | [] => sret result
  | item :: rest =>
      x <:- item ;;
      serialize_items rest (result ++ fmt x ++ "," ++ nl)%string
  end.

(** The [for key, value in obj] loop of [__serialize] on a dictionary:
    iterating a dictionary yields its keys, and a key unpacks into [key]
    and [value] only when it has two characters. *)
Fixpoint serialize_keys (keys : list string) (subprefix result : string)
  : SM string :=
  match keys with
  | [] => sret result
  | String key (String value EmptyString) :: rest =>
      serialize_keys rest subprefix
        (result
           ++ (subprefix ++ dq ++ __escape (String key "") ++ dq) ++ ": "
           ++ strip (subprefix ++ dq ++ __escape (String value "") ++ dq)
           ++ "," ++ nl)%string
  | _ :: _ => sraise ValueError
  end.

(** The [for name, value in self.kwargs.iteritems()] loop of
    [serialize]. *)
Fixpoint serialize_kwargs (kwargs : list (string * SM (option string)))
  (newprefix result : string) : SM string :=
  match kwargs with
  | [] => sret result
  | (name, value) :: rest =>
      x <:- value ;;
      x <:- strip_method x ;;
      serialize_kwargs rest newprefix
        (result ++ newprefix ++ name ++ " = " ++ x ++ "," ++ nl)%string
  end.

(** [BuildSerializable.serialize], given the serialisation of each
    attribute value, yet to run. *)
Definition serialize_call (name : string) (first : option plain)
  (kwargs : dict (SM (option string))) (prefix : string) : SM string :=
  let result := (name ++ "(" ++ nl)%string in
  let newprefix := (prefix ++ "    ")%string in
  let result :=
    match first with
    | Some first => (result ++ newprefix ++ str first ++ "," ++ nl)%string
    | None => result
    end in
  result <:- serialize_kwargs (iteritems kwargs) newprefix result ;;
  sret (result ++ prefix ++ ")" ++ nl)%string.

(** [BuildGeneratorLabel.serialize] *)
Definition serialize_label (package' name : string) (parent : option nat)
  (prefix : string) : SM string :=
  match parent with
  | Some parent =>
      label <:- bind parent package' name ;;
      sret (prefix ++ dq ++ label ++ dq)%string
  | None => sret (prefix ++ dq ++ "//" ++ package' ++ ":" ++ name ++ dq)%string
  end.

(** [BuildSerializable.__serialize]; the result is a string, or [None]
    for a dictionary, whose branch has no [return]. *)
Fixpoint __serialize (obj : value) (prefix : string) {struct obj}
  : SM (option string) :=
  let subprefix := (prefix ++ "    ")%string in
  match obj with
  | List l =>
      result <:- serialize_items
                   (map (fun item => __serialize item subprefix) l)
                   (prefix ++ "[" ++ nl)%string ;;
      sret (Some (result ++ prefix ++ "]")%string)
  | Dict d =>
      _ <:- serialize_keys (map fst (iteritems d)) subprefix
              (prefix ++ "{" ++ nl)%string ;;
      sret None
  | Call name first kwargs =>
      result <:- serialize_call name first
                   (map (fun kv => (fst kv, __serialize (snd kv) "    "))
                      kwargs)
                   prefix ;;
      sret (Some result)
  | Label package' name parent =>
      result <:- serialize_label package' name parent prefix ;;
      sret (Some result)
  | Str s => sret (Some (prefix ++ dq ++ __escape s ++ dq)%string)
  | Int z => sret (Some (prefix ++ dq ++ __escape (str_int z) ++ dq)%string)
  end.

(** [obj.serialize(prefix)] for a [BuildSerializable] or a label. *)
Definition serialize (obj : value) (prefix : string) : SM string :=
  match obj with
  | Call _ _ _ | Label _ _ _ =>
      x <:- __serialize obj prefix ;;
      match x with
      | Some text => sret text
      | None => sraise AttributeError
      end
  | _ => sraise AttributeError
  end.

(** *** [BuildGeneratorHelper] *)

Definition new_helper (package' : string) (parent' : option nat) : helper :=
  {| repositories := []; rules := []; bindings := []; workspace := [];
     embedded := []; files := []; package := package'; parent := parent' |}.

Definition add_rule (h : helper) (r : value) : helper :=
  {| repositories := repositories h; rules := rules h ++ [r];
     bindings := bindings h; workspace := workspace h;
     embedded := embedded h; files := files h;
     package := package h; parent := parent h |}.

Definition add_embedded (h : helper) (name : string) : helper :=
  {| repositories := repositories h; rules := rules h;
     bindings := bindings h; workspace := workspace h;
     embedded := embedded h ++ [name]; files := files h;
     package := package h; parent := parent h |}.

Definition set_file (h : helper) (name content : string) : helper :=
  {| repositories := repositories h; rules := rules h;
     bindings := bindings h; workspace := workspace h;
     embedded := embedded h; files := dict_set name content (files h);
     package := package h; parent := parent h |}.

Definition add_repository (h : helper) (r : value) (name : string)
  (child : nat) : helper :=
  {| repositories := dict_set name child (repositories h); rules := rules h;
     bindings := bindings h; workspace := workspace h ++ [r];
     embedded := embedded h; files := files h;
     package := package h; parent := parent h |}.

(** [kwargs["name"]].  [new_repository] concatenates it with strings, a
    type error unless it is one; [rule] puts it in the label as it is, and
    a name that is not a string, which no rule has, is left out of this
    model and reported as a type error too. *)
Definition name_of (kwargs : dict value) : res string :=
  match dict_get "name" kwargs with
  | Some (Str name) => Return name
  | Some _ => Raise TypeError
  | None => Raise (KeyError "name")
  end.

(** [rule]: the rule is appended before the name is looked up. *)
Definition rule (self : nat) (_name : string) (kwargs : dict value)
  : SM value :=
  h <:- get_helper self ;;
  r <:- slift (BuildSerializable _name None kwargs) ;;
  _ <:- set_helper self (add_rule h r) ;;
  name <:- slift (name_of kwargs) ;;
  sret (Label (package h) name (parent h)).

(** [glob] and [select] *)
Definition glob (pattern : plain) (kwargs : dict value) : res value :=
  BuildSerializable "glob" (Some pattern) kwargs.

Definition select (dictionary : plain) : res value :=
  BuildSerializable "select" (Some dictionary) [].


(** [scratch_file] *)
Definition scratch_file (self : nat) (name content : string) : SM unit :=
  h <:- get_helper self ;;
  set_helper self (set_file h name content).

(** [new_repository]; the new helper takes the next free place of the
    store. *)
Definition new_repository (self : nat) (_rule : string) (kwargs : dict value)
  : SM nat :=
  h <:- get_helper self ;;
  name <:- slift (name_of kwargs) ;;
  let build_file := (package h ++ "/" ++ "BUILD." ++ name)%string in
  let newname := (replace "/" "-" (package h) ++ "-" ++ name)%string in
  let kwargs := dict_set "name" (Str newname) kwargs in
  let kwargs := dict_set "build_file" (Str build_file) kwargs in
  r <:- slift (BuildSerializable _rule None kwargs) ;;
  fun st =>
    let child := length st in
    (Return child,
     set_nth self (add_repository h r name child) st
       ++ [new_helper ("@" ++ newname)%string (Some self)]).

(** The [for rule in ...: result = "%s\n%s" % (result, rule.serialize())]
    loops. *)
Fixpoint serialize_rules (l : list value) (result : string) : SM string :=
  match l with
  | [] => sret result
  | r :: rest =>
      text <:- serialize r EmptyString ;;
      serialize_rules rest (result ++ nl ++ text)%string
  end.

Definition build_file_banner : string :=
  ("# This file was auto-generated. Do not edit." ++ nl ++
   "# If you wish to overwrite this package, copy the package" ++ nl ++
   "# into your workspace" ++ nl ++
   "package(default_visibility = [" ++ dq ++ "//visibility:public" ++ dq
     ++ "])" ++ nl)%string.

(** [__build_file] *)
Definition __build_file (self : nat) : SM string :=
  h <:- get_helper self ;;
  serialize_rules (rules h) build_file_banner.

(** [__workspace_file] *)
Definition __workspace_file (self : nat) : SM string :=
  h <:- get_helper self ;;
  let result :=
    ("#" ++ nl ++ "# Generated part from package " ++ package h ++ nl ++
     "#" ++ nl)%string in
  result <:- serialize_rules (workspace h) result ;;
  serialize_rules (map snd (iteritems (bindings h))) result.

(** The calls [generate] makes on its output helper. *)
Inductive sink_call : Type :=
| build_file (content : string)
| sink_scratch_file (name content : string)
| copy_from_embedded (name : string)
| workspace_part (content : string).

Fixpoint generate_repositories (l : list (string * nat)) : SM (list sink_call) :=
  match l with
  | [] => sret []
  | (key, repository) :: rest =>
      text <:- __build_file repository ;;
      calls <:- generate_repositories rest ;;
      sret (sink_scratch_file ("BUILD." ++ key)%string text :: calls)
  end.

(** [generate] *)
Definition generate (self : nat) : SM (list sink_call) :=
  text <:- __build_file self ;;
  h <:- get_helper self ;;
  repos <:- generate_repositories (iteritems (repositories h)) ;;
  h <:- get_helper self ;;
  let copies := map copy_from_embedded (embedded h) in
  let staged :=
    map (fun kv => sink_scratch_file (fst kv) (snd kv)) (iteritems (files h)) in
  fragment <:- __workspace_file self ;;
  sret (build_file text :: repos ++ copies ++ staged
          ++ [workspace_part fragment]).

(** *** Building a graph *)





End Buildgen.

(* ================================================================== *)
(** ** packgen.py *)

Module Packgen.

(** A [zipfile.ZipInfo]: name, time stamp and permission bits. *)
Record ZipInfo : Type := {
  filename : string;
  date_time : list Z;
  external_attr : Z
}.

(** One member of an archive. *)
Record member : Type := { info : ZipInfo; data : string }.

(** An archive: its members in the order of [infolist()].  Two members
    may bear the same name. *)
Definition ZipFile : Type := list member.

(** [zf.open(name).read()]: the archive looks the name up in a table where
    a later member replaces an earlier one of the same name. *)
Definition zip_read (zf : ZipFile) (name : string) : res string :=
  match find (fun m => String.eqb (filename (info m)) name) (rev zf) with
  | Some m => Return (data m)
  | None => Raise (KeyError name)
  end.

(** [zipfile.ZipInfo("WORKSPACE", (1980, 0, 0, 0, 0, 0))] with
    [external_attr = 0444 << 16L]. *)
Definition workspace_info : ZipInfo := {|
  filename := "WORKSPACE";
  date_time := [1980; 0; 0; 0; 0; 0]%Z;
  external_attr := Z.shiftl 292 16
|}.

(** The state of [merge_package]: the members written to the output so
    far and the text gathered in [workspace]. *)
Definition merge_state : Type := (ZipFile * string)%type.

(** The body of the [for info in zf.infolist()] loop. *)
Definition merge_member (zf : ZipFile) (st : merge_state) (m : member)
  : res merge_state :=
  let (output, workspace) := st in
  content <- zip_read zf (filename (info m)) ;;
  if String.eqb (filename (info m)) "WORKSPACE"
  then Return (output, (workspace ++ content ++ String newline "")%string)
  else Return (output ++ [{| info := info m; data := content |}], workspace).

Fixpoint merge_members (zf : ZipFile) (infolist : list member)
  (st : merge_state) : res merge_state :=
  match infolist with
  | [] => Return st
  | m :: rest => st' <- merge_member zf st m ;; merge_members zf rest st'
  end.

(** The [for package in packages] loop. *)
Fixpoint merge_packages (packages : list ZipFile) (st : merge_state)
  : res merge_state :=
  match packages with
  | [] => Return st
  | zf :: rest => st' <- merge_members zf zf st ;; merge_packages rest st'
  end.

(** [merge_package]: the archive written to [output_file]. *)
Definition merge_package (packages : list ZipFile) : res ZipFile :=
  st <- merge_packages packages ([], EmptyString) ;;
  Return (fst st ++ [{| info := workspace_info; data := snd st |}]).

(** *** The outputs of a generation *)

(** What stops a generation: a [PackageGenerationFailure] with its value,
    or an exception of the interpreter. *)
Inductive failure : Type :=
| PackageGenerationFailure (value : string)
| Exception (e : exn).

Inductive outcome (A : Type) : Type :=
| Done (a : A)
| Failed (f : failure)
| Unfinished.
Arguments Done {A} a.
Arguments Failed {A} f.
Arguments Unfinished {A}.

(** [zipfile.ZipInfo(path, (1980, 0, 0, 0, 0, 0))] with its
    [external_attr] set. *)
Definition stamped_info (path : string) (attr : Z) : ZipInfo := {|
  filename := path;
  date_time := [1980; 0; 0; 0; 0; 0]%Z;
  external_attr := attr
|}.

(** [ZipOutputGenerator]; [self.zipfile] is the archive written so far,
    and [writestr] adds a member at its end. *)
Module ZipOutputGenerator.

(** [0444 << 16L]: read-only files. *)
Definition scratch_file (path content : string) (zipfile : ZipFile)
  : ZipFile :=
  zipfile ++ [{| info := stamped_info path (Z.shiftl 292 16);
                 data := content |}].

(** [0555 << 16L] for a file its owner may execute. *)
Definition copy (w : Autodetect.world) (path origfile : string)
  (zipfile : ZipFile) : outcome ZipFile :=
  match Autodetect.st_mode w origfile with
  | None => Failed (PackageGenerationFailure ("No such tool: " ++ origfile))
  | Some mode =>
      let external_attr :=
        if negb (Z.eqb 0 (Z.land Autodetect.S_IXUSR mode))
        then Z.shiftl 365 16 else Z.shiftl 292 16 in
      match Autodetect.contents w origfile with
      | Some text =>
          Done (zipfile ++ [{| info := stamped_info path external_attr;
                               data := text |}])
      | None => Failed (Exception IOError)
      end
  end.

Definition append (path content : string) (zipfile : ZipFile) : ZipFile :=
  scratch_file path content zipfile.

End ZipOutputGenerator.

(** [PackageGenerationHelper] over a [ZipOutputGenerator]; [package] and
    [install_path] are the fields of the helper. *)
Module ZipPackageGenerationHelper.

Definition scratch_file (package name content : string) (output : ZipFile)
  : ZipFile :=
  ZipOutputGenerator.scratch_file (package ++ "/" ++ name) content output.

Definition build_file (package content : string) (output : ZipFile)
  : ZipFile :=
  scratch_file package "BUILD" content output.

Definition workspace_part (content : string) (output : ZipFile) : ZipFile :=
  ZipOutputGenerator.append "WORKSPACE" content output.

Definition copy_from_embedded (w : Autodetect.world)
  (install_path package name : string) (output : ZipFile)
  : outcome ZipFile :=
  ZipOutputGenerator.copy w (package ++ "/" ++ name)
    (install_path ++ "/" ++ name) output.

End ZipPackageGenerationHelper.

End Packgen.

(* ================================================================== *)
(** ** bazel-init.py: the [generate] command *)

Module Generation.
Import Packgen.

(** A step of the command: it may change the helpers of the plugin and
    the archive being written. *)
Definition GM (A : Type) : Type :=
  Buildgen.store * ZipFile -> outcome A * (Buildgen.store * ZipFile).

Definition gret {A} (a : A) : GM A := fun s => (Done a, s).

Definition gbind {A B} (m : GM A) (k : A -> GM B) : GM B :=
  fun s =>
    match m s with
    | (Done a, s') => k a s'
    | (Failed f, s') => (Failed f, s')
    | (Unfinished, s') => (Unfinished, s')
    end.

Notation "x <<- m ;; k" := (gbind m (fun x => k))
  (at level 61, m at next level, right associativity).

(** A method of [BuildGeneratorHelper]: the archive is left alone. *)
Definition of_helper {A} (m : Buildgen.SM A) : GM A :=
  fun s =>
    match m (fst s) with
    | (Return a, st) => (Done a, (st, snd s))
    | (Raise e, st) => (Failed (Exception e), (st, snd s))
    | (Diverge, st) => (Unfinished, (st, snd s))
    end.

(** A method of the package helper: the helpers are left alone. *)
Definition write (f : ZipFile -> ZipFile) : GM unit :=
  fun s => (Done tt, (fst s, f (snd s))).

Definition try_write (f : ZipFile -> outcome ZipFile) : GM unit :=
  fun s =>
    match f (snd s) with
    | Done output => (Done tt, (fst s, output))
    | Failed e => (Failed e, s)
    | Unfinished => (Unfinished, s)
    end.

(** The three loops of [BuildGeneratorHelper.generate] when its argument
    is a [ZipPackageGenerationHelper]. *)
Fixpoint generate_repositories (package : string) (l : list (string * nat))
  : GM unit :=
  match l with
  | [] => gret tt
  | (key, repository) :: rest =>
      text <<- of_helper (Buildgen.__build_file repository) ;;
      _ <<- write (ZipPackageGenerationHelper.scratch_file package
                     ("BUILD." ++ key) text) ;;
      generate_repositories package rest
  end.

Fixpoint generate_embedded (w : Autodetect.world)
  (install_path package : string) (l : list string) : GM unit :=
  match l with
  | [] => gret tt
  | name :: rest =>
      _ <<- try_write (ZipPackageGenerationHelper.copy_from_embedded w
                         install_path package name) ;;
      generate_embedded w install_path package rest
  end.

Fixpoint generate_files (package : string) (l : list (string * string))
  : GM unit :=
  match l with
  | [] => gret tt
  | (name, content) :: rest =>
      _ <<- write (ZipPackageGenerationHelper.scratch_file package name
                     content) ;;
      generate_files package rest
  end.

(** [build_helper.generate(package_helper)]: each text is handed to the
    package helper as soon as it is made. *)
Definition generate (w : Autodetect.world) (install_path package : string)
  (self : nat) : GM unit :=
  text <<- of_helper (Buildgen.__build_file self) ;;
  _ <<- write (ZipPackageGenerationHelper.build_file package text) ;;
  h <<- of_helper (Buildgen.get_helper self) ;;
  _ <<- generate_repositories package
          (iteritems (Buildgen.repositories h)) ;;
  h <<- of_helper (Buildgen.get_helper self) ;;
  _ <<- generate_embedded w install_path package (Buildgen.embedded h) ;;
  _ <<- generate_files package (iteritems (Buildgen.files h)) ;;
  fragment <<- of_helper (Buildgen.__workspace_file self) ;;
  write (ZipPackageGenerationHelper.workspace_part fragment).

(** The [generate] branch of [main]: [package] is what the plugin's
    [package()] gives, [package_builder] its [generate] applied to the
    variables and to the new build helper, [install_path] is [argv[5]].
    The result is the archive written to the output file. *)
Definition main (w : Autodetect.world) (install_path package : string)
  (package_builder : nat -> Buildgen.SM unit)
  : outcome unit * (Buildgen.store * ZipFile) :=
  (_ <<- of_helper (package_builder 0) ;;
   generate w install_path package 0)
    ([Buildgen.new_helper package None], []).

End Generation.

(* ================================================================== *)
(** ** examples/init-fromhost.py *)

Module Fromhost.
Import Buildgen.

Definition package : string := "fromhost".

(** A value found by autodetection, given as a rule attribute. *)
Fixpoint attribute (v : pyval) : value :=
  match v with
  | VStr s => Str s
  | VList l => List (map Str l)
  | VDict d => Dict (map (fun kv => (fst kv, attribute (snd kv))) d)
  end.

(** [x + [...]] where the right-hand side is a list. *)
Definition add (x : pyval) (l : list string) : res (list string) :=
  match x with
  | VList l' => Return (l' ++ l)
  | _ => Raise TypeError
  end.

(** The items a [for] loop over a value sees: the items of a list, the
    characters of a string, the keys of a dictionary. *)
Definition iterate (x : pyval) : list string :=
  match x with
  | VList l => l
  | VStr s => map (fun c => String c EmptyString) (list_ascii_of_string s)
  | VDict d => map fst (iteritems d)
  end.

(** [generate(variables, helper)]: the file is staged, then the keyword
    arguments are evaluated from left to right, then [rule] is called. *)
Definition generate (variables : dict pyval) (helper : nat) : SM unit :=
  _ <:- scratch_file helper "empty.c" EmptyString ;;
  copts <:- slift (Autodetect.getitem variables "cflags") ;;
  includes <:- slift (Autodetect.getitem variables "include_dirs") ;;
  ldflags <:- slift (Autodetect.getitem variables "ldflags") ;;
  library_dirs <:- slift (Autodetect.getitem variables "library_dirs") ;;
  linkopts <:- slift (add ldflags
                        (map (fun d => ("-L" ++ d)%string)
                           (iterate library_dirs))) ;;
  libraries <:- slift (Autodetect.getitem variables "libraries") ;;
  let linkopts :=
    linkopts ++ map (fun l => ("-l" ++ l)%string) (iterate libraries) in
  _ <:- rule helper "cc_library"
          (keyword_arguments
             [("name", Str "libarchive");
              ("srcs", List [Str "empty.c"]);
              ("copts", attribute copts);
              ("includes", attribute includes);
              ("linkopts", List (map Str linkopts))]) ;;
  sret tt.

End Fromhost.

(* ================================================================== *)
(** ** The fixtures of autodetect_test.py *)

Module Fixture.
Import Autodetect.

Definition unlines (l : list string) : string :=
  String.concat "" (map (fun s => snoc s newline) l).

(** The [.pc] file of the tests. *)
Definition pc_file : string :=
  unlines [""; "prefix=/usr/local"; "exec_prefix=${prefix}";
           "libdir=${exec_prefix}/lib"; "includedir=${prefix}/include"; "";
           "Name: libarchive"; "Cflags: -I${includedir}";
           "Libs: -L${libdir} -larchive";
           "Libs.private: -lexpat -llzma -lbz2 -lz "].

(** The emulation of pkg-config of the tests: it only knows libarchive. *)
Definition pkg_config_script (args : list string) : Z * string :=
  match args with
  | [flag; "libarchive"] =>
      if existsb (String.eqb flag)
           ["--exists"; "--atleast-version"; "--max-version";
            "--libs-only-other"; "--cflags-only-other"]
      then (0%Z, "")
      else if String.eqb flag "--libs-only-L"
      then (0%Z, unlines ["-L/usr/local/lib"])
      else if String.eqb flag "--libs-only-l" then (0%Z, unlines ["-larchive"])
      else if String.eqb flag "--cflags-only-I"
      then (0%Z, unlines ["-I/usr/local/include"])
      else if String.eqb flag "--print-variables"
      then (0%Z, unlines ["prefix"; "exec_prefix"; "libdir"; "includedir"])
      else if existsb (String.eqb flag)
                ["--variable=prefix"; "--variable=exec_prefix"]
      then (0%Z, unlines ["/usr/local"])
      else if String.eqb flag "--variable=libdir"
      then (0%Z, unlines ["/usr/local/lib"])
      else if String.eqb flag "--variable=includedir"
      then (0%Z, unlines ["/usr/local/include"])
      else (1%Z, "")
  | _ => (1%Z, "")
  end.

(** A host whose PATH is the directory [/tmp/fixture]. *)
Definition test_world : world := {|
  environ := fun k => if String.eqb k "PATH" then Some "/tmp/fixture" else None;
  st_mode := fun path =>
    if String.eqb path "/tmp/fixture/pkg-config" then Some 493%Z
    else if String.eqb path "/tmp/fixture/file.pc" then Some 420%Z
    else None;
  contents := fun path =>
    if String.eqb path "/tmp/fixture/file.pc" then Some pc_file else None;
  run := fun args =>
    match args with
    | "/tmp/fixture/pkg-config" :: args' => pkg_config_script args'
    | _ => (127%Z, "")
    end;
  re_template := fun _ => Raise ReError
|}.

(** The expected output of the tests. *)
Definition pc_result : dict pyval :=
  [("library_dirs", VList ["/usr/local/lib"]);
   ("libraries", VList ["archive"]);
   ("ldflags", VList []);
   ("include_dirs", VList ["/usr/local/include"]);
   ("cflags", VList []);
   ("variables",
    VDict [("prefix", VStr "/usr/local");
           ("exec_prefix", VStr "/usr/local");
           ("libdir", VStr "/usr/local/lib");
           ("includedir", VStr "/usr/local/include")])].

(** A host with Homebrew only: it knows a prefix for libfoo, which ships no
    [.pc] file. *)
Definition brew_world : world := {|
  environ := fun k => if String.eqb k "PATH" then Some "/usr/local/bin" else None;
  st_mode := fun path =>
    if String.eqb path "/usr/local/bin/brew" then Some 493%Z else None;
  contents := fun _ => None;
  run := fun args =>
    match args with
    | ["/usr/local/bin/brew"; "--prefix"; "libfoo"] =>
        (0%Z, unlines ["/usr/local/opt/libfoo"])
    | _ => (1%Z, "")
    end;
  re_template := fun _ => Raise ReError
|}.

(** A host with MacPorts only: the port libfoo owns a library and a
    [.pc] file. *)
Definition port_world : world := {|
  environ := fun k => if String.eqb k "PATH" then Some "/opt/local/bin" else None;
  st_mode := fun path =>
    if String.eqb path "/opt/local/bin/port" then Some 493%Z
    else if String.eqb path "/opt/local/lib/pkgconfig/libfoo.pc"
    then Some 420%Z
    else None;
  contents := fun path =>
    if String.eqb path "/opt/local/lib/pkgconfig/libfoo.pc" then Some pc_file
    else None;
  run := fun args =>
    match args with
    | ["/opt/local/bin/port"; "-q"; "contents"; "libfoo"] =>
        (0%Z, unlines ["  /opt/local/lib/libfoo.a";
                       "  /opt/local/lib/pkgconfig/libfoo.pc"])
    | _ => (1%Z, "")
    end;
  re_template := fun _ => Raise ReError
|}.

(** A host with three [.pc] files that assign no [Libs] field: an empty
    one, one of comments only, and one whose single line assigns the field
    named [variables]. *)
Definition nolibs_world : world := {|
  environ := fun _ => None;
  st_mode := fun path =>
    if existsb (String.eqb path) ["/empty.pc"; "/comment.pc"; "/odd.pc"]
    then Some 420%Z else None;
  contents := fun path =>
    if String.eqb path "/empty.pc" then Some ""
    else if String.eqb path "/comment.pc" then Some (unlines ["# nothing"])
    else if String.eqb path "/odd.pc" then Some (unlines ["variables: x"])
    else None;
  run := fun _ => (1%Z, "");
  re_template := fun _ => Raise ReError
|}.

End Fixture.

(* ================================================================== *)
(** ** The specification's reading of some operations

    Definitions that follow the specification's words, to be compared with
    the functions of the source. *)

Module Spec.

(** Flag tokenisation as the specification words it: tokens are the
    whitespace-separated words; with a prefix, a token starting with it
    loses it and is discarded when what is left is empty or is the bare
    prefix; other tokens are kept as they are. *)
Definition spec_process_flags (astr : string) (strip_option : option string)
  : list string :=
  match strip_option with
  | None => split_ws astr
  | Some p =>
      flat_map
        (fun t =>
           if startswith t p then
             let r := drop (String.length p) t in
             if String.eqb r "" || String.eqb r p then [] else [r]
           else [t])
        (split_ws astr)
  end.

(** Variable expansion as the specification words it: the leftmost token
    alone is replaced by the value of the name it holds (nothing when the
    name is unknown), and the scan starts over. *)
Fixpoint spec_expand_step (variables : dict string) (s : string)
  : option string :=
  match match_token s with
  | Some name =>
      Some ((match dict_get name variables with
             | Some v => v
             | None => EmptyString
             end) ++ drop (String.length name + 3) s)%string
  | None =>
      match s with
      | EmptyString => None
      | String c r => option_map (String c) (spec_expand_step variables r)
      end
  end.

Fixpoint spec_expand (fuel : nat) (value : string) (variables : dict string)
  : option string :=
  match spec_expand_step variables value with
  | None => Some value
  | Some value' =>
      match fuel with
      | O => None
      | S fuel' => spec_expand fuel' value' variables
      end
  end.

(** A line of a [.pc] file that assigns the field [field] (with a colon). *)
Definition line_assigns (field line : string) : bool :=
  let line := strip line in
  truthy line && negb (startswith line "#") &&
  match match_assignment line with
  | Some (key, sep, _) => Ascii.eqb sep ":" && String.eqb key field
  | None => false
  end.

Definition assigns_field (text field : string) : bool :=
  existsb (line_assigns field) (readlines text).

(** A line that assigns any field at all. *)
Definition line_is_field (line : string) : bool :=
  let line := strip line in
  truthy line && negb (startswith line "#") &&
  match match_assignment line with
  | Some (_, sep, _) => Ascii.eqb sep ":"
  | None => false
  end.

Definition has_fields (text : string) : bool :=
  existsb line_is_field (readlines text).

(** Variables whose values are strings holding no token. *)
Definition token_free (vars : dict pyval) : Prop :=
  Forall (fun kv => match snd kv with
                    | VStr v => search_token v = None
                    | _ => False
                    end) vars.

End Spec.

(* ================================================================== *)
(** ** Properties of [version_compare] *)

Module VersionCompareProps.
Import Autodetect.

Lemma str_cmp_eq (a b : string) :
  str_gt a b = false -> str_lt a b = false -> a = b.
Proof.
  unfold str_gt, str_lt. intros Hg Hl.
  apply String.compare_eq_iff.
  destruct (String.compare a b); congruence || reflexivity.
Qed.

Lemma str_compare_refl (a : string) : String.compare a a = Eq.
Proof.
  induction a as [|c a IH]; [reflexivity|].
  simpl. unfold Ascii.compare. rewrite N.compare_refl. exact IH.
Qed.

Lemma str_cmp_refl (a : string) : str_gt a a = false /\ str_lt a a = false.
Proof.
  unfold str_gt, str_lt. rewrite str_compare_refl. split; reflexivity.
Qed.

Lemma str_gt_not_lt (a b : string) : str_gt a b = true -> str_lt a b = false.
Proof. unfold str_gt, str_lt. destruct (String.compare a b); congruence. Qed.

(** The loop over [seq s n] stops at the first index whose components
    differ and reports their order. *)
Lemma loop_first_diff (v1 v2 : list string) (n s i : nat) :
  s <= i < s + n ->
  (forall j, s <= j < i -> nth j v1 "" = nth j v2 "") ->
  nth i v1 "" <> nth i v2 "" ->
  version_compare_loop v1 v2 (seq s n) =
    Some (if str_lt (nth i v1 "") (nth i v2 "") then (-1)%Z else 1%Z).
Proof.
  revert s. induction n as [|n IH]; intros s Hi Heq Hne; [lia|].
  simpl. destruct (Nat.eq_dec s i) as [->|Hsi].
  - destruct (str_gt (nth i v1 "") (nth i v2 "")) eqn:Hg.
    + rewrite (str_gt_not_lt _ _ Hg). reflexivity.
    + destruct (str_lt (nth i v1 "") (nth i v2 "")) eqn:Hl; [reflexivity|].
      exfalso. apply Hne. apply str_cmp_eq; assumption.
  - rewrite (Heq s) by lia.
    destruct (str_cmp_refl (nth s v2 "")) as [-> ->].
    apply IH; [lia| |assumption].
    intros j Hj. apply Heq. lia.
Qed.

Lemma loop_all_equal (v1 v2 : list string) (n s : nat) :
  (forall j, s <= j < s + n -> nth j v1 "" = nth j v2 "") ->
  version_compare_loop v1 v2 (seq s n) = None.
Proof.
  revert s. induction n as [|n IH]; intros s Heq; [reflexivity|].
  simpl. rewrite (Heq s) by lia.
  destruct (str_cmp_refl (nth s v2 "")) as [-> ->].
  apply IH. intros j Hj. apply Heq. lia.
Qed.

(** C8. [version_compare] splits both versions on ['.'] and compares the
    components pairwise as raw strings up to the shorter length: the first
    unequal pair decides the sign, and when every compared pair is equal the
    result is -1, 0 or 1 as the first version has fewer, as many or more
    components than the second.  The comparison is lexical, not numeric
    (["10"] sorts before ["9"]), and the four documented values hold. *)
Theorem version_compare_spec :
  (forall a b i,
      i < Nat.min (length (split "." a)) (length (split "." b)) ->
      (forall j, j < i ->
         nth j (split "." a) "" = nth j (split "." b) "") ->
      nth i (split "." a) "" <> nth i (split "." b) "" ->
      version_compare a b =
        (if str_lt (nth i (split "." a) "") (nth i (split "." b) "")
         then -1 else 1)%Z) /\
  (forall a b,
      (forall j, j < Nat.min (length (split "." a)) (length (split "." b)) ->
         nth j (split "." a) "" = nth j (split "." b) "") ->
      version_compare a b =
        match Nat.compare (length (split "." a)) (length (split "." b)) with
        | Lt => -1 | Eq => 0 | Gt => 1
        end%Z) /\
  version_compare "1.7.0" "2" = (-1)%Z /\
  version_compare "2.3.1" "2.1" = 1%Z /\
  version_compare "1.2" "1.2" = 0%Z /\
  version_compare "1.2" "1.2.0" = (-1)%Z /\
  version_compare "10" "9" = (-1)%Z.
Proof.
  split; [|split].
  - intros a b i Hi Heq Hne. unfold version_compare.
    rewrite (loop_first_diff _ _ _ 0 i);
      [reflexivity | lia | intros j Hj; apply Heq; lia | assumption].
  - intros a b Heq. unfold version_compare.
    rewrite loop_all_equal by (intros j Hj; apply Heq; lia).
    destruct (Nat.compare_spec (length (split "." a)) (length (split "." b)))
      as [He|Hl|Hg].
    + rewrite He, Nat.ltb_irrefl. reflexivity.
    + apply Nat.ltb_lt in Hl. rewrite Hl. reflexivity.
    + assert (H1 : Nat.ltb (length (split "." a)) (length (split "." b)) = false)
        by (apply Nat.ltb_ge; lia).
      rewrite H1. apply Nat.ltb_lt in Hg. rewrite Hg. reflexivity.
  - repeat split; reflexivity.
Qed.

Lemma version_compare_spec_witness : version_compare "2.3.1" "2.1" = 1%Z.
Proof.
  rewrite (proj1 version_compare_spec "2.3.1" "2.1" 1).
  - reflexivity.
  - simpl. lia.
  - intros j Hj. destruct j; [reflexivity|lia].
  - discriminate.
Defined.

End VersionCompareProps.

(* ================================================================== *)
(** ** Properties of [__process_flags] *)

Module ProcessFlagsProps.
Import Autodetect Spec.

Definition tab : string := String "009"%char EmptyString.

(** What one stripped piece of the response contributes. *)
Definition flag_of_piece (strip_option : option string) (t : string)
  : list string :=
  match strip_option with
  | Some p =>
      if startswith t p then
        if String.eqb t p then [] else [drop (String.length p) t]
      else [t]
  | None => [t]
  end.

Lemma process_flags_loop (so : option string) (l : list string) :
  forall acc,
    fold_left (__process_flags_step so) l acc =
    acc ++ flat_map (flag_of_piece so) (map strip l).
Proof.
  induction l as [|x l IH]; intros acc; simpl.
  - now rewrite app_nil_r.
  - rewrite IH. unfold __process_flags_step, flag_of_piece.
    destruct so as [p|].
    + destruct (startswith (strip x) p).
      * destruct (String.eqb (strip x) p); simpl.
        -- reflexivity.
        -- now rewrite <- app_assoc.
      * now rewrite <- app_assoc.
    + now rewrite <- app_assoc.
Qed.

Lemma lstrip_head (s : string) :
  lstrip s = EmptyString \/
  exists c r, lstrip s = String c r /\ isspace c = false.
Proof.
  induction s as [|c r IH]; simpl; [now left|].
  destruct (isspace c) eqn:Hc; [exact IH|].
  right. now exists c, r.
Qed.

Lemma rstrip_head (c : ascii) (r : string) :
  isspace c = false -> exists r', rstrip (String c r) = String c r'.
Proof.
  intros Hc. simpl. destruct (rstrip r).
  - rewrite Hc. now exists EmptyString.
  - now eexists.
Qed.

Lemma rstrip_idem (s : string) : rstrip (rstrip s) = rstrip s.
Proof.
  induction s as [|c r IH]; simpl; [reflexivity|].
  destruct (rstrip r) as [|a b] eqn:Hr.
  - destruct (isspace c) eqn:Hc; simpl; [reflexivity|now rewrite Hc].
  - change (rstrip (String c (String a b)))
      with (match rstrip (String a b) with
            | EmptyString =>
                if isspace c then EmptyString else String c EmptyString
            | String x y => String c (String x y)
            end).
    now rewrite IH.
Qed.

Lemma strip_idem (s : string) : strip (strip s) = strip s.
Proof.
  unfold strip.
  destruct (lstrip_head s) as [->|(c & r & -> & Hc)]; [reflexivity|].
  destruct (rstrip_head c r Hc) as [r' Hr]. rewrite Hr.
  simpl lstrip. rewrite Hc, <- Hr. apply rstrip_idem.
Qed.

(** Responses whose only whitespace is the space character. *)
Fixpoint spaces_only (s : string) : bool :=
  match s with
  | EmptyString => true
  | String c r => (negb (isspace c) || Ascii.eqb c " ") && spaces_only r
  end.

Fixpoint no_space (s : string) : bool :=
  match s with
  | EmptyString => true
  | String c r => negb (isspace c) && no_space r
  end.

Lemma split_nonempty (sep : ascii) (s : string) : split sep s <> [].
Proof.
  destruct s as [|c r]; simpl; [discriminate|].
  destruct (Ascii.eqb c sep); [discriminate|].
  destruct (split sep r); discriminate.
Qed.

Lemma no_space_strip (s : string) : no_space s = true -> strip s = s.
Proof.
  unfold strip. intros H.
  assert (Hl : lstrip s = s).
  { destruct s as [|c r]; [reflexivity|]. simpl in *.
    apply andb_true_iff in H as [Hc _].
    apply negb_true_iff in Hc. now rewrite Hc. }
  rewrite Hl. clear Hl.
  induction s as [|c r IH]; [reflexivity|].
  simpl in *. apply andb_true_iff in H as [Hc Hr].
  apply negb_true_iff in Hc. rewrite (IH Hr).
  destruct r; [now rewrite Hc|reflexivity].
Qed.

Lemma split_pieces_no_space (s : string) :
  spaces_only s = true ->
  Forall (fun t => no_space t = true) (split " " s).
Proof.
  induction s as [|c r IH]; simpl; intros H.
  - now repeat constructor.
  - apply andb_true_iff in H as [Hc Hr]. specialize (IH Hr).
    destruct (Ascii.eqb c " ") eqn:Hsp.
    + now constructor.
    + rewrite orb_false_r in Hc.
      destruct (split " " r) as [|h t] eqn:Hs.
      * constructor; [simpl; now rewrite Hc|constructor].
      * inversion IH; subst. constructor; [|assumption].
        simpl. now rewrite Hc.
Qed.

Lemma split_ws_cons (c : ascii) (r : string) :
  split_ws (String c r) =
  if isspace c then split_ws r
  else match r with
       | EmptyString => [String c EmptyString]
       | String c' _ =>
           if isspace c' then String c EmptyString :: split_ws r
           else match split_ws r with
                | h :: t => String c h :: t
                | [] => [String c EmptyString]
                end
       end.
Proof. reflexivity. Qed.

Lemma split_cons (sep c : ascii) (r : string) :
  split sep (String c r) =
  if Ascii.eqb c sep then EmptyString :: split sep r
  else match split sep r with
       | h :: t => String c h :: t
       | [] => [String c EmptyString]
       end.
Proof. reflexivity. Qed.

Lemma split_ws_spaces (s : string) :
  spaces_only s = true ->
  filter truthy (split " " s) = split_ws s.
Proof.
  induction s as [|c r IH]; intros H; [reflexivity|].
  simpl in H. apply andb_true_iff in H as [Hc Hr]. specialize (IH Hr).
  rewrite split_cons, split_ws_cons.
  destruct (Ascii.eqb c " ") eqn:Hsp.
  - apply Ascii.eqb_eq in Hsp. subst c. simpl. exact IH.
  - rewrite orb_false_r in Hc. apply negb_true_iff in Hc. rewrite Hc.
    destruct r as [|c' r']; [reflexivity|].
    rewrite <- IH.
    simpl in Hr. apply andb_true_iff in Hr as [Hc' _].
    rewrite split_cons.
    destruct (Ascii.eqb c' " ") eqn:Hsp'.
    + apply Ascii.eqb_eq in Hsp'. subst c'. reflexivity.
    + rewrite orb_false_r in Hc'. apply negb_true_iff in Hc'. rewrite Hc'.
      destruct (split " " r'); reflexivity.
Qed.

Lemma no_space_drop (n : nat) (t : string) :
  no_space t = true -> no_space (drop n t) = true.
Proof.
  revert t. induction n as [|n IH]; intros t H; [destruct t; exact H|].
  destruct t as [|c r]; [reflexivity|].
  simpl in *. apply andb_true_iff in H as [_ Hr]. now apply IH.
Qed.

Lemma drop_prefix_nonempty (p t : string) :
  String.prefix p t = true -> String.eqb t p = false ->
  drop (String.length p) t <> EmptyString.
Proof.
  revert t. induction p as [|a p IH]; intros t Hp Hne.
  - destruct t; [discriminate Hne|]. simpl. discriminate.
  - destruct t as [|c r]; [discriminate Hp|].
    simpl in Hp. destruct (ascii_dec a c) as [->|]; [|discriminate].
    simpl in Hne. rewrite Ascii.eqb_refl in Hne. simpl. now apply IH.
Qed.

Lemma truthy_nonempty (s : string) : truthy s = true <-> s <> EmptyString.
Proof. destruct s; simpl; split; congruence. Qed.

(** A non-empty piece without whitespace passes the final filter as is. *)
Lemma piece_kept (so : option string) (t : string) :
  no_space t = true -> t <> EmptyString ->
  map strip (filter (fun s => truthy (strip s)) (flag_of_piece so t)) =
  flag_of_piece so t.
Proof.
  intros Hns Hne.
  assert (Hkeep : forall r, no_space r = true -> r <> EmptyString ->
            map strip (filter (fun s => truthy (strip s)) [r]) = [r]).
  { intros r Hr Hr'. simpl. rewrite (no_space_strip r Hr).
    apply truthy_nonempty in Hr'. rewrite Hr'. simpl.
    now rewrite (no_space_strip r Hr). }
  unfold flag_of_piece. destruct so as [p|]; [|now apply Hkeep].
  unfold startswith. destruct (String.prefix p t) eqn:Hp; [|now apply Hkeep].
  destruct (String.eqb t p) eqn:He; [reflexivity|].
  apply Hkeep; [now apply no_space_drop|now apply drop_prefix_nonempty].
Qed.

Lemma empty_piece_dropped (so : option string) :
  map strip (filter (fun s => truthy (strip s)) (flag_of_piece so "")) = [].
Proof.
  unfold flag_of_piece. destruct so as [p|]; [|reflexivity].
  destruct p; reflexivity.
Qed.

Lemma pieces_no_space (so : option string) (l : list string) :
  Forall (fun t => no_space t = true) l ->
  map strip (filter (fun s => truthy (strip s))
               (flat_map (flag_of_piece so) (map strip l))) =
  flat_map (flag_of_piece so) (filter truthy l).
Proof.
  induction 1 as [|t l Ht Hl IH]; [reflexivity|].
  simpl map at 2. simpl flat_map. rewrite filter_app, map_app, IH.
  rewrite (no_space_strip t Ht).
  destruct t as [|c r].
  - now rewrite empty_piece_dropped.
  - rewrite piece_kept by (assumption || discriminate). reflexivity.
Qed.

(** C6, as the code has it.  The response is split on the space character
    and every piece is stripped of surrounding whitespace; with a prefix, a
    piece equal to the bare prefix is discarded and any other piece starting
    with the prefix loses it; all other pieces are kept; pieces that are
    blank after stripping are dropped, so every flag returned is non-empty
    and stripped.  When spaces are the only whitespace of the response the
    pieces are its whitespace-separated words. *)
Theorem process_flags_pieces (astr : string) (strip_option : option string) :
  __process_flags astr strip_option =
    map strip (filter (fun s => truthy (strip s))
                 (flat_map (flag_of_piece strip_option)
                    (map strip (split " " astr)))) /\
  (forall f, In f (__process_flags astr strip_option) ->
     f <> EmptyString /\ strip f = f) /\
  (spaces_only astr = true ->
   __process_flags astr strip_option =
     flat_map (flag_of_piece strip_option) (split_ws astr)).
Proof.
  assert (E : __process_flags astr strip_option =
    map strip (filter (fun s => truthy (strip s))
                 (flat_map (flag_of_piece strip_option)
                    (map strip (split " " astr))))).
  { unfold __process_flags. now rewrite process_flags_loop. }
  split; [exact E|split].
  - intros f Hf. unfold __process_flags in Hf.
    apply in_map_iff in Hf as (s & <- & Hs).
    apply filter_In in Hs as [_ Hs].
    split; [now apply truthy_nonempty|apply strip_idem].
  - intros Hsp. rewrite E.
    rewrite pieces_no_space by now apply split_pieces_no_space.
    now rewrite split_ws_spaces.
Qed.

Lemma process_flags_pieces_witness :
  __process_flags "-L/usr/local/lib -L/opt/lib" (Some "-L") =
  ["/usr/local/lib"; "/opt/lib"].
Proof.
  rewrite (proj2 (proj2 (process_flags_pieces "-L/usr/local/lib -L/opt/lib"
                           (Some "-L"))) eq_refl).
  reflexivity.
Defined.

(** C6 as stated fails: a tab does not separate two flags, the response
    [-La<TAB>-Lb] yields the single flag [a<TAB>-Lb]. *)
Lemma process_flags_not_whitespace_tokens :
  __process_flags ("-La" ++ tab ++ "-Lb")%string (Some "-L") =
    [("a" ++ tab ++ "-Lb")%string] /\
  spec_process_flags ("-La" ++ tab ++ "-Lb")%string (Some "-L") = ["a"; "b"] /\
  __process_flags ("-La" ++ tab ++ "-Lb")%string (Some "-L") <>
  spec_process_flags ("-La" ++ tab ++ "-Lb")%string (Some "-L").
Proof. repeat split; try reflexivity. discriminate. Qed.

(** A token made of the prefix twice is kept as the bare prefix. *)
Lemma process_flags_double_prefix :
  __process_flags "-L-L" (Some "-L") = ["-L"] /\
  spec_process_flags "-L-L" (Some "-L") = [].
Proof. split; reflexivity. Qed.

End ProcessFlagsProps.

(* ================================================================== *)
(** ** Properties of [pkg_config] *)

Module PkgConfigProps.
Import Autodetect.

(** A helper only ever adds commands at the end of the trace. *)
Definition extends {A} (m : M A) : Prop :=
  forall t, exists l, snd (m t) = t ++ l.

Lemma extends_ret {A} (a : A) : extends (ret a).
Proof. intros t. exists []. simpl. now rewrite app_nil_r. Qed.

Lemma extends_call (w : world) (args : list string) : extends (call w args).
Proof. intros t. now exists [args]. Qed.

Lemma extends_check_output (w : world) (args : list string) :
  extends (check_output w args).
Proof. intros t. now exists [args]. Qed.

Lemma extends_mbind {A B} (m : M A) (k : A -> M B) :
  extends m -> (forall a, extends (k a)) -> extends (mbind m k).
Proof.
  intros Hm Hk t. unfold mbind.
  destruct (Hm t) as [l Hl]. destruct (m t) as [[a|e|] t']; simpl in Hl; subst t'.
  - destruct (Hk a (t ++ l)) as [l' Hl']. exists (l ++ l').
    now rewrite Hl', app_assoc.
  - now exists l.
  - now exists l.
Qed.

Lemma extends_variables (w : world) (p name : string) (vars : list string) :
  forall acc, extends (pkg_config_variables w p name vars acc).
Proof.
  induction vars as [|v vars IH]; intros acc; simpl.
  - apply extends_ret.
  - apply extends_mbind; [apply extends_check_output|].
    intros out. apply IH.
Qed.

Lemma extends_result (w : world) (p name : string) :
  extends (pkg_config_result w p name).
Proof.
  unfold pkg_config_result.
  repeat (apply extends_mbind; [apply extends_check_output|intros ?]).
  apply extends_mbind; [apply extends_variables|intros ?].
  apply extends_ret.
Qed.

(** The flag queries start with [--libs-only-L]. *)
Lemma result_first_query (w : world) (p name : string) (t : trace) :
  exists l,
    snd (pkg_config_result w p name t) = t ++ [p; "--libs-only-L"; name] :: l.
Proof.
  unfold pkg_config_result.
  set (k := fun library_dirs : string => _).
  unfold mbind at 1. unfold check_output at 1.
  destruct (Z.eqb (fst (run w [p; "--libs-only-L"; name])) 0).
  - assert (Hk : extends (k (snd (run w [p; "--libs-only-L"; name])))).
    { unfold k.
      repeat (apply extends_mbind; [apply extends_check_output|intros ?]).
      apply extends_mbind; [apply extends_variables|intros ?].
      apply extends_ret. }
    destruct (Hk (t ++ [[p; "--libs-only-L"; name]])) as [l Hl].
    exists l. rewrite Hl, <- app_assoc. reflexivity.
  - now exists [].
Qed.

(** Once the checks have passed the outcome is a FlagSet or an error,
    never the not-found result. *)
Lemma construct_found {A} (m : M A) (t : trace) :
  fst (mbind m (fun r => ret (Some r)) t) <> Return None.
Proof.
  unfold mbind. destruct (m t) as [[a|e|] t']; simpl; discriminate.
Qed.

Lemma max_check_not_query (m : string) :
  ("--max-version=" ++ m)%string <> "--libs-only-L".
Proof. simpl. discriminate. Qed.

(** What [pkg_config] does after its checks. *)
Definition construct (w : world) (name p : string) : M (option (dict pyval)) :=
  mbind (pkg_config_result w p name) (fun r => ret (Some r)).

Section Checks.
Variables (w : world) (name : string).
Variables (atleast exact max : option string).
Variable t : trace.

Let test := pkg_config_test atleast exact max.

Lemma pkg_config_absent :
  which w "pkg-config" = None ->
  pkg_config w name atleast exact max t = (Return None, t).
Proof. intros H. unfold pkg_config. now rewrite H. Qed.

Lemma pkg_config_test_fails (p : string) :
  which w "pkg-config" = Some p ->
  fst (run w [p; test; name]) <> 0%Z ->
  pkg_config w name atleast exact max t =
    (Return None, t ++ [[p; test; name]]).
Proof.
  intros H Hx. unfold pkg_config. rewrite H.
  unfold mbind at 1, call at 1. fold test.
  apply Z.eqb_neq in Hx. now rewrite Hx.
Qed.

Lemma pkg_config_single (p : string) :
  which w "pkg-config" = Some p ->
  fst (run w [p; test; name]) = 0%Z ->
  atleast = None \/ max = None ->
  pkg_config w name atleast exact max t =
    construct w name p (t ++ [[p; test; name]]).
Proof.
  intros H Hx Hn. unfold pkg_config. rewrite H.
  unfold mbind at 1, call at 1. fold test. rewrite Hx. simpl negb. cbv iota.
  destruct Hn as [-> | ->]; [reflexivity|].
  destruct atleast; reflexivity.
Qed.

Lemma pkg_config_max_fails (p a m : string) :
  which w "pkg-config" = Some p ->
  fst (run w [p; test; name]) = 0%Z ->
  atleast = Some a -> max = Some m ->
  fst (run w [p; ("--max-version=" ++ m)%string; name]) <> 0%Z ->
  pkg_config w name atleast exact max t =
    (Return None,
     t ++ [[p; test; name]; [p; ("--max-version=" ++ m)%string; name]]).
Proof.
  intros H Hx Ha Hm Hy. unfold pkg_config. rewrite H.
  unfold mbind at 1, call at 1. fold test. rewrite Hx. simpl negb. cbv iota.
  rewrite Ha, Hm. unfold mbind at 1, call at 1.
  apply Z.eqb_neq in Hy. rewrite Hy. simpl. rewrite <- ?app_assoc. reflexivity.
Qed.

Lemma pkg_config_both (p a m : string) :
  which w "pkg-config" = Some p ->
  fst (run w [p; test; name]) = 0%Z ->
  atleast = Some a -> max = Some m ->
  fst (run w [p; ("--max-version=" ++ m)%string; name]) = 0%Z ->
  pkg_config w name atleast exact max t =
    construct w name p
      (t ++ [[p; test; name]; [p; ("--max-version=" ++ m)%string; name]]).
Proof.
  intros H Hx Ha Hm Hy. unfold pkg_config. rewrite H.
  unfold mbind at 1, call at 1. fold test. rewrite Hx. simpl negb. cbv iota.
  rewrite Ha, Hm. unfold mbind at 1, call at 1.
  rewrite Hy. change (0 =? 0)%Z with true. cbv beta iota delta [negb].
  rewrite <- ?app_assoc. reflexivity.
Qed.

Lemma construct_trace (p : string) (t0 : trace) :
  exists l,
    snd (construct w name p t0) = t0 ++ [p; "--libs-only-L"; name] :: l.
Proof.
  destruct (result_first_query w p name t0) as [l Hl].
  unfold construct, mbind in *.
  destruct (pkg_config_result w p name t0) as [[r|e|] t'];
    simpl in *; subst t'; eexists; reflexivity.
Qed.

End Checks.

(** C5. [pkg_config] picks one existence test, [--exact-version] before
    [--atleast-version] before [--max-version] before [--exists]; it returns
    the not-found result exactly when the tool is absent, or the existence
    test exits nonzero, or both [atleast_version] and [max_version] were
    given and the further [--max-version] check exits nonzero.  The
    existence test is the first command issued and nothing follows a failed
    check; a flag query is issued only once every check has passed. *)
Theorem pkg_config_checks (w : world) (name : string)
  (atleast exact max : option string) (t : trace) :
  let test := pkg_config_test atleast exact max in
  let maxtest := fun m : string => ("--max-version=" ++ m)%string in
  ((forall v, exact = Some v -> test = ("--exact-version=" ++ v)%string) /\
   (forall v, exact = None -> atleast = Some v ->
              test = ("--atleast-version=" ++ v)%string) /\
   (forall v, exact = None -> atleast = None -> max = Some v ->
              test = maxtest v) /\
   (exact = None -> atleast = None -> max = None -> test = "--exists")) /\
  (fst (pkg_config w name atleast exact max t) = Return None <->
   which w "pkg-config" = None \/
   exists p, which w "pkg-config" = Some p /\
     (fst (run w [p; test; name]) <> 0%Z \/
      exists a m, atleast = Some a /\ max = Some m /\
                  fst (run w [p; maxtest m; name]) <> 0%Z)) /\
  (which w "pkg-config" = None ->
   snd (pkg_config w name atleast exact max t) = t) /\
  (forall p, which w "pkg-config" = Some p ->
     exists rest,
       snd (pkg_config w name atleast exact max t) =
         t ++ [p; test; name] :: rest /\
       (fst (run w [p; test; name]) <> 0%Z -> rest = []) /\
       (forall a m, atleast = Some a -> max = Some m ->
          fst (run w [p; test; name]) = 0%Z ->
          exists rest', rest = [p; maxtest m; name] :: rest' /\
            (fst (run w [p; maxtest m; name]) <> 0%Z -> rest' = [])) /\
       (In [p; "--libs-only-L"; name] rest ->
          fst (run w [p; test; name]) = 0%Z /\
          forall a m, atleast = Some a -> max = Some m ->
                      fst (run w [p; maxtest m; name]) = 0%Z)).
Proof.
  intros test maxtest.
  split; [|split; [|split]].
  - unfold test, maxtest, pkg_config_test.
    repeat split; intros; subst; reflexivity.
  - destruct (which w "pkg-config") as [p|] eqn:Hw.
    2:{ rewrite pkg_config_absent by assumption. split; auto. }
    destruct (Z.eq_dec (fst (run w [p; test; name])) 0) as [Hx|Hx].
    2:{ rewrite (pkg_config_test_fails _ _ _ _ _ _ p Hw Hx).
        split; [|reflexivity]. intros _. right. exists p. auto. }
    assert (Hsingle : atleast = None \/ max = None ->
      (fst (pkg_config w name atleast exact max t) = Return None <->
       Some p = None \/
       exists p0, Some p = Some p0 /\
         (fst (run w [p0; test; name]) <> 0%Z \/
          exists a m, atleast = Some a /\ max = Some m /\
                      fst (run w [p0; maxtest m; name]) <> 0%Z))).
    { intros Hn. rewrite (pkg_config_single _ _ _ _ _ _ p Hw Hx Hn). split.
      - intros Hr. unfold construct in Hr. now apply construct_found in Hr.
      - intros [Hc|(p0 & Hp0 & [Hc|(a & m & Ha & Hm & _)])].
        + discriminate.
        + injection Hp0 as <-. contradiction.
        + destruct Hn; congruence. }
    destruct atleast as [a|] eqn:Ea; [|apply Hsingle; now left].
    destruct max as [m|] eqn:Em; [|apply Hsingle; now right].
    clear Hsingle.
    destruct (Z.eq_dec (fst (run w [p; maxtest m; name])) 0) as [Hy|Hy].
    + rewrite (pkg_config_both _ _ _ _ _ _ p a m Hw Hx eq_refl eq_refl Hy).
      split.
      * intros Hr. unfold construct in Hr. now apply construct_found in Hr.
      * intros [Hc|(p0 & Hp0 & [Hc|(a' & m' & Ha & Hm & Hc)])].
        -- discriminate.
        -- injection Hp0 as <-. contradiction.
        -- injection Hp0 as <-. injection Hm as <-. contradiction.
    + rewrite (pkg_config_max_fails _ _ _ _ _ _ p a m Hw Hx eq_refl eq_refl Hy).
      split; [|reflexivity]. intros _. right. exists p. split; [reflexivity|].
      right. now exists a, m.
  - intros Hw. now rewrite pkg_config_absent.
  - intros p Hw.
    destruct (Z.eq_dec (fst (run w [p; test; name])) 0) as [Hx|Hx].
    2:{ exists []. rewrite (pkg_config_test_fails _ _ _ _ _ _ p Hw Hx).
        repeat split; try contradiction; try (intros; contradiction). }
    assert (Hsingle : atleast = None \/ max = None ->
      exists rest,
        snd (pkg_config w name atleast exact max t) =
          t ++ [p; test; name] :: rest /\
        (fst (run w [p; test; name]) <> 0%Z -> rest = []) /\
        (forall a m, atleast = Some a -> max = Some m ->
           fst (run w [p; test; name]) = 0%Z ->
           exists rest', rest = [p; maxtest m; name] :: rest' /\
             (fst (run w [p; maxtest m; name]) <> 0%Z -> rest' = [])) /\
        (In [p; "--libs-only-L"; name] rest ->
           fst (run w [p; test; name]) = 0%Z /\
           forall a m, atleast = Some a -> max = Some m ->
                       fst (run w [p; maxtest m; name]) = 0%Z)).
    { intros Hn. rewrite (pkg_config_single _ _ _ _ _ _ p Hw Hx Hn).
      destruct (construct_trace w name p (t ++ [[p; test; name]])) as [l Hl].
      exists ([p; "--libs-only-L"; name] :: l).
      fold test. rewrite Hl, <- app_assoc. simpl.
      split; [reflexivity|]. split; [contradiction|].
      split; [intros a m Ha Hm; destruct Hn; congruence|].
      intros _. split; [assumption|].
      intros a m Ha Hm; destruct Hn; congruence. }
    destruct atleast as [a|] eqn:Ea; [|apply Hsingle; now left].
    destruct max as [m|] eqn:Em; [|apply Hsingle; now right].
    clear Hsingle.
    destruct (Z.eq_dec (fst (run w [p; maxtest m; name])) 0) as [Hy|Hy].
    + rewrite (pkg_config_both _ _ _ _ _ _ p a m Hw Hx eq_refl eq_refl Hy).
      destruct (construct_trace w name p
                  (t ++ [[p; test; name]; [p; maxtest m; name]])) as [l Hl].
      exists ([p; maxtest m; name] :: [p; "--libs-only-L"; name] :: l).
      fold test. fold (maxtest m). rewrite Hl, <- app_assoc. simpl.
      split; [reflexivity|]. split; [contradiction|].
      split.
      * intros a' m' _ Hm' _. injection Hm' as <-.
        eexists. split; [reflexivity|contradiction].
      * intros _. split; [assumption|].
        intros a' m' _ Hm'. now injection Hm' as <-.
    + rewrite (pkg_config_max_fails _ _ _ _ _ _ p a m Hw Hx eq_refl eq_refl Hy).
      exists [[p; maxtest m; name]]. simpl.
      split; [reflexivity|]. split; [contradiction|].
      split.
      * intros a' m' _ Hm' _. injection Hm' as <-.
        exists []. split; [reflexivity|reflexivity].
      * intros [Hin|[]]. exfalso.
        assert (E : maxtest m = "--libs-only-L") by congruence.
        now apply max_check_not_query in E.
Qed.

Lemma pkg_config_checks_witness :
  fst (pkg_config Fixture.test_world "toto" None None None []) = Return None.
Proof.
  apply (proj1 (proj2 (pkg_config_checks Fixture.test_world "toto"
                         None None None []))).
  right. exists "/tmp/fixture/pkg-config". split; [reflexivity|].
  left. discriminate.
Defined.

(** The two expectations of [test_pkg_config]. *)
Lemma test_pkg_config :
  fst (pkg_config Fixture.test_world "toto" None None None []) = Return None /\
  fst (pkg_config Fixture.test_world "libarchive" None None None []) =
    Return (Some Fixture.pc_result).
Proof. split; vm_compute; reflexivity. Qed.

End PkgConfigProps.

(* ================================================================== *)
(** ** Properties of [sub_variables] *)

Module SubVariablesProps.
Import Autodetect Spec.

Lemma bind_return {A B} (m : res A) (k : A -> res B) (b : B) :
  bind m k = Return b -> exists a, m = Return a /\ k a = Return b.
Proof. destruct m; simpl; intros H; try discriminate. now exists a. Qed.

(** What [sub_variables] returns holds no token any more. *)
Lemma sub_variables_no_token (w : world) (variables : dict pyval) :
  forall fuel value r,
    sub_variables w fuel value variables = Return r ->
    search_token r = None.
Proof.
  induction fuel as [|fuel IH]; intros value r H; simpl in H.
  - destruct (search_token value) eqn:Hs; [discriminate|].
    now injection H as <-.
  - destruct (search_token value) eqn:Hs; [|now injection H as <-].
    apply bind_return in H as (val & _ & H).
    apply bind_return in H as (value' & _ & H).
    now apply IH in H.
Qed.

(** The documented two-level expansion. *)
Lemma sub_variables_two_levels (w : world) (fuel : nat) :
  sub_variables w (2 + fuel) "${exec_prefix}/lib"
    [("prefix", VStr "/usr/local"); ("exec_prefix", VStr "${prefix}")] =
  Return "/usr/local/lib".
Proof. destruct fuel; reflexivity. Qed.

(** C7 at the input ["${a.b}${aXb}"] with [a.b = 1] and [aXb = 2]: the
    name [a.b] is pasted into the pattern given to [re.sub], where its dot
    matches any character, so the token of [aXb] is replaced by the value
    of [a.b] as well and the result is ["11"]; replacing each token by the
    value of its own name gives ["12"]. *)
Theorem sub_variables_dot_is_wildcard (w : world) (fuel : nat) :
  sub_variables w (S fuel) "${a.b}${aXb}"
    [("a.b", VStr "1"); ("aXb", VStr "2")] = Return "11" /\
  spec_expand (2 + fuel) "${a.b}${aXb}" [("a.b", "1"); ("aXb", "2")] =
    Some "12".
Proof. destruct fuel; split; reflexivity. Qed.

End SubVariablesProps.

(* ================================================================== *)
(** ** Properties of [find_library] *)

Module FindLibraryProps.
Import Autodetect Fixture.

(** C3 on the code: when pkg-config and brew find nothing and the port
    lists at least one file, [find_library] never reaches the choice of a
    [.pc] file: [filter] is called with its arguments in the wrong order,
    the function in the place of the list, and raises [TypeError]. *)
Theorem find_library_port_tier_raises (w : world) (fuel : nat)
  (name : string) (t t1 t2 t3 : trace) (prefix : option string)
  (port_files : list string) :
  pkg_config w name None None None t = (Return None, t1) ->
  brew_prefix w name t1 = (Return prefix, t2) ->
  prefix = None \/ prefix = Some EmptyString ->
  port_content w name t2 = (Return (Some port_files), t3) ->
  port_files <> [] ->
  find_library w fuel name t = (Raise TypeError, t3).
Proof.
  intros Hpkg Hbrew Hprefix Hport Hne.
  unfold find_library, mbind. rewrite Hpkg, Hbrew.
  destruct Hprefix as [-> | ->]; rewrite Hport;
    (destruct port_files as [|f fs]; [contradiction|reflexivity]).
Qed.

Lemma find_library_port_tier_raises_witness :
  fst (find_library port_world 8 "libfoo" []) = Raise TypeError.
Proof.
  rewrite (find_library_port_tier_raises port_world 8 "libfoo" [] [] []
             [["/opt/local/bin/port"; "-q"; "contents"; "libfoo"]] None
             ["/opt/local/lib/libfoo.a"; "/opt/local/lib/pkgconfig/libfoo.pc"]).
  - reflexivity.
  - reflexivity.
  - reflexivity.
  - now left.
  - reflexivity.
  - discriminate.
Defined.

(** C4 on the code: when pkg-config finds nothing, brew reports a prefix and
    [prefix/lib/pkgconfig/name.pc] does not exist, [find_library] returns a
    dictionary whose only key is [variables], with the four entries derived
    from the prefix: none of the five flag lists is present. *)
Theorem find_library_brew_default_shape (w : world) (fuel : nat)
  (name : string) (t t1 t2 : trace) (prefix : string) :
  pkg_config w name None None None t = (Return None, t1) ->
  brew_prefix w name t1 = (Return (Some prefix), t2) ->
  prefix <> EmptyString ->
  st_mode w (prefix ++ "/lib/pkgconfig/" ++ name ++ ".pc")%string = None ->
  exists result,
    find_library w fuel name t = (Return (Some result), t2) /\
    dict_get "variables" result =
      Some (VDict [("prefix", VStr prefix);
                   ("exec_prefix", VStr prefix);
                   ("libdir", VStr (prefix ++ "/lib")%string);
                   ("includedir", VStr (prefix ++ "/include")%string)]) /\
    map fst result = ["variables"] /\
    Forall (fun k => dict_get k result = None)
      ["library_dirs"; "libraries"; "ldflags"; "include_dirs"; "cflags"].
Proof.
  intros Hpkg Hbrew Hne Habsent.
  exists (brew_default prefix). split.
  - unfold find_library, mbind. rewrite Hpkg, Hbrew.
    destruct prefix as [|c r]; [contradiction|].
    unfold lift, read_pc_as_pkg_config, pc_read. rewrite Habsent. reflexivity.
  - repeat split. repeat constructor.
Qed.

Lemma find_library_brew_default_shape_witness :
  exists result,
    fst (find_library brew_world 8 "libfoo" []) = Return (Some result) /\
    dict_get "cflags" result = None.
Proof.
  destruct (find_library_brew_default_shape brew_world 8 "libfoo" [] []
              [["/usr/local/bin/brew"; "--prefix"; "libfoo"]]
              "/usr/local/opt/libfoo")
    as (result & Hr & _ & _ & Hk).
  - reflexivity.
  - reflexivity.
  - discriminate.
  - reflexivity.
  - exists result. rewrite Hr. split; [reflexivity|].
    now inversion Hk as [|? ? _ Hk1]; inversion Hk1 as [|? ? _ Hk2];
      inversion Hk2 as [|? ? _ Hk3]; inversion Hk3 as [|? ? _ Hk4];
      inversion Hk4.
Defined.

End FindLibraryProps.

(* ================================================================== *)
(** ** Dictionaries *)

Module DictProps.

Lemma dict_get_set_same {V} (k : string) (v : V) (d : dict V) :
  dict_get k (dict_set k v d) = Some v.
Proof.
  induction d as [|[k' v'] d IH]; simpl.
  - now rewrite String.eqb_refl.
  - destruct (String.eqb k' k) eqn:E; simpl.
    + now rewrite String.eqb_refl.
    + now rewrite E.
Qed.

Lemma dict_get_set_other {V} (k k' : string) (v : V) (d : dict V) :
  k <> k' -> dict_get k (dict_set k' v d) = dict_get k d.
Proof.
  intros Hne. induction d as [|[k0 v0] d IH]; simpl.
  - apply String.eqb_neq in Hne. rewrite String.eqb_sym in Hne.
    now rewrite Hne.
  - destruct (String.eqb k0 k') eqn:E; simpl.
    + apply String.eqb_eq in E. subst k0.
      assert (E' : String.eqb k' k = false)
        by (apply String.eqb_neq; congruence).
      now rewrite E'.
    + now rewrite IH.
Qed.

(** Storing again what a key already holds changes nothing. *)
Lemma dict_set_same {V} (k : string) (v : V) (d : dict V) :
  dict_get k d = Some v -> dict_set k v d = d.
Proof.
  induction d as [|[k' v'] d IH]; simpl; [discriminate|].
  destruct (String.eqb k' k) eqn:E.
  - apply String.eqb_eq in E. subst k'. now intros [= ->].
  - intros H. now rewrite IH.
Qed.

Lemma dict_get_in {V} (k : string) (v : V) (d : dict V) :
  dict_get k d = Some v -> In (k, v) d.
Proof.
  induction d as [|[k' v'] d IH]; simpl; [discriminate|].
  destruct (String.eqb k' k) eqn:E.
  - apply String.eqb_eq in E. subst k'. intros [= ->]. now left.
  - intros H. right. now apply IH.
Qed.

(** [iteritems] only yields entries of the dictionary. *)
Lemma iteritems_get {V} (k : string) (v : V) (d : dict V) :
  In (k, v) (iteritems d) -> dict_get k d = Some v.
Proof.
  unfold iteritems. intros H. apply in_flat_map in H as (k' & _ & H).
  destruct (dict_get k' d) as [v'|] eqn:E; [|contradiction].
  destruct H as [[= <- <-]|[]]. exact E.
Qed.

End DictProps.

(* ================================================================== *)
(** ** Properties of [pc_read] and [read_pc_as_pkg_config] *)

Module PcReadProps.
Import Autodetect Spec Fixture DictProps.

Lemma bind_not_none {A B} (m : res A) (k : A -> res (option B)) :
  (forall a, k a <> Return None) -> bind m k <> Return None.
Proof. intros Hk. destruct m; simpl; [apply Hk|discriminate|discriminate]. Qed.

(** The key [variables] never leaves the dictionary [pc_read] builds. *)
Lemma pc_read_line_keeps (result result' : dict pyval) (line : string) :
  dict_mem "variables" result = true ->
  pc_read_line result line = Return result' ->
  dict_mem "variables" result' = true.
Proof.
  unfold pc_read_line, dict_mem. intros Hm H.
  destruct (truthy (strip line) && negb (startswith (strip line) "#"));
    [|now injection H as <-].
  destruct (match_assignment (strip line)) as [[[key sep] value]|];
    [|now injection H as <-].
  destruct (Ascii.eqb sep ":").
  - injection H as <-.
    destruct (String.eqb key "variables") eqn:E.
    + apply String.eqb_eq in E. subst key. now rewrite dict_get_set_same.
    + apply String.eqb_neq in E.
      rewrite dict_get_set_other by congruence. exact Hm.
  - unfold getitem in H. destruct (dict_get "variables" result) as [v|];
      [|discriminate]. simpl in H.
    destruct v; try discriminate. injection H as <-.
    now rewrite dict_get_set_same.
Qed.

Lemma pc_read_lines_keep (lines : list string) :
  forall result result',
    dict_mem "variables" result = true ->
    pc_read_lines lines result = Return result' ->
    dict_mem "variables" result' = true.
Proof.
  induction lines as [|line lines IH]; intros result result' Hm H; simpl in H.
  - now injection H as <-.
  - destruct (pc_read_line result line) as [r| |] eqn:E; try discriminate.
    simpl in H. eapply IH; [|exact H]. eapply pc_read_line_keeps; eassumption.
Qed.

(** [read_pc_as_pkg_config] answers not-found only for an absent file. *)
Lemma read_pc_not_found_iff (w : world) (fuel : nat) (filename : string) :
  read_pc_as_pkg_config w fuel filename = Return None <->
  st_mode w filename = None.
Proof.
  unfold read_pc_as_pkg_config, pc_read. split.
  - destruct (st_mode w filename) as [mode|]; [|reflexivity].
    intros H. exfalso. revert H.
    destruct (contents w filename) as [text|]; [|discriminate].
    destruct (pc_read_lines (readlines text) [("variables", VDict [])])
      as [f| |] eqn:E; try discriminate.
    apply pc_read_lines_keep in E; [|reflexivity].
    simpl. destruct f as [|e f]; [discriminate E|].
    repeat (apply bind_not_none; intros ?). discriminate.
  - intros ->. reflexivity.
Qed.

(** While no line assigns [Libs] or [variables], the dictionary holds the
    variables under [variables] and nothing under [Libs]. *)
Definition no_libs (result : dict pyval) : Prop :=
  (exists vars, dict_get "variables" result = Some (VDict vars)) /\
  dict_get "Libs" result = None.

Lemma pc_read_line_no_libs (result : dict pyval) (line : string) :
  no_libs result ->
  line_assigns "Libs" line = false ->
  line_assigns "variables" line = false ->
  exists result', pc_read_line result line = Return result' /\ no_libs result'.
Proof.
  unfold pc_read_line, line_assigns. intros Hinv HL HV.
  pose proof Hinv as [[vars Hv] Hl].
  destruct (truthy (strip line) && negb (startswith (strip line) "#"));
    [|now exists result].
  destruct (match_assignment (strip line)) as [[[key sep] value]|];
    [|now exists result].
  simpl in HL, HV.
  destruct (Ascii.eqb sep ":").
  - simpl in HL, HV. apply String.eqb_neq in HL, HV.
    eexists. split; [reflexivity|]. split.
    + exists vars. rewrite dict_get_set_other by congruence. exact Hv.
    + rewrite dict_get_set_other by congruence. exact Hl.
  - unfold getitem. rewrite Hv. simpl.
    eexists. split; [reflexivity|]. split.
    + eexists. now rewrite dict_get_set_same.
    + rewrite dict_get_set_other by discriminate. exact Hl.
Qed.

Lemma pc_read_lines_no_libs (lines : list string) :
  forall result,
    no_libs result ->
    existsb (line_assigns "Libs") lines = false ->
    existsb (line_assigns "variables") lines = false ->
    exists result',
      pc_read_lines lines result = Return result' /\ no_libs result'.
Proof.
  induction lines as [|line lines IH]; intros result Hinv HL HV; simpl.
  - now exists result.
  - simpl in HL, HV.
    apply orb_false_iff in HL as [HL1 HL2].
    apply orb_false_iff in HV as [HV1 HV2].
    destruct (pc_read_line_no_libs result line Hinv HL1 HV1)
      as (r & -> & Hr).
    simpl. now apply IH.
Qed.

(** Without any field line the dictionary holds the variables only. *)
Lemma pc_read_lines_only_variables (lines : list string) :
  forall vars,
    existsb line_is_field lines = false ->
    exists vars',
      pc_read_lines lines [("variables", VDict vars)] =
        Return [("variables", VDict vars')].
Proof.
  induction lines as [|line lines IH]; intros vars HF; simpl.
  - now exists vars.
  - simpl in HF. apply orb_false_iff in HF as [HF1 HF2].
    unfold pc_read_line, line_is_field in *.
    destruct (truthy (strip line) && negb (startswith (strip line) "#"));
      [|now apply IH].
    destruct (match_assignment (strip line)) as [[[key sep] value]|];
      [|now apply IH].
    simpl in HF1. rewrite HF1. simpl. now apply IH.
Qed.

(** Values without token are left as they are by [__pc_variables]. *)
Lemma sub_variables_token_free (w : world) (fuel : nat) (v : string)
  (variables : dict pyval) :
  search_token v = None -> sub_variables w fuel v variables = Return v.
Proof. intros H. destruct fuel; simpl; now rewrite H. Qed.

Lemma pc_variables_loop_token_free (w : world) (fuel : nat)
  (d : dict pyval) (keys : list string) :
  token_free d ->
  (forall k, In k keys -> exists v, dict_get k d = Some v) ->
  __pc_variables_loop w fuel keys d = Return d.
Proof.
  intros Hd. induction keys as [|k keys IH]; intros Hk; [reflexivity|].
  simpl. destruct (Hk k (or_introl eq_refl)) as [v Hv].
  unfold getitem. rewrite Hv. simpl.
  assert (Hin := dict_get_in _ _ _ Hv).
  unfold token_free in Hd. rewrite Forall_forall in Hd.
  specialize (Hd _ Hin). simpl in Hd.
  destruct v as [s|l|d']; try contradiction.
  rewrite (sub_variables_token_free w fuel s d Hd). simpl.
  rewrite (dict_set_same k (VStr s) d Hv).
  apply IH. intros k' Hk'. apply Hk. now right.
Qed.

Lemma pc_variables_token_free (w : world) (fuel : nat) (d : dict pyval) :
  token_free d -> __pc_variables w fuel (VDict d) = Return d.
Proof.
  intros Hd. simpl. apply pc_variables_loop_token_free; [exact Hd|].
  intros k Hk. apply in_map_iff in Hk as ([k' v] & <- & Hin).
  exists v. now apply iteritems_get.
Qed.

(** C10, as the code has it.  [read_pc_as_pkg_config] answers not-found
    exactly when the file is absent.  For a file that exists, can be read,
    and has no line assigning the field [Libs] nor a field named
    [variables]: [pc_read] returns a dictionary (truthy) that holds the
    variables mapping and no [Libs] (and nothing but the variables mapping
    when the file assigns no field at all); [read_pc_as_pkg_config] then
    runs the substitution pass over the variables and fails on the lookup of
    [Libs], so it never returns, neither not-found nor a FlagSet; it raises
    the key error as soon as the substitution pass completes, which it does
    when no variable holds a token. *)
Theorem read_pc_without_libs (w : world) (fuel : nat) (filename : string) :
  (read_pc_as_pkg_config w fuel filename = Return None <->
   st_mode w filename = None) /\
  (forall text,
     st_mode w filename <> None ->
     contents w filename = Some text ->
     assigns_field text "Libs" = false ->
     assigns_field text "variables" = false ->
     exists f vars,
       pc_read w filename = Return (Some f) /\
       dict_get "variables" f = Some (VDict vars) /\
       dict_get "Libs" f = None /\
       (has_fields text = false -> f = [("variables", VDict vars)]) /\
       read_pc_as_pkg_config w fuel filename =
         bind (__pc_variables w fuel (VDict vars))
           (fun _ => Raise (KeyError "Libs")) /\
       (forall r, read_pc_as_pkg_config w fuel filename <> Return r) /\
       (token_free vars ->
        read_pc_as_pkg_config w fuel filename = Raise (KeyError "Libs"))).
Proof.
  split; [apply read_pc_not_found_iff|].
  intros text Hex Htext HL HV.
  assert (Hinit : no_libs [("variables", VDict [])])
    by (split; [now exists []|reflexivity]).
  destruct (pc_read_lines_no_libs (readlines text) _ Hinit HL HV)
    as (f & Hf & [vars Hvars] & Hlibs).
  assert (Hread : pc_read w filename = Return (Some f)).
  { unfold pc_read. destruct (st_mode w filename); [|contradiction].
    now rewrite Htext, Hf. }
  assert (Heq : read_pc_as_pkg_config w fuel filename =
                bind (__pc_variables w fuel (VDict vars))
                  (fun _ => Raise (KeyError "Libs"))).
  { unfold read_pc_as_pkg_config. rewrite Hread.
    destruct f as [|e f]; [discriminate Hvars|].
    cbn [bind]. unfold getitem at 1. rewrite Hvars. cbn [bind].
    destruct (__pc_variables w fuel (VDict vars));
      cbn [bind]; [|reflexivity|reflexivity].
    unfold getitem at 1. now rewrite Hlibs. }
  exists f, vars.
  split; [exact Hread|]. split; [exact Hvars|]. split; [exact Hlibs|].
  split; [|split; [exact Heq|split]].
  - intros HF.
    destruct (pc_read_lines_only_variables (readlines text) [] HF)
      as [vars' Hf'].
    rewrite Hf in Hf'. injection Hf' as ->.
    simpl in Hvars. now injection Hvars as <-.
  - intros r. rewrite Heq.
    destruct (__pc_variables w fuel (VDict vars)); discriminate.
  - intros Hfree. rewrite Heq, pc_variables_token_free by assumption.
    reflexivity.
Qed.

Lemma read_pc_without_libs_witness :
  read_pc_as_pkg_config nolibs_world 8 "/empty.pc" = Raise (KeyError "Libs") /\
  read_pc_as_pkg_config nolibs_world 8 "/comment.pc" =
    Raise (KeyError "Libs").
Proof.
  split.
  - destruct (proj2 (read_pc_without_libs nolibs_world 8 "/empty.pc")
                EmptyString)
      as (f & vars & Hread & Hvars & _ & _ & _ & _ & Hraise).
    + discriminate.
    + reflexivity.
    + reflexivity.
    + reflexivity.
    + apply Hraise. vm_compute in Hread. injection Hread as <-.
      vm_compute in Hvars. injection Hvars as <-. constructor.
  - destruct (proj2 (read_pc_without_libs nolibs_world 8 "/comment.pc")
                (unlines ["# nothing"]))
      as (f & vars & Hread & Hvars & _ & _ & _ & _ & Hraise).
    + discriminate.
    + reflexivity.
    + reflexivity.
    + reflexivity.
    + apply Hraise. vm_compute in Hread. injection Hread as <-.
      vm_compute in Hvars. injection Hvars as <-. constructor.
Defined.

(** C10 as stated fails: a file whose only line is [variables: x] assigns
    no [Libs], yet [pc_read] returns a dictionary whose [variables] entry is
    the string [x], and [read_pc_as_pkg_config] stops before it looks up
    [Libs], on an attribute error and not on a key error. *)
Lemma read_pc_field_named_variables :
  st_mode nolibs_world "/odd.pc" <> None /\
  contents nolibs_world "/odd.pc" = Some (unlines ["variables: x"]) /\
  assigns_field (unlines ["variables: x"]) "Libs" = false /\
  pc_read nolibs_world "/odd.pc" = Return (Some [("variables", VStr "x")]) /\
  read_pc_as_pkg_config nolibs_world 8 "/odd.pc" = Raise AttributeError /\
  read_pc_as_pkg_config nolibs_world 8 "/odd.pc" <> Raise (KeyError "Libs").
Proof. repeat split; try reflexivity; discriminate. Qed.

(** The expectations of [test_read_pc_as_pkg_config]; the dictionaries are
    those of the test, their entries in the order of insertion. *)
Lemma test_read_pc_as_pkg_config :
  pc_read test_world "/tmp/fixture/file.pc" =
    Return (Some [("variables",
                   VDict [("prefix", VStr "/usr/local");
                          ("exec_prefix", VStr "${prefix}");
                          ("libdir", VStr "${exec_prefix}/lib");
                          ("includedir", VStr "${prefix}/include")]);
                  ("Name", VStr "libarchive");
                  ("Cflags", VStr "-I${includedir}");
                  ("Libs", VStr "-L${libdir} -larchive");
                  ("Libs.private", VStr "-lexpat -llzma -lbz2 -lz")]) /\
  read_pc_as_pkg_config test_world 8 "/tmp/fixture/file.pc" =
    Return (Some [("variables",
                   VDict [("prefix", VStr "/usr/local");
                          ("exec_prefix", VStr "/usr/local");
                          ("libdir", VStr "/usr/local/lib");
                          ("includedir", VStr "/usr/local/include")]);
                  ("library_dirs", VList ["/usr/local/lib"]);
                  ("libraries", VList ["archive"]);
                  ("ldflags", VList []);
                  ("include_dirs", VList ["/usr/local/include"]);
                  ("cflags", VList [])]).
Proof. split; vm_compute; reflexivity. Qed.

End PcReadProps.

(* ================================================================== *)
(** ** Properties of [merge_package] *)

Module PackgenProps.
Import Packgen.

Definition is_workspace (m : member) : bool :=
  String.eqb (filename (info m)) "WORKSPACE".

Definition names (zf : ZipFile) : list string :=
  map (fun m => filename (info m)) zf.

(** A member as [merge_package] reads it: under its own header, with the
    content the archive gives for its name. *)
Definition as_read (zf : ZipFile) (m : member) : member :=
  {| info := info m;
     data := match find (fun m' => String.eqb (filename (info m'))
                                     (filename (info m))) (rev zf) with
             | Some m' => data m'
             | None => data m
             end |}.

(** The WORKSPACE fragments of an archive, in order. *)
Definition fragments (zf : ZipFile) : list string :=
  map data (filter is_workspace (map (as_read zf) zf)).

(** The other members of an archive, in order. *)
Definition files (zf : ZipFile) : ZipFile :=
  filter (fun m => negb (is_workspace m)) (map (as_read zf) zf).

(** Every fragment followed by a line break. *)
Fixpoint join_fragments (l : list string) : string :=
  match l with
  | [] => EmptyString
  | f :: r => (f ++ String newline "" ++ join_fragments r)%string
  end.

Lemma append_assoc (a b c : string) :
  ((a ++ b) ++ c)%string = (a ++ (b ++ c))%string.
Proof. induction a as [|x a IH]; simpl; [reflexivity|now rewrite IH]. Qed.

Lemma append_empty (a : string) : (a ++ "")%string = a.
Proof. induction a as [|x a IH]; simpl; [reflexivity|now rewrite IH]. Qed.

Lemma join_fragments_app (l1 l2 : list string) :
  join_fragments (l1 ++ l2) =
  (join_fragments l1 ++ join_fragments l2)%string.
Proof.
  induction l1 as [|f l1 IH]; simpl; [reflexivity|].
  now rewrite IH, append_assoc.
Qed.

Lemma zip_read_member (zf : ZipFile) (m : member) :
  In m zf -> zip_read zf (filename (info m)) = Return (data (as_read zf m)).
Proof.
  intros Hin. unfold zip_read, as_read. simpl.
  destruct (find _ (rev zf)) as [m'|] eqn:E; [reflexivity|].
  apply in_rev in Hin. pose proof (find_none _ _ E m Hin) as H.
  simpl in H. rewrite String.eqb_refl in H. discriminate.
Qed.

Lemma merge_members_spec (zf : ZipFile) (l : list member) :
  forall output workspace,
    incl l zf ->
    merge_members zf l (output, workspace) =
    Return (output ++ filter (fun m => negb (is_workspace m))
                        (map (as_read zf) l),
            (workspace ++ join_fragments
               (map data (filter is_workspace (map (as_read zf) l))))%string).
Proof.
  induction l as [|m l IH]; intros output workspace Hincl.
  - simpl. now rewrite app_nil_r, append_empty.
  - cbn [merge_members merge_member].
    rewrite zip_read_member by (apply Hincl; now left).
    cbn [bind map filter].
    change (is_workspace (as_read zf m)) with (is_workspace m).
    change (String.eqb (filename (info m)) "WORKSPACE") with (is_workspace m).
    destruct (is_workspace m); cbn [bind negb map join_fragments data];
      rewrite IH by (intros x Hx; apply Hincl; now right).
    + now rewrite !append_assoc.
    + now rewrite <- app_assoc.
Qed.

Lemma merge_packages_spec (packages : list ZipFile) :
  forall output workspace,
    merge_packages packages (output, workspace) =
    Return (output ++ flat_map files packages,
            (workspace ++ join_fragments (flat_map fragments packages))%string).
Proof.
  induction packages as [|zf packages IH]; intros output workspace; simpl.
  - now rewrite app_nil_r, append_empty.
  - rewrite merge_members_spec by apply incl_refl. simpl.
    rewrite IH. unfold files at 2, fragments at 2.
    now rewrite <- app_assoc, join_fragments_app, append_assoc.
Qed.

(** When the names of an archive are distinct every member is read with
    its own content. *)
Lemma as_read_own (zf : ZipFile) :
  NoDup (names zf) -> map (as_read zf) zf = zf.
Proof.
  intros Hnd.
  assert (H : forall m, In m zf -> as_read zf m = m).
  { intros m Hin. unfold as_read.
    destruct (find _ (rev zf)) as [m'|] eqn:E; [|now destruct m].
    apply find_some in E as [Hin' Heq]. apply in_rev in Hin'.
    apply String.eqb_eq in Heq.
    assert (m' = m); [|subst; now destruct m].
    clear -Hnd Hin Hin' Heq. unfold names in Hnd.
    induction zf as [|x zf IH]; [contradiction|].
    simpl in Hnd. inversion Hnd as [|? ? Hx Hnd']; subst.
    destruct Hin as [->|Hin], Hin' as [->|Hin']; auto.
    - exfalso. apply Hx. rewrite <- Heq.
      now apply (in_map (fun m => filename (info m))).
    - exfalso. apply Hx. rewrite Heq.
      now apply (in_map (fun m => filename (info m))). }
  transitivity (map (fun m : member => m) zf);
    [now apply map_ext_in|apply map_id].
Qed.

Lemma names_files (zf : ZipFile) (name : string) :
  name <> "WORKSPACE" -> (In name (names (files zf)) <-> In name (names zf)).
Proof.
  intros Hne. unfold names, files. split; intros H.
  - apply in_map_iff in H as (m & <- & Hm).
    apply filter_In in Hm as [Hm _].
    apply in_map_iff in Hm as (m0 & <- & Hm0).
    now apply (in_map (fun m => filename (info m))) in Hm0.
  - apply in_map_iff in H as (m & <- & Hm).
    apply in_map_iff. exists (as_read zf m). split; [reflexivity|].
    apply filter_In. split; [now apply in_map|].
    unfold is_workspace. simpl. apply negb_true_iff.
    now apply String.eqb_neq.
Qed.

Definition file (name content : string) : member :=
  {| info := {| filename := name; date_time := [1980; 0; 0; 0; 0; 0]%Z;
                external_attr := Z.shiftl 292 16 |};
     data := content |}.

(** Two package archives of one rule each. *)
Definition package1 : ZipFile :=
  [file "p/BUILD" "filegroup(name = 'x')"; file "WORKSPACE" "bind(name = 'p/x')"].
Definition package2 : ZipFile :=
  [file "q/BUILD" "filegroup(name = 'y')"; file "WORKSPACE" "bind(name = 'q/y')"].

(** C9, as the code has it.  [merge_package] writes the non-WORKSPACE
    members of the inputs, in listed order, and then one WORKSPACE member
    whose content is the inputs' WORKSPACE fragments in listed order, each
    followed by a line break.  The set of non-WORKSPACE names of the output
    is the union of those of the inputs; archives with distinct names
    contribute their members unchanged; two archives of one fragment each
    give [fragment1 LF fragment2 LF]. *)
Theorem merge_package_spec (packages : list ZipFile) :
  merge_package packages =
    Return (flat_map files packages ++
            [{| info := workspace_info;
                data := join_fragments (flat_map fragments packages) |}]) /\
  (forall name, name <> "WORKSPACE" ->
     (In name (names (flat_map files packages)) <->
      exists zf, In zf packages /\ In name (names zf))) /\
  (Forall (fun zf => NoDup (names zf)) packages ->
   flat_map files packages =
     filter (fun m => negb (is_workspace m)) (concat packages) /\
   flat_map fragments packages =
     map data (filter is_workspace (concat packages))) /\
  (forall zf1 zf2 f1 f2,
     packages = [zf1; zf2] -> fragments zf1 = [f1] -> fragments zf2 = [f2] ->
     merge_package packages =
       Return (files zf1 ++ files zf2 ++
               [{| info := workspace_info;
                   data := (f1 ++ String newline "" ++
                            f2 ++ String newline "")%string |}])).
Proof.
  assert (E : merge_package packages =
    Return (flat_map files packages ++
            [{| info := workspace_info;
                data := join_fragments (flat_map fragments packages) |}])).
  { unfold merge_package. now rewrite merge_packages_spec. }
  split; [exact E|split; [|split]].
  - intros name Hne. split.
    + intros H. apply in_map_iff in H as (m & <- & Hm).
      apply in_flat_map in Hm as (zf & Hzf & Hm). exists zf.
      split; [assumption|]. apply (names_files zf _ Hne).
      now apply (in_map (fun m => filename (info m))).
    + intros (zf & Hzf & Hin). apply (names_files zf _ Hne) in Hin.
      apply in_map_iff in Hin as (m & <- & Hm).
      apply (in_map (fun m => filename (info m))).
      apply in_flat_map. now exists zf.
  - clear E. intros Hnd.
    induction Hnd as [|zf l Hzf Hl IH]; [now split|].
    destruct IH as [IH1 IH2]. split; simpl.
    all: rewrite ?IH1, ?IH2, ?filter_app, ?map_app;
      unfold files, fragments; now rewrite as_read_own.
  - intros zf1 zf2 f1 f2 -> H1 H2. rewrite E. simpl.
    rewrite H1, H2, app_nil_r. simpl. now rewrite <- app_assoc.
Qed.

Lemma merge_package_spec_witness :
  merge_package [package1; package2] =
  Return [file "p/BUILD" "filegroup(name = 'x')";
          file "q/BUILD" "filegroup(name = 'y')";
          {| info := workspace_info;
             data := ("bind(name = 'p/x')" ++ String newline "" ++
                      "bind(name = 'q/y')" ++ String newline "")%string |}].
Proof.
  rewrite (proj2 (proj2 (proj2 (merge_package_spec [package1; package2])))
             package1 package2 "bind(name = 'p/x')" "bind(name = 'q/y')"
             eq_refl eq_refl eq_refl).
  reflexivity.
Defined.

(** C9 as stated fails: the merged WORKSPACE is not the first fragment
    followed by the second, a line break follows each of them. *)
Lemma merge_package_adds_line_breaks :
  fragments package1 = ["bind(name = 'p/x')"] /\
  fragments package2 = ["bind(name = 'q/y')"] /\
  exists out workspace,
    merge_package [package1; package2] =
      Return (out ++ [{| info := workspace_info; data := workspace |}]) /\
    workspace <> ("bind(name = 'p/x')" ++ "bind(name = 'q/y')")%string.
Proof.
  split; [reflexivity|split; [reflexivity|]].
  eexists [_; _], _. split; [reflexivity|discriminate].
Qed.

End PackgenProps.

(* ================================================================== *)
(** ** Properties of [bind] *)

Module BindProps.
Import Buildgen DictProps.

(** The record [bind] stores and the label it returns.  The attributes
    of the record are listed as its dictionary holds them, [actual] before
    [name]. *)
Definition binding_record (h : helper) (package' name : string) : value :=
  Call "bind" None
    [("actual", Str (package' ++ ":" ++ name)%string);
     ("name", Str (package h ++ "/" ++ name)%string)].

Definition external_label (h : helper) (name : string) : string :=
  ("//external:" ++ package h ++ "/" ++ name)%string.

(** A sequence of calls [bind(package, name)] on one helper; the strings
    returned, in order. *)
Fixpoint bind_all (self : nat) (calls : list (string * string))
  : SM (list string) :=
  match calls with
  | [] => sret []
  | (package', name) :: rest =>
      label <:- bind self package' name ;;
      labels <:- bind_all self rest ;;
      sret (label :: labels)
  end.

(** The package of the first call that names [name]. *)
Definition first_call (calls : list (string * string)) (name : string)
  : option string :=
  option_map fst (find (fun c => String.eqb (snd c) name) calls).

Definition keys {V} (d : dict V) : list string := map fst d.

Lemma nth_error_set_nth {A} (n : nat) (a x : A) (l : list A) :
  nth_error l n = Some x -> nth_error (set_nth n a l) n = Some a.
Proof.
  revert n. induction l as [|y l IH]; intros [|n] H; simpl in *;
    try discriminate; [reflexivity|now apply IH].
Qed.

Lemma dict_mem_set {V} (k k' : string) (v : V) (d : dict V) :
  dict_mem k (dict_set k' v d) = String.eqb k k' || dict_mem k d.
Proof.
  unfold dict_mem. destruct (String.eqb k k') eqn:E.
  - apply String.eqb_eq in E. subst. now rewrite dict_get_set_same.
  - apply String.eqb_neq in E. now rewrite dict_get_set_other.
Qed.

Lemma dict_get_none_keys {V} (k : string) (d : dict V) :
  dict_get k d = None -> ~ In k (keys d).
Proof.
  induction d as [|[k' v] d IH]; simpl; [tauto|].
  destruct (String.eqb k' k) eqn:E; [discriminate|].
  apply String.eqb_neq in E. intros H [Hk|Hk]; [congruence|now apply IH].
Qed.

Lemma keys_set_new {V} (k : string) (v : V) (d : dict V) :
  dict_get k d = None -> keys (dict_set k v d) = keys d ++ [k].
Proof.
  induction d as [|[k' v'] d IH]; simpl; [reflexivity|].
  destruct (String.eqb k' k); [discriminate|].
  intros H. simpl. now rewrite IH.
Qed.

(** The node built by [BuildSerializable("bind", name=..., actual=...)]. *)
Lemma bind_node (name actual : value) :
  BuildSerializable "bind" None
    (keyword_arguments [("name", name); ("actual", actual)]) =
  Return (Call "bind" None [("actual", actual); ("name", name)]).
Proof. reflexivity. Qed.

(** One call: the label is returned in either case; a record is stored
    only when the name has none yet. *)
Lemma bind_once (st : store) (self : nat) (h : helper)
  (package' name : string) :
  nth_error st self = Some h ->
  bind self package' name st =
    (Return (external_label h name),
     if dict_mem name (bindings h) then st
     else set_nth self
            (set_bindings h
               (dict_set name (binding_record h package' name) (bindings h)))
            st).
Proof.
  intros H. unfold bind. unfold sbind at 1. unfold get_helper.
  rewrite H. cbv beta iota.
  destruct (dict_mem name (bindings h)); cbn [negb]; [reflexivity|].
  rewrite bind_node. reflexivity.
Qed.

(** What a sequence of calls leaves in the helper [h]. *)
Definition bound (h : helper) (calls : list (string * string)) (h' : helper)
  : Prop :=
  h' = set_bindings h (bindings h') /\
  (NoDup (keys (bindings h)) -> NoDup (keys (bindings h'))) /\
  (forall name, dict_mem name (bindings h') =
                dict_mem name (bindings h) ||
                existsb (String.eqb name) (map snd calls)) /\
  (forall name v, dict_get name (bindings h) = Some v ->
                  dict_get name (bindings h') = Some v) /\
  (forall name package', dict_get name (bindings h) = None ->
     first_call calls name = Some package' ->
     dict_get name (bindings h') =
       Some (binding_record h package' name)).

Lemma bind_all_bound (self : nat) (calls : list (string * string)) :
  forall st h,
    nth_error st self = Some h ->
    exists st' h',
      bind_all self calls st =
        (Return (map (fun c => external_label h (snd c)) calls), st') /\
      nth_error st' self = Some h' /\
      length st' = length st /\
      bound h calls h'.
Proof.
  induction calls as [|[package' name] calls IH]; intros st h Hh.
  - exists st, h. simpl. repeat split; auto.
    + now destruct h.
    + intros name. now rewrite orb_false_r.
    + discriminate.
  - simpl. unfold sbind at 1. rewrite (bind_once st self h package' name Hh).
    set (h1 := if dict_mem name (bindings h) then h
               else set_bindings h
                      (dict_set name (binding_record h package' name)
                         (bindings h))).
    set (st1 := if dict_mem name (bindings h) then st
                else set_nth self
                       (set_bindings h
                          (dict_set name (binding_record h package' name)
                             (bindings h))) st).
    assert (Hh1 : nth_error st1 self = Some h1).
    { unfold st1, h1. destruct (dict_mem name (bindings h)); [exact Hh|].
      now apply nth_error_set_nth with (x := h). }
    assert (Hlen : length st1 = length st).
    { unfold st1. destruct (dict_mem name (bindings h)); [reflexivity|].
      clear. revert self. induction st as [|y st IHst]; intros [|n]; simpl;
        auto. }
    assert (Hpkg : package h1 = package h)
      by (unfold h1; now destruct (dict_mem name (bindings h))).
    destruct (IH st1 h1 Hh1) as (st' & h' & Hrun & Hh' & Hlen' & Hb).
    exists st', h'. cbv beta iota. unfold sbind.
    match goal with
    | |- context [bind_all self calls ?s] => change s with st1
    end.
    rewrite Hrun. simpl.
    split; [|split; [exact Hh'|split; [congruence|]]].
    { unfold external_label. now rewrite Hpkg. }
    destruct Hb as (Hset & Hnd & Hmem & Hold & Hnew).
    assert (Hget1 : forall n, dict_get n (bindings h1) =
              if dict_mem name (bindings h) then dict_get n (bindings h)
              else if String.eqb n name
                   then Some (binding_record h package' name)
                   else dict_get n (bindings h)).
    { intros n. unfold h1. destruct (dict_mem name (bindings h));
        [reflexivity|]. simpl.
      destruct (String.eqb n name) eqn:E.
      - apply String.eqb_eq in E. subst. apply dict_get_set_same.
      - apply String.eqb_neq in E. now apply dict_get_set_other. }
    repeat split.
    + rewrite Hset. unfold h1.
      destruct (dict_mem name (bindings h)); now destruct h.
    + intros Hn. apply Hnd. unfold h1.
      destruct (dict_mem name (bindings h)) eqn:Em; [exact Hn|]. simpl.
      unfold dict_mem in Em.
      destruct (dict_get name (bindings h)) eqn:Eg; [discriminate|].
      rewrite keys_set_new by assumption.
      apply NoDup_app; [exact Hn|repeat constructor; tauto|].
      intros x Hx [<-|[]]. now apply dict_get_none_keys in Eg.
    + intros n. rewrite Hmem. simpl. unfold dict_mem at 1. rewrite Hget1.
      destruct (dict_mem name (bindings h)) eqn:Em.
      * fold (dict_mem n (bindings h)).
        destruct (String.eqb n name) eqn:E; [|reflexivity].
        apply String.eqb_eq in E. subst. now rewrite Em.
      * destruct (String.eqb n name) eqn:E; [now rewrite orb_true_r|].
        reflexivity.
    + intros n v Hv. apply Hold. rewrite Hget1.
      destruct (dict_mem name (bindings h)) eqn:Em; [exact Hv|].
      destruct (String.eqb n name) eqn:E; [|exact Hv].
      apply String.eqb_eq in E. subst. unfold dict_mem in Em.
      now rewrite Hv in Em.
    + intros n p Hn Hfirst. unfold first_call in Hfirst. simpl in Hfirst.
      destruct (String.eqb name n) eqn:E.
      * apply String.eqb_eq in E. subst n. injection Hfirst as <-.
        apply Hold. rewrite Hget1. unfold dict_mem. rewrite Hn.
        now rewrite String.eqb_refl.
      * rewrite (Hnew n p).
        -- unfold binding_record. now rewrite Hpkg.
        -- rewrite Hget1. rewrite String.eqb_sym in E. rewrite E.
           now destruct (dict_mem name (bindings h)).
        -- exact Hfirst.
Qed.

Lemma append_cancel_l (a b c : string) :
  (a ++ b)%string = (a ++ c)%string -> b = c.
Proof.
  induction a as [|x a IH]; simpl; [auto|]. intros [= H]. now apply IH.
Qed.

Lemma binding_record_name (h : helper) (p p' n n' : string) :
  binding_record h p n = binding_record h p' n' -> n = n'.
Proof.
  unfold binding_record. intros [= _ H].
  apply append_cancel_l in H. now injection H.
Qed.

(** C1, as the code has it.  On any helper, a sequence of calls
    [bind(package, name)] creates at most one binding record per [name]:
    the first call for a name stores one [bind] node, whose [name] is the
    helper's own package, a slash and the name, and whose [actual] is the
    package given in that call, a colon and the name; every later call with
    the same name, whatever its package, stores nothing; records already
    there are kept; different names have different records; every call
    returns [//external:], the helper's own package, a slash and the
    name. *)
Theorem bind_once_per_name (st : store) (self : nat) (h : helper)
  (calls : list (string * string)) :
  nth_error st self = Some h ->
  NoDup (keys (bindings h)) ->
  exists st' h',
    bind_all self calls st =
      (Return (map (fun c => external_label h (snd c)) calls), st') /\
    nth_error st' self = Some h' /\
    h' = set_bindings h (bindings h') /\
    NoDup (keys (bindings h')) /\
    (forall name, dict_mem name (bindings h') =
                  dict_mem name (bindings h) ||
                  existsb (String.eqb name) (map snd calls)) /\
    (forall name v, dict_get name (bindings h) = Some v ->
                    dict_get name (bindings h') = Some v) /\
    (forall name package', dict_get name (bindings h) = None ->
       first_call calls name = Some package' ->
       dict_get name (bindings h') =
         Some (binding_record h package' name)) /\
    (forall p p' n n',
       binding_record h p n = binding_record h p' n' -> n = n').
Proof.
  intros Hh Hnd.
  destruct (bind_all_bound self calls st h Hh)
    as (st' & h' & Hrun & Hh' & _ & Hset & Hnd' & Hmem & Hold & Hnew).
  exists st', h'. repeat split; auto.
  intros p p' n n'. apply binding_record_name.
Qed.

Lemma bind_once_per_name_witness :
  fst (bind_all 0 [("@p-r", "x"); ("@p-r", "y"); ("@p-r", "x")]
         [new_helper "p" None]) =
  Return ["//external:p/x"; "//external:p/y"; "//external:p/x"].
Proof.
  destruct (bind_once_per_name [new_helper "p" None] 0 (new_helper "p" None)
              [("@p-r", "x"); ("@p-r", "y"); ("@p-r", "x")] eq_refl)
    as (st' & h' & Hrun & _).
  - constructor.
  - rewrite Hrun. reflexivity.
Defined.

(** C1 as stated fails: the table of bindings is keyed by the name alone.
    After [bind("a", "x")] and [bind("b", "x")] on the helper of package [p]
    there is one record, the one of the first call, and both calls return
    [//external:p/x]. *)
Lemma bind_keyed_by_name_only :
  bind_all 0 [("a", "x"); ("b", "x")] [new_helper "p" None] =
  (Return ["//external:p/x"; "//external:p/x"],
   [set_bindings (new_helper "p" None)
      [("x", Call "bind" None
               [("actual", Str "a:x"); ("name", Str "p/x")])]]).
Proof. reflexivity. Qed.

End BindProps.

(* ================================================================== *)
(** ** Properties of the serialiser *)

Module SerializeProps.
Import Buildgen DictProps.








Lemma dict_get_map {A B} (f : A -> B) (k : string) (d : dict A) :
  dict_get k (map (fun kv => (fst kv, f (snd kv))) d) =
  option_map f (dict_get k d).
Proof.
  induction d as [|[k' v] d IH]; simpl; [reflexivity|].
  destruct (String.eqb k' k); [reflexivity|exact IH].
Qed.

(** Changing the values of a dictionary leaves its table order alone. *)
Lemma iteritems_map {A B} (f : A -> B) (d : dict A) :
  iteritems (map (fun kv => (fst kv, f (snd kv))) d) =
  map (fun kv => (fst kv, f (snd kv))) (iteritems d).
Proof.
  unfold iteritems. rewrite map_map. simpl.
  induction (slot_order (map (fun x => fst x) d)) as [|k keys IH];
    [reflexivity|].
  simpl. rewrite map_app, <- IH, dict_get_map.
  now destruct (dict_get k d).
Qed.





Lemma iteritems_in {V} (kv : string * V) (d : dict V) :
  In kv (iteritems d) -> In kv d.
Proof. destruct kv as [k v]. intros H. apply dict_get_in. now apply iteritems_get. Qed.






End SerializeProps.

(* ================================================================== *)
(** ** Further properties of [version_compare] *)

Module VersionCompareExtra.
Import Autodetect VersionCompareProps.

(** [sep.join(l)] for a one-character separator. *)
Fixpoint join_with (sep : ascii) (l : list string) : string :=
  match l with
  | [] => EmptyString
  | [x] => x
  | x :: r => (x ++ String sep (join_with sep r))%string
  end.

Lemma split_not_nil (sep : ascii) (s : string) : split sep s <> [].
Proof.
  destruct s as [|c r]; simpl; [discriminate|].
  destruct (Ascii.eqb c sep); [discriminate|].
  destruct (split sep r); discriminate.
Qed.

(** Splitting loses nothing: joining the pieces gives the string back. *)
Lemma join_split (sep : ascii) (s : string) :
  join_with sep (split sep s) = s.
Proof.
  induction s as [|c r IH]; [reflexivity|].
  simpl split. destruct (Ascii.eqb c sep) eqn:E.
  - apply Ascii.eqb_eq in E. subst c.
    destruct (split sep r) as [|h t] eqn:Hs;
      [now apply split_not_nil in Hs|].
    rewrite <- IH. reflexivity.
  - destruct (split sep r) as [|h t] eqn:Hs;
      [now apply split_not_nil in Hs|].
    rewrite <- IH. destruct t; reflexivity.
Qed.

Lemma str_gt_lt_swap (a b : string) : str_gt b a = str_lt a b.
Proof.
  unfold str_gt, str_lt. rewrite (String.compare_antisym b a).
  destruct (String.compare a b); reflexivity.
Qed.

Lemma str_lt_gt_swap (a b : string) : str_lt b a = str_gt a b.
Proof.
  unfold str_gt, str_lt. rewrite (String.compare_antisym b a).
  destruct (String.compare a b); reflexivity.
Qed.

Lemma str_gt_lt_exclusive (a b : string) :
  str_gt a b = true -> str_lt a b = false.
Proof. unfold str_gt, str_lt. destruct (String.compare a b); congruence. Qed.

Lemma loop_swap (v1 v2 : list string) (range : list nat) :
  version_compare_loop v2 v1 range =
  option_map Z.opp (version_compare_loop v1 v2 range).
Proof.
  induction range as [|i range IH]; [reflexivity|].
  simpl. rewrite (str_gt_lt_swap (nth i v1 "") (nth i v2 "")).
  rewrite (str_lt_gt_swap (nth i v1 "") (nth i v2 "")).
  destruct (str_gt (nth i v1 "") (nth i v2 "")) eqn:Hg.
  - now rewrite (str_gt_lt_exclusive _ _ Hg).
  - destruct (str_lt (nth i v1 "") (nth i v2 "")); [reflexivity|exact IH].
Qed.

Lemma loop_values (v1 v2 : list string) (range : list nat) (r : Z) :
  version_compare_loop v1 v2 range = Some r -> r = 1%Z \/ r = (-1)%Z.
Proof.
  induction range as [|i range IH]; simpl; [discriminate|].
  destruct (str_gt _ _); [intros [= <-]; now left|].
  destruct (str_lt _ _); [intros [= <-]; now right|exact IH].
Qed.

(** When the loop ends without a verdict every compared pair is equal. *)
Lemma loop_none_equal (v1 v2 : list string) (range : list nat) :
  version_compare_loop v1 v2 range = None ->
  forall i, In i range -> nth i v1 "" = nth i v2 "".
Proof.
  induction range as [|j range IH]; simpl; [contradiction|].
  destruct (str_gt (nth j v1 "") (nth j v2 "")) eqn:Hg; [discriminate|].
  destruct (str_lt (nth j v1 "") (nth j v2 "")) eqn:Hl; [discriminate|].
  intros H i [<-|Hi]; [now apply str_cmp_eq|now apply IH].
Qed.

(** Swapping the two versions negates the result, which is always -1, 0
    or 1. *)
Theorem version_compare_antisymmetric (a b : string) :
  version_compare b a = (- version_compare a b)%Z /\
  (version_compare a b = (-1)%Z \/ version_compare a b = 0%Z \/
   version_compare a b = 1%Z).
Proof.
  unfold version_compare.
  rewrite (Nat.min_comm (length (split "." b))), loop_swap.
  destruct (version_compare_loop (split "." a) (split "." b) _) as [r|] eqn:E.
  - simpl. split; [reflexivity|].
    apply loop_values in E as [-> | ->]; auto.
  - simpl.
    destruct (Nat.ltb_spec (length (split "." a)) (length (split "." b)));
      destruct (Nat.ltb_spec (length (split "." b)) (length (split "." a)));
      try lia; auto.
Qed.

(** Two versions compare equal exactly when they are the same string. *)
Theorem version_compare_zero_iff (a b : string) :
  version_compare a b = 0%Z <-> a = b.
Proof.
  split.
  - unfold version_compare.
    destruct (version_compare_loop (split "." a) (split "." b) _) as [r|] eqn:E.
    + intros ->. apply loop_values in E as [E|E]; discriminate.
    + destruct (Nat.ltb_spec (length (split "." a)) (length (split "." b)));
        [discriminate|].
      destruct (Nat.ltb_spec (length (split "." b)) (length (split "." a)));
        [discriminate|].
      intros _. assert (Hlen : length (split "." a) = length (split "." b))
        by lia.
      assert (Hs : split "." a = split "." b).
      { apply (nth_ext _ _ "" "" Hlen). intros n Hn.
        apply (loop_none_equal _ _ _ E). apply in_seq. lia. }
      rewrite <- (join_split "." a), <- (join_split "." b). now rewrite Hs.
  - intros <-. unfold version_compare.
    rewrite loop_all_equal by reflexivity.
    now rewrite Nat.ltb_irrefl.
Qed.

End VersionCompareExtra.

(* ================================================================== *)
(** ** Properties of [which], [brew_prefix] and [port_content] *)

Module ProbeProps.
Import Autodetect Fixture.

Lemma find_first {A} (f : A -> bool) (l : list A) (x : A) :
  find f l = Some x ->
  exists before after,
    l = before ++ x :: after /\ f x = true /\
    forall y, In y before -> f y = false.
Proof.
  induction l as [|a l IH]; simpl; [discriminate|].
  destruct (f a) eqn:Ha.
  - intros [= <-]. exists [], l. repeat split; [assumption|contradiction].
  - intros H. destruct (IH H) as (before & after & -> & Hx & Hb).
    exists (a :: before), after. repeat split; [assumption|].
    intros y [<-|Hy]; [assumption|now apply Hb].
Qed.

(** [which] answers with the first directory of PATH, in the order of
    PATH, whose join with the program name exists and is executable by its
    owner; it answers [None] exactly when PATH is unset or no directory
    qualifies. *)
Theorem which_first_executable (w : world) (prog : string) :
  (forall path, which w prog = Some path ->
     exists dirs before dir after,
       environ w "PATH" = Some dirs /\
       split ":" dirs = before ++ dir :: after /\
       path = os_path_join dir prog /\
       is_executable w path = true /\
       forall d, In d before -> is_executable w (os_path_join d prog) = false) /\
  (which w prog = None <->
   environ w "PATH" = None \/
   exists dirs, environ w "PATH" = Some dirs /\
     forall d, In d (split ":" dirs) ->
               is_executable w (os_path_join d prog) = false).
Proof.
  unfold which. split.
  - intros path H. destruct (environ w "PATH") as [dirs|]; [|discriminate].
    apply find_first in H as (before & after & Hl & Hx & Hb).
    apply map_eq_app in Hl as (l1 & l2 & Hs & <- & Hl2).
    destruct l2 as [|dir l2]; [discriminate|]. simpl in Hl2.
    injection Hl2 as <- <-.
    exists dirs, l1, dir, l2. repeat split; try assumption.
    intros d Hd. apply Hb.
    now apply (in_map (fun s => os_path_join s prog)).
  - destruct (environ w "PATH") as [dirs|]; [|split; auto]. split.
    + intros H. right. exists dirs. split; [reflexivity|].
      intros d Hd. apply (find_none _ _ H).
      now apply (in_map (fun s => os_path_join s prog)).
    + intros [H|(dirs' & [= <-] & H)]; [discriminate|].
      destruct (find _ _) as [x|] eqn:E; [|reflexivity].
      apply find_some in E as [Hin Hx].
      apply in_map_iff in Hin as (d & <- & Hd). now rewrite (H d Hd) in Hx.
Qed.

Lemma which_first_executable_witness :
  exists dirs before dir after,
    environ test_world "PATH" = Some dirs /\
    split ":" dirs = before ++ dir :: after /\
    "/tmp/fixture/pkg-config" = os_path_join dir "pkg-config" /\
    is_executable test_world "/tmp/fixture/pkg-config" = true /\
    forall d, In d before ->
      is_executable test_world (os_path_join d "pkg-config") = false.
Proof.
  apply (proj1 (which_first_executable test_world "pkg-config")).
  reflexivity.
Defined.


End ProbeProps.

(* ================================================================== *)
(** ** The shape of what [pkg_config] and [read_pc_as_pkg_config] return *)

Module FlagSetProps.
Import Autodetect Fixture.

Lemma mbind_return {A B} (m : M A) (k : A -> M B) (t t' : trace) (b : B) :
  mbind m k t = (Return b, t') ->
  exists a t1, m t = (Return a, t1) /\ k a t1 = (Return b, t').
Proof.
  unfold mbind. destruct (m t) as [[a|e|] t1]; try discriminate.
  intros H. now exists a, t1.
Qed.

Lemma res_bind_return {A B} (m : res A) (k : A -> res B) (b : B) :
  Py.bind m k = Return b -> exists a, m = Return a /\ k a = Return b.
Proof. destruct m; simpl; intros H; try discriminate. now exists a. Qed.

(** A value reported by [pkg-config --variable] is kept stripped. *)
Definition stripped_string (v : pyval) : Prop :=
  exists s, v = VStr s /\ strip s = s.

Lemma lstrip_first (s : string) :
  lstrip s = EmptyString \/
  exists c r, lstrip s = String c r /\ isspace c = false.
Proof.
  induction s as [|c r IH]; simpl; [now left|].
  destruct (isspace c) eqn:Hc; [exact IH|].
  right. now exists c, r.
Qed.

Lemma rstrip_twice (s : string) : rstrip (rstrip s) = rstrip s.
Proof.
  induction s as [|c r IH]; simpl; [reflexivity|].
  destruct (rstrip r) as [|a b] eqn:Hr.
  - destruct (isspace c) eqn:Hc; simpl; [reflexivity|now rewrite Hc].
  - change (rstrip (String c (String a b)))
      with (match rstrip (String a b) with
            | EmptyString =>
                if isspace c then EmptyString else String c EmptyString
            | String x y => String c (String x y)
            end).
    now rewrite IH.
Qed.

Lemma strip_twice (s : string) : strip (strip s) = strip s.
Proof.
  unfold strip.
  destruct (lstrip_first s) as [->|(c & r & -> & Hc)]; [reflexivity|].
  assert (Hh : exists r', rstrip (String c r) = String c r').
  { simpl. destruct (rstrip r); [rewrite Hc|]; eexists; reflexivity. }
  destruct Hh as [r' Hr]. rewrite Hr. simpl lstrip. rewrite Hc, <- Hr.
  apply rstrip_twice.
Qed.

Lemma dict_set_Forall {V} (P : string * V -> Prop) (k : string) (v : V)
  (d : dict V) :
  Forall P d -> P (k, v) -> Forall P (dict_set k v d).
Proof.
  induction 1 as [|[k' v'] d Hx Hd IH]; intros Hkv; simpl.
  - now repeat constructor.
  - destruct (String.eqb k' k); constructor; auto.
Qed.

Lemma pkg_config_variables_stripped (w : world) (p name : string)
  (vars : list string) :
  forall acc t r t',
    Forall (fun kv => stripped_string (snd kv)) acc ->
    pkg_config_variables w p name vars acc t = (Return r, t') ->
    Forall (fun kv => stripped_string (snd kv)) r.
Proof.
  induction vars as [|v vars IH]; intros acc t r t' Hacc H; simpl in H.
  - now injection H as <- <-.
  - apply mbind_return in H as (out & t1 & _ & H).
    apply IH in H; [exact H|].
    apply dict_set_Forall; [exact Hacc|].
    exists (strip out). split; [reflexivity|apply strip_twice].
Qed.

Lemma pkg_config_result_shape (w : world) (p name : string) (t t' : trace)
  (r : dict pyval) :
  pkg_config_result w p name t = (Return r, t') ->
  exists l1 l2 l3 l4 l5 vars,
    r = [("library_dirs", VList l1); ("libraries", VList l2);
         ("ldflags", VList l3); ("include_dirs", VList l4);
         ("cflags", VList l5); ("variables", VDict vars)] /\
    Forall (fun kv => stripped_string (snd kv)) vars.
Proof.
  unfold pkg_config_result. intros H.
  apply mbind_return in H as (o1 & t1 & _ & H).
  apply mbind_return in H as (o2 & t2 & _ & H).
  apply mbind_return in H as (o3 & t3 & _ & H).
  apply mbind_return in H as (o4 & t4 & _ & H).
  apply mbind_return in H as (o5 & t5 & _ & H).
  apply mbind_return in H as (o6 & t6 & _ & H).
  apply mbind_return in H as (vars & t7 & Hv & H).
  injection H as <- <-.
  apply pkg_config_variables_stripped in Hv; [|constructor].
  do 5 eexists. exists vars. split; [reflexivity|exact Hv].
Qed.

(** Whenever [pkg_config] finds the library, with any version arguments,
    the dictionary it returns has exactly the six documented keys, the five
    flag lists and then [variables], and every variable is a stripped
    string. *)
Theorem pkg_config_flagset_shape (w : world) (name : string)
  (atleast exact max : option string) (t t' : trace) (r : dict pyval) :
  pkg_config w name atleast exact max t = (Return (Some r), t') ->
  exists l1 l2 l3 l4 l5 vars,
    r = [("library_dirs", VList l1); ("libraries", VList l2);
         ("ldflags", VList l3); ("include_dirs", VList l4);
         ("cflags", VList l5); ("variables", VDict vars)] /\
    Forall (fun kv => stripped_string (snd kv)) vars.
Proof.
  unfold pkg_config. destruct (which w "pkg-config") as [p|]; [|discriminate].
  intros H. apply mbind_return in H as (status & t1 & _ & H).
  assert (Hc : forall t0,
    mbind (pkg_config_result w p name) (fun result => ret (Some result)) t0 =
      (Return (Some r), t') ->
    exists l1 l2 l3 l4 l5 vars,
      r = [("library_dirs", VList l1); ("libraries", VList l2);
           ("ldflags", VList l3); ("include_dirs", VList l4);
           ("cflags", VList l5); ("variables", VDict vars)] /\
      Forall (fun kv => stripped_string (snd kv)) vars).
  { intros t0 Hc. apply mbind_return in Hc as (r0 & t2 & Hr & Hc).
    injection Hc as <- <-. now apply pkg_config_result_shape in Hr. }
  destruct (negb (Z.eqb status 0)); [discriminate|].
  destruct atleast as [a|]; [|now apply Hc in H].
  destruct max as [m|]; [|now apply Hc in H].
  apply mbind_return in H as (status' & t2 & _ & H).
  destruct (negb (Z.eqb status' 0)); [discriminate|]. now apply Hc in H.
Qed.

Lemma pkg_config_flagset_shape_witness :
  exists l1 l2 l3 l4 l5 vars,
    pc_result =
      [("library_dirs", VList l1); ("libraries", VList l2);
       ("ldflags", VList l3); ("include_dirs", VList l4);
       ("cflags", VList l5); ("variables", VDict vars)] /\
    Forall (fun kv => stripped_string (snd kv)) vars.
Proof.
  apply (pkg_config_flagset_shape test_world "libarchive" None None None []
           (snd (pkg_config test_world "libarchive" None None None []))).
  vm_compute. reflexivity.
Defined.

End FlagSetProps.

(* ================================================================== *)
(** ** Further properties of [read_pc_as_pkg_config] and [find_library] *)

Module FindLibraryExtra.
Import Autodetect Fixture FlagSetProps.













Lemma pkg_config_found (w : world) (name : string)
  (atleast exact max : option string) (t t' : trace) (r : dict pyval) :
  pkg_config w name atleast exact max t = (Return (Some r), t') ->
  exists p t0, pkg_config_result w p name t0 = (Return r, t').
Proof.
  unfold pkg_config. destruct (which w "pkg-config") as [p|]; [|discriminate].
  intros H. apply mbind_return in H as (status & t1 & _ & H).
  assert (Hc : forall t0,
    mbind (pkg_config_result w p name) (fun result => ret (Some result)) t0 =
      (Return (Some r), t') ->
    exists p t0, pkg_config_result w p name t0 = (Return r, t')).
  { intros t0 Hc. apply mbind_return in Hc as (r0 & t2 & Hr & Hc).
    injection Hc as <- <-. now exists p, t0. }
  destruct (negb (Z.eqb status 0)); [discriminate|].
  destruct atleast as [a|]; [|now apply Hc in H].
  destruct max as [m|]; [|now apply Hc in H].
  apply mbind_return in H as (status' & t2 & _ & H).
  destruct (negb (Z.eqb status' 0)); [discriminate|]. now apply Hc in H.
Qed.

Lemma pkg_config_variables_key (w : world) (name : string)
  (atleast exact max : option string) (t t' : trace) (r : dict pyval) :
  pkg_config w name atleast exact max t = (Return (Some r), t') ->
  exists e r' vars, r = e :: r' /\ dict_get "variables" r = Some (VDict vars).
Proof.
  intros H. apply pkg_config_found in H as (p & t0 & H).
  apply pkg_config_result_shape in H
    as (l1 & l2 & l3 & l4 & l5 & vars & -> & _).
  now do 3 eexists.
Qed.

Lemma read_pc_variables_key (w : world) (fuel : nat) (filename : string)
  (r : dict pyval) :
  read_pc_as_pkg_config w fuel filename = Return (Some r) ->
  exists vars, dict_get "variables" r = Some (VDict vars).
Proof.
  unfold read_pc_as_pkg_config. intros H.
  apply res_bind_return in H as (f & Hf & H).
  destruct f as [[|e f]|]; try discriminate.
  apply res_bind_return in H as (fvars & _ & H).
  apply res_bind_return in H as (vars & _ & H).
  do 10 (apply res_bind_return in H as (? & _ & H)).
  injection H as <-. now exists vars.
Qed.

(** The first tier wins: when pkg-config knows the library, [find_library]
    returns its FlagSet and starts no other command, neither brew nor
    port. *)
Theorem find_library_prefers_pkg_config (w : world) (fuel : nat)
  (name : string) (t t' : trace) (r : dict pyval) :
  pkg_config w name None None None t = (Return (Some r), t') ->
  find_library w fuel name t = (Return (Some r), t').
Proof.
  intros H. unfold find_library, mbind. rewrite H.
  apply pkg_config_variables_key in H as (e & r' & vars & -> & _).
  reflexivity.
Qed.

Lemma find_library_prefers_pkg_config_witness :
  fst (find_library test_world 8 "libarchive" []) = Return (Some pc_result).
Proof.
  rewrite (find_library_prefers_pkg_config test_world 8 "libarchive" []
             (snd (pkg_config test_world "libarchive" None None None []))
             pc_result).
  - reflexivity.
  - vm_compute. reflexivity.
Defined.

(** [find_library] answers not-found exactly when all three probes come
    back empty: pkg-config does not know the library, brew gives no prefix
    (or an empty one) and port lists no file. *)
Theorem find_library_not_found_iff (w : world) (fuel : nat) (name : string)
  (t t' : trace) :
  find_library w fuel name t = (Return None, t') <->
  exists t1 t2 prefix port_files,
    pkg_config w name None None None t = (Return None, t1) /\
    brew_prefix w name t1 = (Return prefix, t2) /\
    (prefix = None \/ prefix = Some EmptyString) /\
    port_content w name t2 = (Return port_files, t') /\
    (port_files = None \/ port_files = Some []).
Proof.
  split.
  - unfold find_library. intros H.
    apply mbind_return in H as (result & t1 & Hpkg & H).
    destruct result as [[|e r]|].
    + now apply pkg_config_variables_key in Hpkg as (? & ? & ? & ? & _).
    + discriminate.
    + apply mbind_return in H as (prefix & t2 & Hbrew & H).
      assert (Hport : forall t0,
        mbind (port_content w name)
          (fun port_files =>
             match port_files with
             | Some (_ :: _ as port_files) =>
                 pc_files <~ lift (py_filter (OList port_files)
                                     (OFun (fun f => endswith f ".pc"))) ;;
                 result <~ match pc_files with
                           | pc_file :: _ =>
                               lift (read_pc_as_pkg_config w fuel pc_file)
                           | [] => ret None
                           end ;;
                 match result with
                 | None => ret (Some (port_default port_files))
                 | Some result =>
                     variables <~ lift (getitem result "variables") ;;
                     match variables with
                     | VDict vars =>
                         ret (Some (dict_set "variables"
                                      (VDict (dict_set "content"
                                                (VList port_files) vars))
                                      result))
                     | _ => raise TypeError
                     end
                 end
             | _ => ret None
             end) t0 = (Return None, t') ->
        exists port_files,
          port_content w name t0 = (Return port_files, t') /\
          (port_files = None \/ port_files = Some [])).
      { intros t0 Hp. apply mbind_return in Hp as (pf & t3 & Hpc & Hp).
        destruct pf as [[|x pf]|].
        - injection Hp as <-. exists (Some []). auto.
        - discriminate.
        - injection Hp as <-. exists None. auto. }
      destruct prefix as [[|c p]|].
      * apply Hport in H as (pf & Hpf & Hfalsy).
        exists t1, t2, (Some EmptyString), pf. auto 6.
      * apply mbind_return in H as (result & t3 & _ & H).
        destruct result; discriminate.
      * apply Hport in H as (pf & Hpf & Hfalsy).
        exists t1, t2, None, pf. auto 6.
  - intros (t1 & t2 & prefix & pf & Hpkg & Hbrew & Hprefix & Hport & Hpf).
    unfold find_library, mbind. rewrite Hpkg, Hbrew.
    destruct Hprefix as [-> | ->]; rewrite Hport;
      destruct Hpf as [-> | ->]; reflexivity.
Qed.

Lemma find_library_not_found_iff_witness :
  find_library nolibs_world 8 "libfoo" [] = (Return None, []).
Proof.
  apply (proj2 (find_library_not_found_iff nolibs_world 8 "libfoo" [] [])).
  exists [], [], None, None. repeat split; auto.
Defined.

(** Whatever [find_library] returns as found holds the [variables]
    mapping, so a found result is never an empty dictionary. *)
Theorem find_library_found_has_variables (w : world) (fuel : nat)
  (name : string) (t t' : trace) (r : dict pyval) :
  find_library w fuel name t = (Return (Some r), t') ->
  exists vars, dict_get "variables" r = Some (VDict vars).
Proof.
  unfold find_library. intros H.
  apply mbind_return in H as (result & t1 & Hpkg & H).
  destruct result as [[|e r0]|].
  - now apply pkg_config_variables_key in Hpkg as (? & ? & ? & ? & _).
  - injection H as <- <-.
    now apply pkg_config_variables_key in Hpkg as (? & ? & vars & _ & ?);
      exists vars.
  - apply mbind_return in H as (prefix & t2 & Hbrew & H).
    assert (Hport : forall t0 (k : M (option (dict pyval))),
      k = ret None ->
      mbind (port_content w name)
        (fun port_files =>
           match port_files with
           | Some (_ :: _ as port_files) =>
               pc_files <~ lift (py_filter (OList port_files)
                                   (OFun (fun f => endswith f ".pc"))) ;;
               result <~ match pc_files with
                         | pc_file :: _ =>
                             lift (read_pc_as_pkg_config w fuel pc_file)
                         | [] => ret None
                         end ;;
               match result with
               | None => ret (Some (port_default port_files))
               | Some result =>
                   variables <~ lift (getitem result "variables") ;;
                   match variables with
                   | VDict vars =>
                       ret (Some (dict_set "variables"
                                    (VDict (dict_set "content"
                                              (VList port_files) vars))
                                    result))
                   | _ => raise TypeError
                   end
               end
           | _ => k
           end) t0 = (Return (Some r), t') -> False).
    { intros t0 k -> Hp. apply mbind_return in Hp as (pf & t3 & _ & Hp).
      destruct pf as [[|x pf]|]; discriminate. }
    destruct prefix as [[|c p]|].
    + exfalso. eapply Hport; [reflexivity|exact H].
    + apply mbind_return in H as (result & t3 & Hread & H).
      destruct result as [r1|].
      * injection H as <- <-. unfold lift in Hread.
        injection Hread as Hread _. now apply read_pc_variables_key in Hread.
      * injection H as <- <-. now eexists.
    + exfalso. eapply Hport; [reflexivity|exact H].
Qed.

Lemma find_library_found_has_variables_witness :
  exists vars,
    dict_get "variables" (brew_default "/usr/local/opt/libfoo") =
      Some (VDict vars).
Proof.
  apply (find_library_found_has_variables brew_world 8 "libfoo" []
           (snd (find_library brew_world 8 "libfoo" []))).
  vm_compute. reflexivity.
Defined.

End FindLibraryExtra.

(* ================================================================== *)
(** ** Further properties of [sub_variables] and of the line pattern *)

Module SubVariablesExtra.
Import Autodetect.

(** Every character of a string is in a class. *)
Fixpoint all_chars (p : ascii -> bool) (s : string) : bool :=
  match s with
  | EmptyString => true
  | String c r => p c && all_chars p r
  end.

Lemma span_all (p : ascii -> bool) (a : string) (c : ascii) (rest : string) :
  all_chars p a = true -> p c = false ->
  span p (a ++ String c rest) = (a, String c rest).
Proof.
  intros Ha Hc. induction a as [|x a IH]; simpl.
  - now rewrite Hc.
  - simpl in Ha. apply andb_true_iff in Ha as [Hx Ha].
    now rewrite Hx, (IH Ha).
Qed.

Lemma span_all_end (p : ascii -> bool) (a : string) :
  all_chars p a = true -> span p a = (a, EmptyString).
Proof.
  intros Ha. induction a as [|x a IH]; simpl; [reflexivity|].
  simpl in Ha. apply andb_true_iff in Ha as [Hx Ha].
  now rewrite Hx, (IH Ha).
Qed.

Lemma span_split (p : ascii -> bool) (s a b : string) :
  span p s = (a, b) ->
  s = (a ++ b)%string /\ all_chars p a = true /\
  match b with String c _ => p c = false | EmptyString => True end.
Proof.
  revert a b. induction s as [|c s IH]; simpl; intros a b H.
  - now injection H as <- <-.
  - destruct (p c) eqn:Hc.
    + destruct (span p s) as [a' b'] eqn:E. injection H as <- <-.
      destruct (IH a' b' eq_refl) as (-> & Ha & Hb).
      simpl. now rewrite Hc, Ha.
    + injection H as <- <-. simpl. now rewrite Hc.
Qed.

Lemma name_char_not_brace (c : ascii) :
  is_name_char c = true -> Ascii.eqb c "}" = false.
Proof.
  destruct c as [[|] [|] [|] [|] [|] [|] [|] [|]];
    vm_compute; congruence.
Qed.

Lemma name_char_not_backslash (c : ascii) :
  is_name_char c = true -> Ascii.eqb c "\" = false.
Proof.
  destruct c as [[|] [|] [|] [|] [|] [|] [|] [|]];
    vm_compute; congruence.
Qed.

Lemma name_char_pattern (c : ascii) :
  is_name_char c = true -> pattern_char c c = true.
Proof.
  destruct c as [[|] [|] [|] [|] [|] [|] [|] [|]];
    vm_compute; congruence.
Qed.

Lemma space_not_name (c : ascii) :
  isspace c = true -> is_name_char c = false.
Proof.
  destruct c as [[|] [|] [|] [|] [|] [|] [|] [|]];
    vm_compute; congruence.
Qed.

Lemma match_token_name (var rest : string) :
  all_chars is_name_char var = true ->
  match_token (String "$" (String "{" (var ++ String "}" rest))) = Some var.
Proof.
  intros Hv. cbn [match_token].
  rewrite (span_all is_name_char var "}" rest Hv); reflexivity.
Qed.

Lemma search_token_name (var rest : string) :
  all_chars is_name_char var = true ->
  search_token (String "$" (String "{" (var ++ String "}" rest))) = Some var.
Proof.
  intros Hv. cbn [search_token]. now rewrite match_token_name.
Qed.

Lemma match_pattern_name (var rest : string) :
  all_chars is_name_char var = true ->
  match_pattern var (var ++ rest) = Some rest.
Proof.
  intros Hv. induction var as [|c var IH]; simpl; [reflexivity|].
  simpl in Hv. apply andb_true_iff in Hv as [Hc Hv].
  now rewrite (name_char_pattern c Hc), (IH Hv).
Qed.

Lemma sub_scan_skip (var : string) (repl : string -> string)
  (p rest : string) :
  sub_scan var repl (String.length p) (p ++ rest) = sub_scan var repl 0 rest.
Proof. induction p as [|c p IH]; simpl; [now destruct rest|exact IH]. Qed.

Lemma length_snoc (a : string) (c : ascii) :
  String.length (a ++ String c "") = S (String.length a).
Proof. induction a as [|x a IH]; simpl; [reflexivity|now rewrite IH]. Qed.

Lemma sub_scan_token (var : string) (repl : string -> string)
  (rest : string) :
  all_chars is_name_char var = true ->
  sub_scan var repl 0 (String "$" (String "{" (var ++ String "}" rest))) =
  (repl (substring 0 (String.length var + 3)
           (String "$" (String "{" (var ++ String "}" rest))))
     ++ sub_scan var repl 0 rest)%string.
Proof.
  intros Hv. cbn [sub_scan].
  assert (Hm : match_reference var
                 (String "$" (String "{" (var ++ String "}" rest))) = true).
  { cbn [match_reference]. now rewrite (match_pattern_name var _ Hv). }
  rewrite Hm. f_equal.
  pose proof (sub_scan_skip var repl (String "{" (var ++ String "}" ""))
                rest) as H.
  cbn [String.length] in H. rewrite length_snoc in H.
  replace (String.length var + 2) with (S (S (String.length var)))
    by (rewrite Nat.add_comm; reflexivity).
  rewrite <- H. cbn [String.append].
  now rewrite PackgenProps.append_assoc.
Qed.

Lemma has_backslash_app (a b : string) :
  has_backslash (a ++ b) = has_backslash a || has_backslash b.
Proof.
  induction a as [|c a IH]; simpl; [reflexivity|].
  now rewrite IH, orb_assoc.
Qed.

Lemma name_no_backslash (var : string) :
  all_chars is_name_char var = true -> has_backslash var = false.
Proof.
  induction var as [|c var IH]; simpl; [reflexivity|].
  intros H. apply andb_true_iff in H as [Hc Hv].
  now rewrite (name_char_not_backslash c Hc), (IH Hv).
Qed.

(** A variable whose value is a reference to itself makes the loop of
    [sub_variables] run for ever: on a value that starts with the token of
    such a variable no amount of fuel gives a result. *)
Theorem sub_variables_self_reference_diverges (w : world) (var : string)
  (variables : dict pyval) :
  all_chars is_name_char var = true ->
  dict_get var variables =
    Some (VStr (String "$" (String "{" (var ++ "}")))) ->
  forall fuel rest,
    sub_variables w fuel (String "$" (String "{" (var ++ String "}" rest)))
      variables = Diverge.
Proof.
  intros Hv Hget. induction fuel as [|fuel IH]; intros rest.
  - cbn [sub_variables]. now rewrite (search_token_name var rest Hv).
  - cbn [sub_variables]. rewrite (search_token_name var rest Hv), Hget.
    cbn [Py.bind]. unfold re_sub.
    assert (Hb : has_backslash (String "$" (String "{" (var ++ "}"))) = false).
    { cbn [has_backslash]. rewrite has_backslash_app.
      now rewrite (name_no_backslash var Hv). }
    rewrite Hb. cbn [Py.bind].
    rewrite (sub_scan_token var _ rest Hv).
    cbn [String.append]. rewrite PackgenProps.append_assoc.
    cbn [String.append]. apply IH.
Qed.

Lemma sub_variables_self_reference_diverges_witness :
  sub_variables Fixture.test_world 1000 "${prefix}/lib"
    [("prefix", VStr "${prefix}")] = Diverge.
Proof.
  apply (sub_variables_self_reference_diverges Fixture.test_world "prefix"
           [("prefix", VStr "${prefix}")] eq_refl eq_refl 1000 "/lib").
Defined.

(** What [sub_variables] returns is a fixed point: it holds no token, and
    expanding it again, with the same or any other variables, gives it back
    unchanged without a turn of the loop. *)
Theorem sub_variables_idempotent (w : world) (variables : dict pyval)
  (fuel : nat) (value r : string) :
  sub_variables w fuel value variables = Return r ->
  search_token r = None /\
  forall w' fuel' variables',
    sub_variables w' fuel' r variables' = Return r.
Proof.
  intros H.
  assert (Hr : search_token r = None).
  { revert value H. induction fuel as [|fuel IH]; intros value H;
      cbn [sub_variables] in H.
    - destruct (search_token value) eqn:Hs; [discriminate|].
      now injection H as <-.
    - destruct (search_token value) eqn:Hs; [|now injection H as <-].
      apply SubVariablesProps.bind_return in H as (val & _ & H).
      apply SubVariablesProps.bind_return in H as (value' & _ & H).
      now apply IH in H. }
  split; [exact Hr|].
  intros w' fuel' variables'. destruct fuel'; cbn [sub_variables];
    now rewrite Hr.
Qed.

Lemma sub_variables_idempotent_witness :
  sub_variables Fixture.test_world 0 "/usr/local/lib" [] =
    Return "/usr/local/lib".
Proof.
  apply (proj2 (sub_variables_idempotent Fixture.test_world
                  [("prefix", VStr "/usr/local");
                   ("exec_prefix", VStr "${prefix}")]
                  2 "${exec_prefix}/lib" "/usr/local/lib" eq_refl)).
Defined.

Lemma lstrip_split (s : string) :
  exists ws, s = (ws ++ lstrip s)%string /\ all_chars isspace ws = true /\
             lstrip (lstrip s) = lstrip s.
Proof.
  induction s as [|c s (ws & Hs & Hws & Hl)].
  - now exists EmptyString.
  - cbn [lstrip]. destruct (isspace c) eqn:Hc.
    + exists (String c ws). cbn [String.append all_chars].
      rewrite <- Hs, Hc, Hws. auto.
    + exists EmptyString. cbn [String.append all_chars lstrip].
      now rewrite Hc.
Qed.

Lemma lstrip_spaces (ws s : string) :
  all_chars isspace ws = true -> lstrip (ws ++ s) = lstrip s.
Proof.
  induction ws as [|c ws IH]; [reflexivity|].
  cbn [all_chars String.append lstrip]. intros H.
  apply andb_true_iff in H as [Hc Hws]. now rewrite Hc, IH.
Qed.

Lemma separator_cases (c : ascii) :
  Ascii.eqb c "=" || Ascii.eqb c ":" = true <-> c = "="%char \/ c = ":"%char.
Proof.
  rewrite orb_true_iff, !Ascii.eqb_eq. reflexivity.
Qed.

(** The line pattern of [pc_read] accepts exactly the lines made of a run
    of name characters (possibly empty), blanks, [=] or [:], blanks and a
    rest that starts with no blank; it reads the run as the name and the
    rest as the value.  A name with any other character, a digit for one,
    before the separator is not accepted. *)
Theorem match_assignment_spec (line key value : string) (sep : ascii) :
  match_assignment line = Some (key, sep, value) <->
  exists ws1 ws2,
    line = (key ++ ws1 ++ String sep (ws2 ++ value))%string /\
    all_chars is_name_char key = true /\
    all_chars isspace ws1 = true /\ all_chars isspace ws2 = true /\
    (sep = "="%char \/ sep = ":"%char) /\
    lstrip value = value.
Proof.
  unfold match_assignment. split.
  - destruct (span is_name_char line) as [k rest] eqn:Hspan.
    apply span_split in Hspan as (-> & Hk & _).
    destruct (lstrip_split rest) as (ws1 & Hrest & Hws1 & _).
    destruct (lstrip rest) as [|c v] eqn:Hl; [discriminate|].
    destruct (Ascii.eqb c "=" || Ascii.eqb c ":") eqn:Hc; [|discriminate].
    intros [= <- <- <-].
    destruct (lstrip_split v) as (ws2 & Hv & Hws2 & Hidem).
    exists ws1, ws2. rewrite <- Hv, <- Hrest.
    repeat split; try assumption. now apply separator_cases.
  - intros (ws1 & ws2 & -> & Hk & Hws1 & Hws2 & Hsep & Hv).
    assert (Hc : is_name_char sep = false) by (destruct Hsep as [-> | ->]; reflexivity).
    assert (Hspan : span is_name_char
                      (key ++ ws1 ++ String sep (ws2 ++ value)) =
                    (key, (ws1 ++ String sep (ws2 ++ value))%string)).
    { destruct ws1 as [|c ws1]; cbn [String.append].
      - now apply span_all.
      - apply span_all; [assumption|]. apply space_not_name.
        cbn [all_chars] in Hws1. now apply andb_true_iff in Hws1 as [? _]. }
    rewrite Hspan, (lstrip_spaces ws1 _ Hws1).
    assert (Hns : isspace sep = false) by (destruct Hsep as [-> | ->]; reflexivity).
    cbn [lstrip]. rewrite Hns.
    apply separator_cases in Hsep. rewrite Hsep.
    now rewrite (lstrip_spaces ws2 _ Hws2), Hv.
Qed.

Lemma match_assignment_spec_witness :
  match_assignment "prefix =  /usr/local" = Some ("prefix", "="%char, "/usr/local") /\
  match_assignment "lib64=/usr/lib64" = None.
Proof.
  split.
  - apply (proj2 (match_assignment_spec "prefix =  /usr/local" "prefix"
                    "/usr/local" "=")).
    exists " ", "  ". repeat split; auto.
  - reflexivity.
Defined.

End SubVariablesExtra.

(* ================================================================== *)
(** ** Further properties of buildgen.py *)

Module BuildgenExtra.
Import Buildgen DictProps.

(** *** [__escape] *)

(** What the four replacements of [__escape] make of one character. *)
Definition escape_char (c : ascii) : string :=
  if Ascii.eqb c "\" then "\\"
  else if Ascii.eqb c newline then "\n"
  else if Ascii.eqb c "034" then String "\" dq
  else if Ascii.eqb c "'" then "\'"
  else String c "".

(** Reading the escapes back. *)
Fixpoint unescape (s : string) : string :=
  match s with
  | EmptyString => EmptyString
  | String c r =>
      if Ascii.eqb c "\" then
        match r with
        | String x r' =>
            String (if Ascii.eqb x "n" then newline else x) (unescape r')
        | EmptyString => String c EmptyString
        end
      else String c (unescape r)
  end.

Lemma concat_map_app (f : ascii -> string) (a b : string) :
  concat_map f (a ++ b) = (concat_map f a ++ concat_map f b)%string.
Proof.
  induction a as [|c a IH]; simpl; [reflexivity|].
  now rewrite IH, PackgenProps.append_assoc.
Qed.

Lemma concat_map_compose (f g : ascii -> string) (s : string) :
  concat_map f (concat_map g s) = concat_map (fun c => concat_map f (g c)) s.
Proof.
  induction s as [|c s IH]; simpl; [reflexivity|].
  now rewrite concat_map_app, IH.
Qed.

Lemma concat_map_ext (f g : ascii -> string) (s : string) :
  (forall c, f c = g c) -> concat_map f s = concat_map g s.
Proof.
  intros H. induction s as [|c s IH]; simpl; [reflexivity|].
  now rewrite H, IH.
Qed.

(** The replacements do not disturb one another: [__escape] works
    character by character. *)
Lemma escape_chars (s : string) : __escape s = concat_map escape_char s.
Proof.
  unfold __escape, replace. rewrite !concat_map_compose.
  apply concat_map_ext. intros c.
  destruct c as [[|] [|] [|] [|] [|] [|] [|] [|]]; reflexivity.
Qed.

Lemma unescape_escape_char (c : ascii) (r : string) :
  unescape (escape_char c ++ r) = String c (unescape r).
Proof.
  destruct c as [[|] [|] [|] [|] [|] [|] [|] [|]]; reflexivity.
Qed.

Lemma unescape_escape (s : string) : unescape (__escape s) = s.
Proof.
  rewrite escape_chars. induction s as [|c s IH]; [reflexivity|].
  cbn [concat_map]. now rewrite unescape_escape_char, IH.
Qed.

Lemma contains_app (c : ascii) (a b : string) :
  contains c (a ++ b) = contains c a || contains c b.
Proof.
  induction a as [|x a IH]; simpl; [reflexivity|].
  now rewrite IH, orb_assoc.
Qed.

Lemma escape_char_no_newline (c : ascii) :
  contains newline (escape_char c) = false.
Proof.
  destruct c as [[|] [|] [|] [|] [|] [|] [|] [|]]; reflexivity.
Qed.

(** [__escape] loses nothing and leaves no line break: two different
    strings never escape to the same text, and the escaped text of any
    string is free of the line-break character. *)
Theorem escape_injective_single_line :
  (forall s, contains newline (__escape s) = false) /\
  (forall a b, __escape a = __escape b -> a = b).
Proof.
  split.
  - intros s. rewrite escape_chars.
    induction s as [|c s IH]; [reflexivity|].
    cbn [concat_map]. now rewrite contains_app, escape_char_no_newline, IH.
  - intros a b H. rewrite <- (unescape_escape a), <- (unescape_escape b).
    now rewrite H.
Qed.

Lemma escape_injective_single_line_witness :
  contains newline (__escape (String "a" (String newline "b"))) = false /\
  "a\nb" = "a\nb".
Proof.
  split.
  - apply (proj1 escape_injective_single_line).
  - apply (proj2 escape_injective_single_line "a\nb" "a\nb"). reflexivity.
Defined.

(** *** Serialisation and the store *)

(** Induction on values that reaches the values held in lists,
    dictionaries and keyword arguments. *)
Fixpoint value_nested_ind (P : value -> Prop)
  (HStr : forall s, P (Str s)) (HInt : forall z, P (Int z))
  (HList : forall l, Forall P l -> P (List l))
  (HDict : forall d, Forall (fun kv => P (snd kv)) d -> P (Dict d))
  (HCall : forall name first kwargs,
      Forall (fun kv => P (snd kv)) kwargs -> P (Call name first kwargs))
  (HLabel : forall package' name parent, P (Label package' name parent))
  (v : value) {struct v} : P v :=
  match v with
  | Str s => HStr s
  | Int z => HInt z
  | List l =>
      HList l
        ((fix go (l : list value) : Forall P l :=
            match l with
            | [] => Forall_nil P
            | x :: r =>
                Forall_cons x
                  (value_nested_ind P HStr HInt HList HDict HCall HLabel x)
                  (go r)
            end) l)
  | Dict d =>
      HDict d
        ((fix go (d : list (string * value))
            : Forall (fun kv => P (snd kv)) d :=
            match d with
            | [] => Forall_nil _
            | kv :: r =>
                Forall_cons kv
                  (value_nested_ind P HStr HInt HList HDict HCall HLabel
                     (snd kv))
                  (go r)
            end) d)
  | Call name first kwargs =>
      HCall name first kwargs
        ((fix go (d : list (string * value))
            : Forall (fun kv => P (snd kv)) d :=
            match d with
            | [] => Forall_nil _
            | kv :: r =>
                Forall_cons kv
                  (value_nested_ind P HStr HInt HList HDict HCall HLabel
                     (snd kv))
                  (go r)
            end) kwargs)
  | Label package' name parent => HLabel package' name parent
  end.

(** A helper that differs from another by its bindings only, and holds
    every binding the other holds. *)
Definition grown (h h' : helper) : Prop :=
  h' = set_bindings h (bindings h') /\
  forall k v, dict_get k (bindings h) = Some v ->
              dict_get k (bindings h') = Some v.

(** The same helpers at the same places, each with its bindings grown. *)
Definition only_bindings_grow (st st' : store) : Prop := Forall2 grown st st'.

(** A method that changes nothing but bindings, and only adds to them. *)
Definition preserves {A} (m : SM A) : Prop :=
  forall st, only_bindings_grow st (snd (m st)).

Lemma grown_refl (h : helper) : grown h h.
Proof. split; [now destruct h|auto]. Qed.

Lemma grown_trans (a b c : helper) : grown a b -> grown b c -> grown a c.
Proof.
  intros [Hab Hab'] [Hbc Hbc']. split; [|auto].
  rewrite Hbc, Hab. reflexivity.
Qed.

Lemma only_bindings_grow_refl (st : store) : only_bindings_grow st st.
Proof. induction st; constructor; [apply grown_refl|assumption]. Qed.

Lemma only_bindings_grow_trans (a b c : store) :
  only_bindings_grow a b -> only_bindings_grow b c -> only_bindings_grow a c.
Proof.
  intros Hab. revert c. induction Hab as [|x y a b Hxy Hab IH]; intros c Hbc.
  - inversion Hbc. constructor.
  - inversion Hbc as [|y' z b' c' Hyz Hbc']; subst. constructor.
    + eapply grown_trans; eassumption.
    + now apply IH.
Qed.

Lemma only_bindings_grow_set (st : store) (self : nat) (h h' : helper) :
  nth_error st self = Some h -> grown h h' ->
  only_bindings_grow st (set_nth self h' st).
Proof.
  revert self. induction st as [|x st IH]; intros [|n] H Hg; simpl in *;
    try discriminate.
  - injection H as ->. constructor; [assumption|].
    apply only_bindings_grow_refl.
  - constructor; [apply grown_refl|]. now apply IH.
Qed.

Lemma only_bindings_grow_nth (st st' : store) (self : nat) (h : helper) :
  only_bindings_grow st st' -> nth_error st self = Some h ->
  exists h', nth_error st' self = Some h' /\ grown h h'.
Proof.
  intros Hg. revert self. induction Hg as [|x y a b Hxy Hab IH];
    intros [|n] H; simpl in *; try discriminate.
  - injection H as ->. now exists y.
  - now apply IH.
Qed.

Lemma preserves_sret {A} (a : A) : preserves (sret a).
Proof. intros st. apply only_bindings_grow_refl. Qed.

Lemma preserves_sraise {A} (e : exn) : preserves (@sraise A e).
Proof. intros st. apply only_bindings_grow_refl. Qed.

Lemma preserves_slift {A} (r : res A) : preserves (slift r).
Proof. intros st. apply only_bindings_grow_refl. Qed.

Lemma preserves_get_helper (self : nat) : preserves (get_helper self).
Proof.
  intros st. unfold get_helper. destruct (nth_error st self);
    apply only_bindings_grow_refl.
Qed.

Lemma preserves_sbind {A B} (m : SM A) (k : A -> SM B) :
  preserves m -> (forall a, preserves (k a)) -> preserves (sbind m k).
Proof.
  intros Hm Hk st. unfold sbind. specialize (Hm st).
  destruct (m st) as [[a|e|] st1]; simpl in *; try assumption.
  eapply only_bindings_grow_trans; [exact Hm|apply Hk].
Qed.

Lemma dict_get_set_grows {V} (k k' : string) (v v' : V) (d : dict V) :
  dict_mem k' d = false -> dict_get k d = Some v ->
  dict_get k (dict_set k' v' d) = Some v.
Proof.
  intros Hm H. destruct (String.eqb k k') eqn:E.
  - apply String.eqb_eq in E. subst. unfold dict_mem in Hm.
    now rewrite H in Hm.
  - apply String.eqb_neq in E. now rewrite dict_get_set_other.
Qed.

Lemma preserves_bind (self : nat) (package' name : string) :
  preserves (bind self package' name).
Proof.
  intros st. destruct (nth_error st self) as [h|] eqn:Hh.
  - rewrite (BindProps.bind_once st self h package' name Hh). simpl.
    destruct (dict_mem name (bindings h)) eqn:Hm;
      [apply only_bindings_grow_refl|].
    apply (only_bindings_grow_set st self h _ Hh). split; [reflexivity|].
    intros k v Hk. simpl. now apply dict_get_set_grows.
  - unfold bind, sbind, get_helper. rewrite Hh.
    apply only_bindings_grow_refl.
Qed.

Lemma preserves_serialize_items (items : list (SM (option string))) :
  Forall preserves items ->
  forall result, preserves (serialize_items items result).
Proof.
  induction 1 as [|item items Hitem Hitems IH]; intros result; simpl.
  - apply preserves_sret.
  - apply preserves_sbind; [assumption|]. intros x. apply IH.
Qed.

Lemma preserves_serialize_keys (keys : list string) (subprefix : string) :
  forall result, preserves (serialize_keys keys subprefix result).
Proof.
  induction keys as [|key keys IH]; intros result; simpl.
  - apply preserves_sret.
  - destruct key as [|a [|b [|c key]]];
      try apply preserves_sraise. apply IH.
Qed.

Lemma preserves_strip_method (x : option string) : preserves (strip_method x).
Proof. destruct x; [apply preserves_sret|apply preserves_sraise]. Qed.

Lemma preserves_serialize_kwargs (l : list (string * SM (option string)))
  (newprefix : string) :
  Forall (fun kv => preserves (snd kv)) l ->
  forall result, preserves (serialize_kwargs l newprefix result).
Proof.
  induction 1 as [|[name value] l Hv Hl IH]; intros result; simpl.
  - apply preserves_sret.
  - apply preserves_sbind; [exact Hv|]. intros x.
    apply preserves_sbind; [apply preserves_strip_method|]. intros y.
    apply IH.
Qed.

Lemma preserves___serialize (v : value) :
  forall prefix, preserves (__serialize v prefix).
Proof.
  induction v as [s|z|l IH|d IH|name first kwargs IH|package' name parent]
    using value_nested_ind; intros prefix; cbn [__serialize].
  - apply preserves_sret.
  - apply preserves_sret.
  - apply preserves_sbind; [|intros x; apply preserves_sret].
    apply preserves_serialize_items. apply Forall_map.
    eapply Forall_impl; [|exact IH]. intros a Ha. apply Ha.
  - apply preserves_sbind; [|intros x; apply preserves_sret].
    apply preserves_serialize_keys.
  - apply preserves_sbind; [|intros x; apply preserves_sret].
    unfold serialize_call.
    apply preserves_sbind; [|intros x; apply preserves_sret].
    apply preserves_serialize_kwargs. apply Forall_forall.
    intros [k m] Hin. apply SerializeProps.iteritems_in in Hin.
    apply in_map_iff in Hin as ([k' v] & [= <- <-] & Hin).
    rewrite Forall_forall in IH. apply (IH _ Hin).
  - apply preserves_sbind; [|intros x; apply preserves_sret].
    unfold serialize_label. destruct parent as [parent|].
    + apply preserves_sbind; [apply preserves_bind|].
      intros x. apply preserves_sret.
    + apply preserves_sret.
Qed.

Lemma preserves_serialize (v : value) (prefix : string) :
  preserves (serialize v prefix).
Proof.
  assert (H : preserves
    (x <:- __serialize v prefix ;;
     match x with
     | Some text => sret text
     | None => sraise AttributeError
     end)).
  { apply preserves_sbind; [apply preserves___serialize|].
    intros [text|]; [apply preserves_sret|apply preserves_sraise]. }
  destruct v; try apply preserves_sraise; exact H.
Qed.

Lemma preserves_serialize_rules (l : list value) :
  forall result, preserves (serialize_rules l result).
Proof.
  induction l as [|r l IH]; intros result; simpl.
  - apply preserves_sret.
  - apply preserves_sbind; [apply preserves_serialize|]. intros x. apply IH.
Qed.

Lemma preserves___build_file (self : nat) : preserves (__build_file self).
Proof.
  apply preserves_sbind; [apply preserves_get_helper|].
  intros h. apply preserves_serialize_rules.
Qed.

Lemma preserves___workspace_file (self : nat) :
  preserves (__workspace_file self).
Proof.
  apply preserves_sbind; [apply preserves_get_helper|]. intros h.
  apply preserves_sbind; [apply preserves_serialize_rules|]. intros x.
  apply preserves_serialize_rules.
Qed.

Lemma preserves_generate_repositories (l : list (string * nat)) :
  preserves (generate_repositories l).
Proof.
  induction l as [|[key repository] l IH]; simpl.
  - apply preserves_sret.
  - apply preserves_sbind; [apply preserves___build_file|]. intros text.
    apply preserves_sbind; [exact IH|]. intros calls. apply preserves_sret.
Qed.

Lemma preserves_generate (self : nat) : preserves (generate self).
Proof.
  apply preserves_sbind; [apply preserves___build_file|]. intros text.
  apply preserves_sbind; [apply preserves_get_helper|]. intros h.
  apply preserves_sbind; [apply preserves_generate_repositories|].
  intros repos.
  apply preserves_sbind; [apply preserves_get_helper|]. intros h'.
  apply preserves_sbind; [apply preserves___workspace_file|].
  intros fragment. apply preserves_sret.
Qed.

(** Serialising a value, and generating a whole package, whether it
    succeeds or fails, leaves every helper of the store in its place with
    its rules, repositories, workspace rules, embedded names, files,
    package and parent as they were: only bindings are added, and no
    binding is replaced or removed. *)
Theorem serialization_only_adds_bindings (st : store) :
  (forall v prefix,
     Forall2 (fun h h' =>
                h' = set_bindings h (bindings h') /\
                forall k b, dict_get k (bindings h) = Some b ->
                            dict_get k (bindings h') = Some b)
       st (snd (serialize v prefix st))) /\
  (forall self,
     Forall2 (fun h h' =>
                h' = set_bindings h (bindings h') /\
                forall k b, dict_get k (bindings h) = Some b ->
                            dict_get k (bindings h') = Some b)
       st (snd (generate self st))).
Proof.
  split.
  - intros v prefix. apply (preserves_serialize v prefix st).
  - intros self. apply (preserves_generate self st).
Qed.

(** *** Attributes that hold a dictionary *)

Lemma serialize_kwargs_returns (l : list (string * SM (option string)))
  (newprefix : string) :
  forall result st text st',
    serialize_kwargs l newprefix result st = (Return text, st') ->
    forall k m, In (k, m) l ->
      exists st0 s st1, m st0 = (Return (Some s), st1).
Proof.
  induction l as [|[name value] l IH]; intros result st text st' H k m Hin;
    [contradiction|].
  simpl in H. unfold sbind at 1 in H.
  destruct (value st) as [[x|e|] st1] eqn:Hv; try discriminate.
  unfold sbind at 1 in H. destruct x as [s|]; simpl in H; [|discriminate].
  destruct Hin as [[= <- <-]|Hin].
  - now exists st, s, st1.
  - eapply IH; eassumption.
Qed.

Lemma serialize_dict_none (d : list (string * value)) (prefix : string)
  (st st' : store) (s : string) :
  __serialize (Dict d) prefix st <> (Return (Some s), st').
Proof.
  cbn [__serialize]. unfold sbind.
  destruct (serialize_keys _ _ _ st) as [[x|e|] st1]; discriminate.
Qed.

(** A rule with an attribute that holds a dictionary cannot be written:
    the dictionary branch of [__serialize] hands back no text, so as soon
    as the attribute loop of [serialize] visits such an attribute the call
    fails, whatever the other attributes are. *)
Theorem dict_attribute_never_serialized (name : string)
  (first : option plain) (kwargs : list (string * value)) (k : string)
  (d : list (string * value)) (prefix : string) (st : store) :
  In (k, Dict d) (iteritems kwargs) ->
  forall text st',
    serialize (Call name first kwargs) prefix st <> (Return text, st').
Proof.
  intros Hin text st' H. unfold serialize in H. cbn [__serialize] in H.
  unfold sbind at 1 in H. unfold sbind at 1 in H.
  unfold serialize_call in H. unfold sbind at 1 in H.
  pose proof (SerializeProps.iteritems_map
                (fun v => __serialize v "    ") kwargs) as Hm.
  cbv beta in Hm. rewrite Hm in H. clear Hm.
  destruct (serialize_kwargs _ _ _ st) as [[x|e|] st1] eqn:Hk;
    try discriminate.
  eapply serialize_kwargs_returns in Hk as (st0 & s & st2 & Hd).
  - eapply serialize_dict_none. exact Hd.
  - apply in_map_iff. exists (k, Dict d). split; [reflexivity|exact Hin].
Qed.

Lemma dict_attribute_never_serialized_witness :
  In ("defines", Dict [("ab", Str "1")])
    (iteritems [("name", Str "x"); ("defines", Dict [("ab", Str "1")])]) /\
  match fst (serialize
               (Call "cc_library" None
                  [("name", Str "x"); ("defines", Dict [("ab", Str "1")])])
               EmptyString []) with
  | Return _ => False
  | _ => True
  end.
Proof.
  assert (Hin : In ("defines", Dict [("ab", Str "1")])
                  (iteritems [("name", Str "x");
                              ("defines", Dict [("ab", Str "1")])]))
    by (vm_compute; auto).
  split; [exact Hin|].
  assert (H : forall x,
            serialize
              (Call "cc_library" None
                 [("name", Str "x"); ("defines", Dict [("ab", Str "1")])])
              EmptyString [] = x ->
            match fst x with Return _ => False | _ => True end).
  { intros [[text|e|] st'] E; cbn [fst]; [|exact I|exact I].
    exact (dict_attribute_never_serialized "cc_library" None
             [("name", Str "x"); ("defines", Dict [("ab", Str "1")])]
             "defines" [("ab", Str "1")] EmptyString [] Hin text st' E). }
  exact (H _ eq_refl).
Defined.

(** *** Labels *)

Definition label_text (prefix target : string) : string :=
  (prefix ++ dq ++ target ++ dq)%string.

Lemma label_with_parent (st : store) (package' name prefix : string)
  (parent : nat) (h : helper) :
  nth_error st parent = Some h ->
  exists st' h',
    serialize (Label package' name (Some parent)) prefix st =
      (Return (label_text prefix
                 ("//external:" ++ package h ++ "/" ++ name)), st') /\
    nth_error st' parent = Some h' /\
    package h' = package h /\
    dict_get name (bindings h') =
      Some (match dict_get name (bindings h) with
            | Some b => b
            | None =>
                Call "bind" None
                  [("actual", Str (package' ++ ":" ++ name)%string);
                   ("name", Str (package h ++ "/" ++ name)%string)]
            end) /\
    serialize (Label package' name (Some parent)) prefix st' =
      (Return (label_text prefix
                 ("//external:" ++ package h ++ "/" ++ name)), st').
Proof.
  intros Hh.
  assert (Hs : forall s hh, nth_error s parent = Some hh ->
    serialize (Label package' name (Some parent)) prefix s =
      (Return (label_text prefix
                 ("//external:" ++ package hh ++ "/" ++ name)),
       snd (bind parent package' name s))).
  { intros s hh Hhh. unfold serialize. cbn [__serialize].
    unfold serialize_label, sbind.
    now rewrite (BindProps.bind_once s parent hh package' name Hhh). }
  rewrite (Hs st h Hh).
  rewrite (BindProps.bind_once st parent h package' name Hh). cbn [snd].
  unfold dict_mem. destruct (dict_get name (bindings h)) as [b|] eqn:Hb.
  - exists st, h. repeat split; try assumption.
    rewrite (Hs st h Hh).
    rewrite (BindProps.bind_once st parent h package' name Hh).
    unfold dict_mem. now rewrite Hb.
  - set (h' := set_bindings h
                 (dict_set name (BindProps.binding_record h package' name)
                    (bindings h))).
    assert (Hh' : nth_error (set_nth parent h' st) parent = Some h')
      by now apply BindProps.nth_error_set_nth with (x := h).
    exists (set_nth parent h' st), h'. repeat split; try assumption.
    + unfold h'. simpl. now rewrite dict_get_set_same.
    + rewrite (Hs _ h' Hh').
      rewrite (BindProps.bind_once _ parent h' package' name Hh').
      unfold dict_mem, h'. simpl. now rewrite dict_get_set_same.
Qed.

(** A label without parent serialises to its own address and touches no
    helper.  A label with a parent serialises to the address under
    [//external] that [bind] gives it in the parent; the parent then has a
    binding for the name, the one it had or else a new [bind] rule from
    [<parent package>/<name>] to [<package>:<name>]; serialising the label
    once more gives the same text and changes nothing. *)
Theorem label_serialize_binds_in_parent (st : store)
  (package' name prefix : string) :
  serialize (Label package' name None) prefix st =
    (Return (prefix ++ dq ++ "//" ++ package' ++ ":" ++ name ++ dq)%string,
     st) /\
  forall parent h,
    nth_error st parent = Some h ->
    exists st' h',
      serialize (Label package' name (Some parent)) prefix st =
        (Return (label_text prefix
                   ("//external:" ++ package h ++ "/" ++ name)), st') /\
      nth_error st' parent = Some h' /\
      package h' = package h /\
      dict_get name (bindings h') =
        Some (match dict_get name (bindings h) with
              | Some b => b
              | None =>
                  Call "bind" None
                    [("actual", Str (package' ++ ":" ++ name)%string);
                     ("name", Str (package h ++ "/" ++ name)%string)]
              end) /\
      serialize (Label package' name (Some parent)) prefix st' =
        (Return (label_text prefix
                   ("//external:" ++ package h ++ "/" ++ name)), st').
Proof.
  split; [reflexivity|]. intros parent h Hh. now apply label_with_parent.
Qed.

Lemma label_serialize_binds_in_parent_witness :
  exists st' h',
    serialize (Label "@tools-jdk-jdk" "java" (Some 0)) "    "
      [new_helper "tools/jdk" None] =
      (Return (label_text "    " "//external:tools/jdk/java"), st') /\
    nth_error st' 0 = Some h' /\
    package h' = "tools/jdk" /\
    dict_get "java" (bindings h') =
      Some (Call "bind" None
              [("actual", Str "@tools-jdk-jdk:java");
               ("name", Str "tools/jdk/java")]) /\
    serialize (Label "@tools-jdk-jdk" "java" (Some 0)) "    " st' =
      (Return (label_text "    " "//external:tools/jdk/java"), st').
Proof.
  apply (proj2 (label_serialize_binds_in_parent
                  [new_helper "tools/jdk" None] "@tools-jdk-jdk" "java"
                  "    ") 0 (new_helper "tools/jdk" None)).
  reflexivity.
Defined.

(** *** [rule] and [new_repository] *)

Lemma length_set_nth {A} (n : nat) (a : A) (l : list A) :
  length (set_nth n a l) = length l.
Proof.
  revert n. induction l as [|x l IH]; intros [|n]; simpl; auto.
Qed.

Lemma nth_error_set_nth_other {A} (n m : nat) (a : A) (l : list A) :
  n <> m -> nth_error (set_nth n a l) m = nth_error l m.
Proof.
  revert n m. induction l as [|x l IH]; intros [|n] [|m] H; simpl; auto;
    contradiction.
Qed.

(** A call without [name]: [rule] has appended the rule by the time the
    lookup of the name fails, so the key error leaves the rule in the
    helper; [new_repository] looks the name up first and fails with the
    store untouched. *)
Theorem missing_name_effects (st : store) (self : nat) (h : helper)
  (_name : string) (kwargs : dict value) (r : value) :
  nth_error st self = Some h ->
  dict_get "name" kwargs = None ->
  BuildSerializable _name None kwargs = Return r ->
  rule self _name kwargs st =
    (Raise (KeyError "name"), set_nth self (add_rule h r) st) /\
  new_repository self _name kwargs st = (Raise (KeyError "name"), st).
Proof.
  intros Hh Hn Hr. split.
  - unfold rule, sbind, get_helper, slift, set_helper, name_of.
    now rewrite Hh, Hr, Hn.
  - unfold new_repository, sbind, get_helper, slift, name_of.
    now rewrite Hh, Hn.
Qed.

Lemma missing_name_effects_witness :
  rule 0 "filegroup" [("srcs", List [])] [new_helper "p" None] =
    (Raise (KeyError "name"),
     [add_rule (new_helper "p" None)
        (Call "filegroup" None [("srcs", List [])])]) /\
  new_repository 0 "filegroup" [("srcs", List [])] [new_helper "p" None] =
    (Raise (KeyError "name"), [new_helper "p" None]).
Proof.
  apply (missing_name_effects [new_helper "p" None] 0 (new_helper "p" None)
           "filegroup" [("srcs", List [])]
           (Call "filegroup" None [("srcs", List [])])); reflexivity.
Defined.

(** [new_repository] makes a new helper for the package
    [@<package with - for />-<name>] whose parent is the helper it was
    called on, registers it under the name given, and appends to the
    workspace rules the repository rule with [name] and [build_file]
    rewritten; nothing else in the store changes. *)
Theorem new_repository_registers_child (st : store) (self : nat)
  (h : helper) (_rule name : string) (kwargs : dict value) (r : value) :
  nth_error st self = Some h ->
  dict_get "name" kwargs = Some (Str name) ->
  BuildSerializable _rule None
    (dict_set "build_file" (Str (package h ++ "/BUILD." ++ name)%string)
       (dict_set "name"
          (Str (replace "/" "-" (package h) ++ "-" ++ name)%string)
          kwargs)) = Return r ->
  exists st1,
    new_repository self _rule kwargs st = (Return (length st), st1) /\
    length st1 = S (length st) /\
    nth_error st1 (length st) =
      Some (new_helper ("@" ++ replace "/" "-" (package h) ++ "-" ++ name)
              (Some self)) /\
    nth_error st1 self =
      Some {| repositories := dict_set name (length st) (repositories h);
              rules := rules h; bindings := bindings h;
              workspace := workspace h ++ [r];
              embedded := embedded h; files := files h;
              package := package h; parent := parent h |} /\
    forall other, other <> self -> other <> length st ->
      nth_error st1 other = nth_error st other.
Proof.
  intros Hh Hn Hr.
  assert (Hlt : self < length st)
    by (apply nth_error_Some; congruence).
  eexists. split.
  - unfold new_repository, sbind, get_helper, slift, name_of.
    rewrite Hh, Hn. cbv beta iota.
    change (package h ++ "/" ++ "BUILD." ++ name)%string
      with (package h ++ "/BUILD." ++ name)%string.
    rewrite Hr. reflexivity.
  - split; [|split; [|split]].
    + rewrite length_app, length_set_nth. simpl. lia.
    + rewrite nth_error_app2 by (rewrite length_set_nth; lia).
      rewrite length_set_nth, Nat.sub_diag. reflexivity.
    + rewrite nth_error_app1 by (rewrite length_set_nth; lia).
      now apply BindProps.nth_error_set_nth with (x := h).
    + intros other Hs Hl.
      destruct (Nat.lt_ge_cases other (length st)) as [Hlo|Hge].
      * rewrite nth_error_app1 by (rewrite length_set_nth; lia).
        apply nth_error_set_nth_other. congruence.
      * transitivity (@None helper).
        -- apply nth_error_None. rewrite length_app, length_set_nth.
           simpl. lia.
        -- symmetry. apply nth_error_None. lia.
Qed.

Lemma new_repository_registers_child_witness :
  exists st1,
    new_repository 0 "new_local_repository"
      [("path", Str "/usr/lib/jvm"); ("name", Str "jdk")]
      [new_helper "tools/jdk" None] = (Return 1, st1) /\
    nth_error st1 1 = Some (new_helper "@tools-jdk-jdk" (Some 0)).
Proof.
  destruct (new_repository_registers_child [new_helper "tools/jdk" None] 0
              (new_helper "tools/jdk" None) "new_local_repository" "jdk"
              [("path", Str "/usr/lib/jvm"); ("name", Str "jdk")]
              (Call "new_local_repository" None
                 [("path", Str "/usr/lib/jvm");
                  ("build_file", Str "tools/jdk/BUILD.jdk");
                  ("name", Str "tools-jdk-jdk")])
              eq_refl eq_refl)
    as (st1 & Hrun & _ & Hchild & _).
  - vm_compute. reflexivity.
  - exists st1. split; [exact Hrun|exact Hchild].
Defined.

(** A rule made in a helper that has a parent, as the helper of a
    nested repository has, is handed back as a label that goes through the
    parent: the label serialises to [//external:<parent package>/<name>],
    and serialising it leaves in the parent a binding for the name, the one
    already there or else a new [bind] rule whose [actual] is
    [<helper package>:<name>]. *)
Theorem child_rule_label_is_external (st : store) (child p : nat)
  (c hp : helper) (_name rname : string) (rkwargs : dict value)
  (r : value) :
  nth_error st child = Some c ->
  parent c = Some p ->
  nth_error st p = Some hp ->
  dict_get "name" rkwargs = Some (Str rname) ->
  BuildSerializable _name None rkwargs = Return r ->
  exists st2,
    rule child _name rkwargs st =
      (Return (Label (package c) rname (Some p)), st2) /\
    forall prefix,
      exists st3 hp',
        serialize (Label (package c) rname (Some p)) prefix st2 =
          (Return (label_text prefix
                     ("//external:" ++ package hp ++ "/" ++ rname)), st3) /\
        nth_error st3 p = Some hp' /\
        dict_get rname (bindings hp') =
          Some (match dict_get rname (bindings hp) with
                | Some b => b
                | None =>
                    Call "bind" None
                      [("actual", Str (package c ++ ":" ++ rname)%string);
                       ("name", Str (package hp ++ "/" ++ rname)%string)]
                end).
Proof.
  intros Hc Hp Hhp Hn Hr.
  exists (set_nth child (add_rule c r) st). split.
  - unfold rule, sbind, get_helper, slift, set_helper, name_of.
    now rewrite Hc, Hr, Hn, Hp.
  - intros prefix.
    assert (Hhp2 : exists hp2,
      nth_error (set_nth child (add_rule c r) st) p = Some hp2 /\
      package hp2 = package hp /\ bindings hp2 = bindings hp).
    { destruct (Nat.eq_dec child p) as [<-|Hne].
      - exists (add_rule c r). split.
        + now apply BindProps.nth_error_set_nth with (x := c).
        + assert (c = hp) by congruence. subst hp. now split.
      - exists hp. rewrite nth_error_set_nth_other by assumption.
        now repeat split. }
    destruct Hhp2 as (hp2 & Hhp2 & Hpkg & Hbind).
    destruct (label_with_parent _ (package c) rname prefix p hp2 Hhp2)
      as (st3 & hp' & Hs & Hhp' & _ & Hget & _).
    exists st3, hp'. rewrite Hpkg, Hbind in *. now repeat split.
Qed.

Lemma child_rule_label_is_external_witness :
  exists st2,
    rule 1 "filegroup" [("srcs", List [Str "bin/java"]); ("name", Str "java")]
      [new_helper "tools/jdk" None; new_helper "@tools-jdk-jdk" (Some 0)] =
      (Return (Label "@tools-jdk-jdk" "java" (Some 0)), st2) /\
    exists st3,
      serialize (Label "@tools-jdk-jdk" "java" (Some 0)) "        " st2 =
        (Return (label_text "        " "//external:tools/jdk/java"), st3).
Proof.
  destruct (child_rule_label_is_external
              [new_helper "tools/jdk" None;
               new_helper "@tools-jdk-jdk" (Some 0)]
              1 0 (new_helper "@tools-jdk-jdk" (Some 0))
              (new_helper "tools/jdk" None) "filegroup" "java"
              [("srcs", List [Str "bin/java"]); ("name", Str "java")]
              (Call "filegroup" None
                 [("srcs", List [Str "bin/java"]); ("name", Str "java")])
              eq_refl eq_refl eq_refl eq_refl)
    as (st2 & Hrule & Hlabel).
  - vm_compute. reflexivity.
  - exists st2. split; [exact Hrule|].
    destruct (Hlabel "        ") as (st3 & hp' & Hs & _).
    now exists st3.
Defined.

(** *** [generate] *)

Lemma sbind_return {A B} (m : SM A) (k : A -> SM B) (st st' : store)
  (b : B) :
  sbind m k st = (Return b, st') ->
  exists a st1, m st = (Return a, st1) /\ k a st1 = (Return b, st').
Proof.
  unfold sbind. destruct (m st) as [[a|e|] st1]; try discriminate.
  intros H. now exists a, st1.
Qed.

Lemma get_helper_return (self : nat) (st st' : store) (h : helper) :
  get_helper self st = (Return h, st') ->
  nth_error st self = Some h /\ st' = st.
Proof.
  unfold get_helper. destruct (nth_error st self); [|discriminate].
  now intros [= -> ->].
Qed.

Lemma generate_repositories_calls (l : list (string * nat)) :
  forall st repos st',
    generate_repositories l st = (Return repos, st') ->
    Forall2 (fun kv c =>
               exists text, c = sink_scratch_file ("BUILD." ++ fst kv) text)
      l repos.
Proof.
  induction l as [|[key repository] l IH]; intros st repos st' H; simpl in H.
  - injection H as <- <-. constructor.
  - apply sbind_return in H as (text & st1 & _ & H).
    apply sbind_return in H as (calls & st2 & Hl & H).
    injection H as <- <-. constructor; [now exists text|].
    eapply IH. exact Hl.
Qed.

(** A generation that succeeds calls its output in a fixed order: first
    [build_file] with the text of the package's BUILD file, then one
    [scratch_file] named [BUILD.<key>] for each repository the table of
    repositories yields, then [copy_from_embedded] for exactly the names
    exported from the embedded tools, in the order they were exported,
    then one [scratch_file] per staged file, and last [workspace_part].
    The workspace text is made after all BUILD files, in the store they
    leave, so it holds the bindings that writing their labels added. *)
Theorem generate_calls_in_order (st st' : store) (self : nat) (h : helper)
  (calls : list sink_call) :
  nth_error st self = Some h ->
  generate self st = (Return calls, st') ->
  exists text st1 repos st2 fragment,
    __build_file self st = (Return text, st1) /\
    generate_repositories (iteritems (repositories h)) st1 =
      (Return repos, st2) /\
    __workspace_file self st2 = (Return fragment, st') /\
    Forall2 (fun kv c =>
               exists text, c = sink_scratch_file ("BUILD." ++ fst kv) text)
      (iteritems (repositories h)) repos /\
    calls =
      build_file text :: repos
        ++ map copy_from_embedded (embedded h)
        ++ map (fun kv => sink_scratch_file (fst kv) (snd kv))
             (iteritems (files h))
        ++ [workspace_part fragment].
Proof.
  intros Hh H. unfold generate in H.
  apply sbind_return in H as (text & st1 & Hb & H).
  apply sbind_return in H as (h1 & st1' & Hg1 & H).
  apply get_helper_return in Hg1 as [Hh1 ->].
  apply sbind_return in H as (repos & st2 & Hr & H).
  apply sbind_return in H as (h2 & st2' & Hg2 & H).
  apply get_helper_return in Hg2 as [Hh2 ->].
  apply sbind_return in H as (fragment & st3 & Hw & H).
  injection H as <- <-.
  pose proof (preserves___build_file self st) as P1. rewrite Hb in P1.
  cbn [snd] in P1.
  destruct (only_bindings_grow_nth _ _ self h P1 Hh) as (h1' & Hh1' & G1).
  assert (h1' = h1) by congruence. subst h1'.
  pose proof (preserves_generate_repositories
                (iteritems (repositories h1)) st1) as P2.
  rewrite Hr in P2. cbn [snd] in P2.
  destruct (only_bindings_grow_nth _ _ self h1 P2 Hh1) as (h2' & Hh2' & G2).
  assert (h2' = h2) by congruence. subst h2'.
  pose proof (grown_trans _ _ _ G1 G2) as [E2 _]. destruct G1 as [E1 _].
  assert (R1 : repositories h1 = repositories h) by (rewrite E1; reflexivity).
  assert (R2 : embedded h2 = embedded h) by (rewrite E2; reflexivity).
  assert (R3 : files h2 = files h) by (rewrite E2; reflexivity).
  rewrite R1 in Hr. rewrite R2, R3.
  exists text, st1, repos, st2, fragment. repeat split; try assumption.
  eapply generate_repositories_calls. exact Hr.
Qed.

Lemma generate_calls_in_order_witness :
  exists text st1 repos st2 fragment,
    __build_file 0 [add_embedded (new_helper "p" None) "ijar"] =
      (Return text, st1) /\
    generate_repositories [] st1 = (Return repos, st2) /\
    __workspace_file 0 st2 =
      (Return fragment, [add_embedded (new_helper "p" None) "ijar"]) /\
    Forall2 (fun kv c =>
               exists text, c = sink_scratch_file ("BUILD." ++ fst kv) text)
      (@nil (string * nat)) repos /\
    [build_file build_file_banner; copy_from_embedded "ijar";
     workspace_part
       ("#" ++ nl ++ "# Generated part from package p" ++ nl
          ++ "#" ++ nl)%string] =
      build_file text :: repos
        ++ map copy_from_embedded ["ijar"]
        ++ map (fun kv => sink_scratch_file (fst kv) (snd kv)) []
        ++ [workspace_part fragment].
Proof.
  destruct (generate_calls_in_order
              [add_embedded (new_helper "p" None) "ijar"]
              [add_embedded (new_helper "p" None) "ijar"]
              0 (add_embedded (new_helper "p" None) "ijar")
              [build_file build_file_banner; copy_from_embedded "ijar";
               workspace_part
                 ("#" ++ nl ++ "# Generated part from package p" ++ nl
                    ++ "#" ++ nl)%string]
              eq_refl eq_refl)
    as (text & st1 & repos & st2 & fragment & H1 & H2 & H3 & H4 & H5).
  exists text, st1, repos, st2, fragment. repeat split; assumption.
Defined.

End BuildgenExtra.

(* ================================================================== *)
(** ** Properties of the archive a generation writes *)

Module GenerationProps.
Import Packgen Generation.

(** A member with the fixed time stamp and read-only permission bits. *)
Definition reproducible (m : member) : Prop :=
  date_time (info m) = [1980; 0; 0; 0; 0; 0]%Z /\
  (external_attr (info m) = Z.shiftl 292 16 \/
   external_attr (info m) = Z.shiftl 365 16).

(** A member whose name lies under the directory of a package. *)
Definition under (package : string) (m : member) : Prop :=
  startswith (filename (info m)) (package ++ "/") = true.

(** A step that only adds members, all with some property. *)
Definition adds (P : member -> Prop) {A} (m : GM A) : Prop :=
  forall st zf,
    exists added,
      snd (snd (m (st, zf))) = zf ++ added /\ Forall P added.

Lemma gbind_done {A B} (m : GM A) (k : A -> GM B)
  (s s' : Buildgen.store * ZipFile) (b : B) :
  gbind m k s = (Done b, s') ->
  exists a s1, m s = (Done a, s1) /\ k a s1 = (Done b, s').
Proof.
  unfold gbind. destruct (m s) as [[a|f|] s1]; try discriminate.
  intros H. now exists a, s1.
Qed.

Lemma of_helper_done {A} (m : Buildgen.SM A) (st st' : Buildgen.store)
  (zf zf' : ZipFile) (a : A) :
  of_helper m (st, zf) = (Done a, (st', zf')) ->
  m st = (Return a, st') /\ zf' = zf.
Proof.
  unfold of_helper. cbn [fst snd].
  destruct (m st) as [[x|e|] st1]; try discriminate.
  now intros [= -> -> ->].
Qed.

Lemma adds_gret (P : member -> Prop) {A} (a : A) : adds P (gret a).
Proof. intros st zf. exists []. now rewrite app_nil_r. Qed.

Lemma adds_of_helper (P : member -> Prop) {A} (m : Buildgen.SM A) :
  adds P (of_helper m).
Proof.
  intros st zf. exists []. unfold of_helper. cbn [fst snd].
  destruct (m st) as [[x|e|] st1]; now rewrite app_nil_r.
Qed.

Lemma adds_gbind (P : member -> Prop) {A B} (m : GM A) (k : A -> GM B) :
  adds P m -> (forall a, adds P (k a)) -> adds P (gbind m k).
Proof.
  intros Hm Hk st zf. unfold gbind.
  destruct (Hm st zf) as (added & Hzf & Hadded).
  destruct (m (st, zf)) as [[a|f|] [st1 zf1]]; cbn [snd] in *;
    try (now exists added).
  destruct (Hk a st1 zf1) as (added' & Hzf' & Hadded').
  exists (added ++ added'). rewrite Hzf', Hzf, app_assoc.
  split; [reflexivity|]. apply Forall_app. now split.
Qed.

Lemma adds_scratch_file (P : member -> Prop) (path content : string) :
  P {| info := stamped_info path (Z.shiftl 292 16); data := content |} ->
  adds P (write (ZipOutputGenerator.scratch_file path content)).
Proof.
  intros HP st zf. eexists. split; [reflexivity|]. now constructor.
Qed.

Lemma adds_copy (P : member -> Prop) (w : Autodetect.world)
  (path origfile : string) :
  (forall attr text,
     attr = Z.shiftl 292 16 \/ attr = Z.shiftl 365 16 ->
     P {| info := stamped_info path attr; data := text |}) ->
  adds P (try_write (ZipOutputGenerator.copy w path origfile)).
Proof.
  intros HP st zf. unfold try_write, ZipOutputGenerator.copy. cbn [fst snd].
  destruct (Autodetect.st_mode w origfile) as [mode|];
    [|exists []; now rewrite app_nil_r].
  destruct (Autodetect.contents w origfile) as [text|];
    [|exists []; now rewrite app_nil_r].
  eexists. split; [reflexivity|]. constructor; [|constructor].
  apply HP. destruct (negb _); auto.
Qed.

Lemma prefix_app (p r : string) : String.prefix p (p ++ r) = true.
Proof.
  induction p as [|c p IH]; simpl; [now destruct r|].
  destruct (ascii_dec c c); [exact IH|contradiction].
Qed.

(** What the steps of [generate] before the last add to the archive. *)
Definition package_member (package : string) (m : member) : Prop :=
  reproducible m /\ under package m.

Lemma package_member_intro (package name text : string) (attr : Z) :
  attr = Z.shiftl 292 16 \/ attr = Z.shiftl 365 16 ->
  package_member package
    {| info := stamped_info (package ++ "/" ++ name) attr; data := text |}.
Proof.
  intros Hattr. split; [split; [reflexivity|exact Hattr]|].
  unfold under, startswith. cbn [info filename stamped_info].
  rewrite <- PackgenProps.append_assoc. apply prefix_app.
Qed.

Lemma adds_generate_repositories (package : string)
  (l : list (string * nat)) :
  adds (package_member package) (generate_repositories package l).
Proof.
  induction l as [|[key repository] l IH]; cbn [generate_repositories].
  - apply adds_gret.
  - apply adds_gbind; [apply adds_of_helper|]. intros text.
    apply adds_gbind; [|intros _; exact IH].
    apply adds_scratch_file. apply package_member_intro. now left.
Qed.

Lemma adds_generate_embedded (w : Autodetect.world)
  (install_path package : string) (l : list string) :
  adds (package_member package) (generate_embedded w install_path package l).
Proof.
  induction l as [|name l IH]; cbn [generate_embedded].
  - apply adds_gret.
  - apply adds_gbind; [|intros _; exact IH].
    apply adds_copy. intros attr text Hattr.
    now apply package_member_intro.
Qed.

Lemma adds_generate_files (package : string) (l : list (string * string)) :
  adds (package_member package) (generate_files package l).
Proof.
  induction l as [|[name content] l IH]; cbn [generate_files].
  - apply adds_gret.
  - apply adds_gbind; [|intros _; exact IH].
    apply adds_scratch_file. apply package_member_intro. now left.
Qed.

Lemma workspace_member_reproducible (fragment : string) :
  reproducible {| info := workspace_info; data := fragment |}.
Proof. split; [reflexivity|now left]. Qed.

Lemma adds_generate (w : Autodetect.world) (install_path package : string)
  (self : nat) :
  adds reproducible (generate w install_path package self).
Proof.
  assert (Hweak : forall A (m : GM A),
            adds (package_member package) m -> adds reproducible m).
  { intros A m Hm st zf. destruct (Hm st zf) as (added & Hzf & Hadded).
    exists added. split; [exact Hzf|].
    eapply Forall_impl; [|exact Hadded]. now intros m' [Hr _]. }
  unfold generate.
  apply adds_gbind; [apply adds_of_helper|]. intros text.
  apply adds_gbind.
  { apply Hweak. apply adds_scratch_file. apply package_member_intro.
    now left. }
  intros _. apply adds_gbind; [apply adds_of_helper|]. intros h.
  apply adds_gbind; [apply Hweak, adds_generate_repositories|]. intros _.
  apply adds_gbind; [apply adds_of_helper|]. intros h'.
  apply adds_gbind; [apply Hweak, adds_generate_embedded|]. intros _.
  apply adds_gbind; [apply Hweak, adds_generate_files|]. intros _.
  apply adds_gbind; [apply adds_of_helper|]. intros fragment.
  apply adds_scratch_file. apply workspace_member_reproducible.
Qed.

(** Whatever the plugin does and whether the command runs to its end or
    is cut short by a failure, every member of the archive it leaves has
    the time stamp (1980, 0, 0, 0, 0, 0) and the permission bits 0444 or
    0555: no time and no write permission of the host goes into the
    archive. *)
Theorem archive_members_reproducible (w : Autodetect.world)
  (install_path package : string)
  (package_builder : nat -> Buildgen.SM unit) :
  Forall (fun m =>
            date_time (info m) = [1980; 0; 0; 0; 0; 0]%Z /\
            (external_attr (info m) = Z.shiftl 292 16 \/
             external_attr (info m) = Z.shiftl 365 16))
    (snd (snd (main w install_path package package_builder))).
Proof.
  assert (H : adds reproducible
                (_ <<- of_helper (package_builder 0) ;;
                 generate w install_path package 0)).
  { apply adds_gbind; [apply adds_of_helper|]. intros _.
    apply adds_generate. }
  destruct (H [Buildgen.new_helper package None] [])
    as (added & Hzf & Hadded).
  exact (eq_ind_r (Forall reproducible) Hadded Hzf).
Qed.

Lemma adds_run (P : member -> Prop) {A} (m : GM A) (r : outcome A)
  (st st' : Buildgen.store) (zf zf' : ZipFile) :
  adds P m -> m (st, zf) = (r, (st', zf')) ->
  exists added, zf' = zf ++ added /\ Forall P added.
Proof.
  intros Hm H. destruct (Hm st zf) as (added & Hzf & Hadded).
  rewrite H in Hzf. now exists added.
Qed.

Lemma write_done (f : ZipFile -> ZipFile) (s s' : Buildgen.store * ZipFile)
  (r : outcome unit) :
  write f s = (r, s') -> s' = (fst s, f (snd s)).
Proof. unfold write. now intros [= _ <-]. Qed.

(** The layout of a finished generation. *)
Lemma generate_layout (w : Autodetect.world) (install_path package : string)
  (self : nat) (st st' : Buildgen.store) (zf zf' : ZipFile) :
  generate w install_path package self (st, zf) = (Done tt, (st', zf')) ->
  exists text middle fragment,
    zf' = zf
          ++ {| info := stamped_info (package ++ "/" ++ "BUILD")
                          (Z.shiftl 292 16);
                data := text |}
          :: middle
          ++ [{| info := workspace_info; data := fragment |}] /\
    Forall (package_member package) middle.
Proof.
  unfold generate. intros H.
  apply gbind_done in H as (text & [st1 zf1] & H1 & H).
  apply of_helper_done in H1 as [_ ->].
  apply gbind_done in H as ([] & s2 & H2 & H).
  apply write_done in H2. cbn [fst snd] in H2. subst s2.
  apply gbind_done in H as (h & [st3 zf3] & H3 & H).
  apply of_helper_done in H3 as [_ ->].
  apply gbind_done in H as ([] & [st4 zf4] & H4 & H).
  apply (adds_run _ _ _ _ _ _ _ (adds_generate_repositories package _))
    in H4 as (a4 & -> & F4).
  apply gbind_done in H as (h' & [st5 zf5] & H5 & H).
  apply of_helper_done in H5 as [_ ->].
  apply gbind_done in H as ([] & [st6 zf6] & H6 & H).
  apply (adds_run _ _ _ _ _ _ _
           (adds_generate_embedded w install_path package _))
    in H6 as (a6 & -> & F6).
  apply gbind_done in H as ([] & [st7 zf7] & H7 & H).
  apply (adds_run _ _ _ _ _ _ _ (adds_generate_files package _))
    in H7 as (a7 & -> & F7).
  apply gbind_done in H as (fragment & [st8 zf8] & H8 & H).
  apply of_helper_done in H8 as [_ ->].
  apply write_done in H. cbn [fst snd] in H. injection H as -> ->.
  exists text, (a4 ++ a6 ++ a7), fragment. split.
  - unfold ZipPackageGenerationHelper.workspace_part,
      ZipOutputGenerator.append, ZipPackageGenerationHelper.build_file,
      ZipPackageGenerationHelper.scratch_file,
      ZipOutputGenerator.scratch_file.
    rewrite <- !app_assoc. reflexivity.
  - rewrite !Forall_app. now repeat split.
Qed.

(** An archive that the command has finished starts with the BUILD file
    of the package and ends with the WORKSPACE part; every member between
    them lies under the directory of the package, so the archive has one
    member named WORKSPACE, the last, with the header [merge_package]
    writes. *)
Theorem generated_archive_layout (w : Autodetect.world)
  (install_path package : string)
  (package_builder : nat -> Buildgen.SM unit) (st : Buildgen.store)
  (zf : ZipFile) :
  main w install_path package package_builder = (Done tt, (st, zf)) ->
  exists text middle fragment,
    zf = {| info := {| filename := package ++ "/" ++ "BUILD";
                       date_time := [1980; 0; 0; 0; 0; 0]%Z;
                       external_attr := Z.shiftl 292 16 |};
            data := text |}
         :: middle
         ++ [{| info := workspace_info; data := fragment |}] /\
    Forall (fun m =>
              startswith (filename (info m)) (package ++ "/") = true)
      middle.
Proof.
  unfold main. intros H.
  apply gbind_done in H as ([] & [st1 zf1] & H1 & H).
  apply of_helper_done in H1 as [_ ->].
  apply generate_layout in H as (text & middle & fragment & -> & Hm).
  exists text, middle, fragment. split; [reflexivity|].
  eapply Forall_impl; [|exact Hm]. now intros m [_ Hu].
Qed.

(** A plugin that stages one file, on a host without tools. *)
Definition staging_plugin (helper : nat) : Buildgen.SM unit :=
  Buildgen.scratch_file helper "empty.c" EmptyString.

Lemma generated_archive_layout_witness :
  exists text middle fragment,
    snd (snd (main Fixture.nolibs_world "/install" "fromhost"
                staging_plugin)) =
      {| info := {| filename := "fromhost/BUILD";
                    date_time := [1980; 0; 0; 0; 0; 0]%Z;
                    external_attr := Z.shiftl 292 16 |};
         data := text |}
      :: middle
      ++ [{| info := workspace_info; data := fragment |}] /\
    Forall (fun m => startswith (filename (info m)) "fromhost/" = true)
      middle.
Proof.
  apply (generated_archive_layout Fixture.nolibs_world "/install" "fromhost"
           staging_plugin
           (fst (snd (main Fixture.nolibs_world "/install" "fromhost"
                        staging_plugin)))).
  vm_compute. reflexivity.
Defined.

(** *** Merging generated archives *)

Lemma prefix_has_char (p s : string) (c : ascii) :
  String.prefix (p ++ String c "") s = true ->
  In c (list_ascii_of_string s).
Proof.
  revert s. induction p as [|x p IH]; intros [|y s]; simpl;
    try discriminate.
  - destruct (ascii_dec c y) as [->|]; [now left|discriminate].
  - destruct (ascii_dec x y); [|discriminate]. intros H. right. now apply IH.
Qed.

Lemma under_not_workspace (package : string) (m : member) :
  under package m -> PackgenProps.is_workspace m = false.
Proof.
  unfold under, startswith, PackgenProps.is_workspace. intros H.
  apply prefix_has_char in H. apply String.eqb_neq. intros E.
  rewrite E in H. simpl in H.
  repeat (destruct H as [H|H]; [discriminate|]). exact H.
Qed.

Lemma filter_none {A} (f : A -> bool) (l : list A) :
  Forall (fun x => f x = false) l -> filter f l = [].
Proof. induction 1 as [|x l Hx Hl IH]; simpl; [|rewrite Hx]; auto. Qed.

Lemma filter_all {A} (f : A -> bool) (l : list A) :
  Forall (fun x => f x = true) l -> filter f l = l.
Proof.
  induction 1 as [|x l Hx Hl IH]; simpl; [|rewrite Hx, IH]; auto.
Qed.

(** What [merge_package] reads in an archive that ends with its only
    WORKSPACE member. *)
Lemma layout_read (others : ZipFile) (fragment : string) :
  Forall (fun m => PackgenProps.is_workspace m = false) others ->
  PackgenProps.fragments
    (others ++ [{| info := workspace_info; data := fragment |}]) =
    [fragment] /\
  map info
    (PackgenProps.files
       (others ++ [{| info := workspace_info; data := fragment |}])) =
    map info others.
Proof.
  intros Ho.
  set (wsm := {| info := workspace_info; data := fragment |}).
  set (zf := others ++ [wsm]).
  assert (Hread : PackgenProps.as_read zf wsm = wsm).
  { unfold PackgenProps.as_read, zf. rewrite rev_app_distr. reflexivity. }
  assert (Hw : forall l,
    Forall (fun m => PackgenProps.is_workspace m = false) l ->
    Forall (fun m => PackgenProps.is_workspace m = false)
      (map (PackgenProps.as_read zf) l)).
  { intros l Hl. apply Forall_map. eapply Forall_impl; [|exact Hl].
    now intros m Hm. }
  unfold PackgenProps.fragments, PackgenProps.files. fold zf.
  unfold zf at 2 4. rewrite !map_app, !filter_app. cbn [map].
  rewrite Hread. split.
  - rewrite (filter_none _ _ (Hw others Ho)). reflexivity.
  - rewrite filter_all.
    + cbn [filter PackgenProps.is_workspace]. simpl.
      rewrite app_nil_r, map_map. reflexivity.
    + eapply Forall_impl; [|exact (Hw others Ho)].
      intros m Hm. cbv beta in Hm. now rewrite Hm.
Qed.

Definition no_member : member :=
  {| info := workspace_info; data := EmptyString |}.

(** Archives that the [generate] command has finished always merge:
    [merge_package] raises nothing on them, the merged archive holds the
    members of the inputs other than their WORKSPACE parts, with their
    headers and in the order given, and then one WORKSPACE member whose
    text is the WORKSPACE part of each input in turn, each followed by a
    line break. *)
Theorem merge_generated_archives (zfs : list ZipFile) :
  Forall (fun zf =>
            exists w install_path package package_builder st,
              main w install_path package package_builder =
                (Done tt, (st, zf))) zfs ->
  exists out,
    merge_package zfs =
      Return (out ++
              [{| info := workspace_info;
                  data := PackgenProps.join_fragments
                            (map (fun zf => data (last zf no_member))
                               zfs) |}]) /\
    map info out = flat_map (fun zf => map info (removelast zf)) zfs.
Proof.
  intros H. exists (flat_map PackgenProps.files zfs).
  unfold merge_package. rewrite PackgenProps.merge_packages_spec.
  cbn [Py.bind fst snd app].
  assert (E : flat_map PackgenProps.fragments zfs =
                map (fun zf => data (last zf no_member)) zfs /\
              map info (flat_map PackgenProps.files zfs) =
                flat_map (fun zf => map info (removelast zf)) zfs).
  { induction H as [|zf zfs Hzf Hzfs [IH1 IH2]]; [now split|].
    destruct Hzf as (w & ip & pkg & builder & st & Hrun).
    unfold main in Hrun.
    apply gbind_done in Hrun as ([] & [st1 zf1] & H1 & Hrun).
    apply of_helper_done in H1 as [_ ->].
    apply generate_layout in Hrun as (text & middle & fragment & -> & Hm).
    cbn [app].
    remember ({| info := stamped_info (pkg ++ "/" ++ "BUILD")
                           (Z.shiftl 292 16); data := text |} :: middle)
      as others eqn:Ho.
    assert (Hothers : Forall
                        (fun m => PackgenProps.is_workspace m = false)
                        others).
    { subst others. constructor.
      - apply (under_not_workspace pkg).
        apply (package_member_intro pkg "BUILD" text). now left.
      - eapply Forall_impl; [|exact Hm].
        intros m [_ Hu]. now apply (under_not_workspace pkg). }
    change ({| info := stamped_info (pkg ++ "/" ++ "BUILD")
                         (Z.shiftl 292 16); data := text |}
            :: middle ++ [{| info := workspace_info; data := fragment |}])
      with (({| info := stamped_info (pkg ++ "/" ++ "BUILD")
                          (Z.shiftl 292 16); data := text |} :: middle)
            ++ [{| info := workspace_info; data := fragment |}]).
    rewrite <- Ho.
    destruct (layout_read others fragment Hothers) as [Hf Hfiles].
    cbn [flat_map map]. rewrite Hf, map_app, Hfiles, IH1, IH2.
    rewrite last_last, removelast_last. now split. }
  destruct E as [E1 E2]. rewrite E1. now split.
Qed.

Lemma merge_generated_archives_witness :
  exists out,
    merge_package
      [snd (snd (main Fixture.nolibs_world "/install" "fromhost"
                   staging_plugin))] =
      Return (out ++
              [{| info := workspace_info;
                  data := PackgenProps.join_fragments
                            (map (fun zf => data (last zf no_member))
                               [snd (snd (main Fixture.nolibs_world
                                            "/install" "fromhost"
                                            staging_plugin))]) |}]) /\
    map info out =
      flat_map (fun zf => map info (removelast zf))
        [snd (snd (main Fixture.nolibs_world "/install" "fromhost"
                     staging_plugin))].
Proof.
  apply (merge_generated_archives
           [snd (snd (main Fixture.nolibs_world "/install" "fromhost"
                        staging_plugin))]).
  constructor; [|constructor].
  exists Fixture.nolibs_world, "/install", "fromhost", staging_plugin,
    (fst (snd (main Fixture.nolibs_world "/install" "fromhost"
                 staging_plugin))).
  vm_compute. reflexivity.
Defined.

(** *** A tool that is not installed *)

(** A file that exists and can be read. *)
Definition readable (w : Autodetect.world) (path : string) : Prop :=
  Autodetect.st_mode w path <> None /\ Autodetect.contents w path <> None.

Lemma generate_repositories_run (package : string)
  (l : list (string * nat)) :
  forall st zf repos st',
    Buildgen.generate_repositories l st = (Return repos, st') ->
    exists zf',
      generate_repositories package l (st, zf) = (Done tt, (st', zf')).
Proof.
  induction l as [|[key repository] l IH]; intros st zf repos st' H.
  - simpl in H. injection H as <- <-. now exists zf.
  - cbn [Buildgen.generate_repositories] in H.
    apply BuildgenExtra.sbind_return in H as (text & st1 & Hb & H).
    apply BuildgenExtra.sbind_return in H as (calls & st2 & Hl & H).
    injection H as <- <-.
    cbn [generate_repositories]. unfold gbind at 1, of_helper at 1.
    cbn [fst snd]. rewrite Hb. unfold gbind at 1, write at 1. cbn [fst snd].
    eapply IH. exact Hl.
Qed.

Lemma generate_embedded_missing (w : Autodetect.world)
  (install_path package name : string) (after : list string)
  (st : Buildgen.store) :
  Autodetect.st_mode w (install_path ++ "/" ++ name) = None ->
  forall before zf,
    Forall (fun n => readable w (install_path ++ "/" ++ n)) before ->
    exists zf',
      generate_embedded w install_path package (before ++ name :: after)
        (st, zf) =
      (Failed (PackageGenerationFailure
                 ("No such tool: " ++ install_path ++ "/" ++ name)),
       (st, zf')).
Proof.
  intros Hmissing. induction before as [|n before IH]; intros zf Hb.
  - cbn [app generate_embedded]. unfold gbind, try_write,
      ZipPackageGenerationHelper.copy_from_embedded, ZipOutputGenerator.copy.
    cbn [fst snd]. rewrite Hmissing. now exists zf.
  - inversion Hb as [|? ? [Hmode Hcontents] Hb']; subst.
    cbn [app generate_embedded]. unfold gbind at 1, try_write at 1,
      ZipPackageGenerationHelper.copy_from_embedded, ZipOutputGenerator.copy.
    cbn [fst snd].
    destruct (Autodetect.st_mode w (install_path ++ "/" ++ n));
      [|contradiction].
    destruct (Autodetect.contents w (install_path ++ "/" ++ n));
      [|contradiction].
    apply IH. exact Hb'.
Qed.

(** When the BUILD texts serialise and one of the exported tools does not
    exist under the install path, while those exported before it can be
    read, the generation fails with [PackageGenerationFailure] and the value
    [No such tool: <install path>/<name>]; the WORKSPACE part is never
    serialised, so the helpers stay as the BUILD texts left them. *)
Theorem missing_tool_stops_generation (w : Autodetect.world)
  (install_path package name text : string) (self : nat)
  (h : Buildgen.helper) (st st1 st2 : Buildgen.store) (zf : ZipFile)
  (repos : list Buildgen.sink_call) (before after : list string) :
  nth_error st self = Some h ->
  Buildgen.__build_file self st = (Return text, st1) ->
  Buildgen.generate_repositories (iteritems (Buildgen.repositories h)) st1 =
    (Return repos, st2) ->
  Buildgen.embedded h = before ++ name :: after ->
  Forall (fun n => readable w (install_path ++ "/" ++ n)) before ->
  Autodetect.st_mode w (install_path ++ "/" ++ name) = None ->
  exists zf',
    generate w install_path package self (st, zf) =
      (Failed (PackageGenerationFailure
                 ("No such tool: " ++ install_path ++ "/" ++ name)),
       (st2, zf')).
Proof.
  intros Hh Hb Hr He Hbefore Hmissing.
  pose proof (BuildgenExtra.preserves___build_file self st) as P1.
  rewrite Hb in P1. cbn [snd] in P1.
  destruct (BuildgenExtra.only_bindings_grow_nth _ _ self h P1 Hh)
    as (h1 & Hh1 & G1).
  pose proof (BuildgenExtra.preserves_generate_repositories
                (iteritems (Buildgen.repositories h)) st1) as P2.
  rewrite Hr in P2. cbn [snd] in P2.
  destruct (BuildgenExtra.only_bindings_grow_nth _ _ self h1 P2 Hh1)
    as (h2 & Hh2 & G2).
  pose proof (BuildgenExtra.grown_trans _ _ _ G1 G2) as [E2 _].
  destruct G1 as [E1 _].
  assert (R1 : Buildgen.repositories h1 = Buildgen.repositories h)
    by (rewrite E1; reflexivity).
  assert (R2 : Buildgen.embedded h2 = Buildgen.embedded h)
    by (rewrite E2; reflexivity).
  destruct (generate_repositories_run package _ st1
              (ZipPackageGenerationHelper.build_file package text zf)
              repos st2 Hr) as (zf2 & Hrepos).
  destruct (generate_embedded_missing w install_path package name after st2
              Hmissing before zf2 Hbefore) as (zf' & Hcopy).
  exists zf'. unfold generate.
  unfold gbind at 1, of_helper at 1. cbn [fst snd]. rewrite Hb.
  unfold gbind at 1, write at 1. cbn [fst snd].
  unfold gbind at 1, of_helper at 1, Buildgen.get_helper. cbn [fst snd].
  rewrite Hh1, R1.
  unfold gbind at 1. rewrite Hrepos.
  unfold gbind at 1, of_helper at 1, Buildgen.get_helper. cbn [fst snd].
  rewrite Hh2, R2, He.
  unfold gbind at 1. rewrite Hcopy. reflexivity.
Qed.

Lemma missing_tool_stops_generation_witness :
  exists zf',
    generate Fixture.nolibs_world "/install" "tools/jdk" 0
      ([Buildgen.add_embedded (Buildgen.new_helper "tools/jdk" None) "ijar"],
       []) =
      (Failed (PackageGenerationFailure "No such tool: /install/ijar"),
       ([Buildgen.add_embedded (Buildgen.new_helper "tools/jdk" None)
           "ijar"], zf')).
Proof.
  apply (missing_tool_stops_generation Fixture.nolibs_world "/install"
           "tools/jdk" "ijar" Buildgen.build_file_banner 0
           (Buildgen.add_embedded (Buildgen.new_helper "tools/jdk" None)
              "ijar")
           [Buildgen.add_embedded (Buildgen.new_helper "tools/jdk" None)
              "ijar"]
           [Buildgen.add_embedded (Buildgen.new_helper "tools/jdk" None)
              "ijar"]
           [Buildgen.add_embedded (Buildgen.new_helper "tools/jdk" None)
              "ijar"]
           [] [] [] []);
    try reflexivity.
  constructor.
Defined.

End GenerationProps.

(* ================================================================== *)
(** ** Properties of the fromhost plugin *)

Module FromhostProps.
Import Autodetect Buildgen.

(** The rule the plugin declares. *)
Definition cc_library (cflags include_dirs linkopts : list string) : value :=
  Call "cc_library" None
    [("copts", List (map Str cflags));
     ("srcs", List [Str "empty.c"]);
     ("linkopts", List (map Str linkopts));
     ("name", Str "libarchive");
     ("includes", List (map Str include_dirs))].

(** The link options: the flags, then the directories and the libraries
    with the prefixes that [__process_flags] took off. *)
Definition link_options (ldflags library_dirs libraries : list string)
  : list string :=
  (ldflags ++ map (fun d => ("-L" ++ d)%string) library_dirs)
    ++ map (fun l => ("-l" ++ l)%string) libraries.

Lemma set_nth_twice {A} (n : nat) (a b : A) (l : list A) :
  set_nth n a (set_nth n b l) = set_nth n a l.
Proof.
  revert n. induction l as [|x l IH]; intros [|n]; simpl; auto.
  now rewrite IH.
Qed.

Lemma cc_library_node (copts includes linkopts : value) :
  BuildSerializable "cc_library" None
    (keyword_arguments
       [("name", Str "libarchive"); ("srcs", List [Str "empty.c"]);
        ("copts", copts); ("includes", includes); ("linkopts", linkopts)]) =
  Return (Call "cc_library" None
            [("copts", copts); ("srcs", List [Str "empty.c"]);
             ("linkopts", linkopts); ("name", Str "libarchive");
             ("includes", includes)]).
Proof. vm_compute. reflexivity. Qed.

(** With the five flag lists at hand the plugin stages the file and
    declares the rule. *)
Lemma generate_with_lists (variables : dict pyval) (helper : nat)
  (st : store) (h : Buildgen.helper)
  (cflags include_dirs ldflags library_dirs libraries : list string) :
  nth_error st helper = Some h ->
  dict_get "cflags" variables = Some (VList cflags) ->
  dict_get "include_dirs" variables = Some (VList include_dirs) ->
  dict_get "ldflags" variables = Some (VList ldflags) ->
  dict_get "library_dirs" variables = Some (VList library_dirs) ->
  dict_get "libraries" variables = Some (VList libraries) ->
  Fromhost.generate variables helper st =
    (Return tt,
     set_nth helper
       (add_rule (set_file h "empty.c" EmptyString)
          (cc_library cflags include_dirs
             (link_options ldflags library_dirs libraries)))
       st).
Proof.
  intros Hh H1 H2 H3 H4 H5.
  unfold Fromhost.generate.
  unfold sbind at 1, Buildgen.scratch_file, sbind at 1, get_helper.
  rewrite Hh. unfold set_helper.
  unfold sbind, slift, getitem.
  rewrite H1, H2, H3, H4, H5.
  cbn [Fromhost.add Fromhost.iterate Fromhost.attribute].
  unfold rule, sbind, get_helper, slift, set_helper.
  rewrite (BindProps.nth_error_set_nth helper _ h st Hh).
  rewrite cc_library_node. cbv beta iota.
  rewrite set_nth_twice. reflexivity.
Qed.

(** Without [cflags] the plugin stops at the first keyword argument that
    reads the variables, with the file staged and no rule declared. *)
Lemma generate_without_cflags (variables : dict pyval) (helper : nat)
  (st : store) (h : Buildgen.helper) :
  nth_error st helper = Some h ->
  dict_get "cflags" variables = None ->
  Fromhost.generate variables helper st =
    (Raise (KeyError "cflags"),
     set_nth helper (set_file h "empty.c" EmptyString) st).
Proof.
  intros Hh H1. unfold Fromhost.generate.
  unfold sbind at 1, Buildgen.scratch_file, sbind at 1, get_helper.
  rewrite Hh. unfold set_helper.
  unfold sbind, slift, getitem. now rewrite H1.
Qed.

(** On what [pkg_config] found, or on any dictionary with the same
    entries, as the one read back from the file the [configure] command
    wrote, the plugin always succeeds: it stages [empty.c] and declares one
    [cc_library] whose link options are the flags found followed by the
    library directories with [-L] and the libraries with [-l] put back. *)
Theorem fromhost_generate_links_found_flags (w : world) (name : string)
  (atleast exact max : option string) (t t' : trace) (r : dict pyval)
  (variables : dict pyval) (helper : nat) (st : store)
  (h : Buildgen.helper) :
  pkg_config w name atleast exact max t = (Return (Some r), t') ->
  (forall k, dict_get k variables = dict_get k r) ->
  nth_error st helper = Some h ->
  exists library_dirs libraries ldflags include_dirs cflags,
    dict_get "library_dirs" r = Some (VList library_dirs) /\
    dict_get "libraries" r = Some (VList libraries) /\
    dict_get "ldflags" r = Some (VList ldflags) /\
    dict_get "include_dirs" r = Some (VList include_dirs) /\
    dict_get "cflags" r = Some (VList cflags) /\
    Fromhost.generate variables helper st =
      (Return tt,
       set_nth helper
         (add_rule (set_file h "empty.c" EmptyString)
            (Call "cc_library" None
               [("copts", List (map Str cflags));
                ("srcs", List [Str "empty.c"]);
                ("linkopts",
                 List (map Str
                         ((ldflags
                             ++ map (fun d => ("-L" ++ d)%string)
                                  library_dirs)
                            ++ map (fun l => ("-l" ++ l)%string)
                                 libraries)));
                ("name", Str "libarchive");
                ("includes", List (map Str include_dirs))]))
         st).
Proof.
  intros Hpkg Hsame Hh.
  apply FindLibraryExtra.pkg_config_found in Hpkg as (p & t0 & Hpkg).
  apply FlagSetProps.pkg_config_result_shape in Hpkg
    as (l1 & l2 & l3 & l4 & l5 & vars & -> & _).
  exists l1, l2, l3, l4, l5. repeat split.
  apply (generate_with_lists variables helper st h l5 l4 l3 l1 l2 Hh);
    rewrite Hsame; reflexivity.
Qed.

Lemma fromhost_generate_links_found_flags_witness :
  exists library_dirs libraries ldflags include_dirs cflags,
    dict_get "library_dirs" Fixture.pc_result = Some (VList library_dirs) /\
    dict_get "libraries" Fixture.pc_result = Some (VList libraries) /\
    dict_get "ldflags" Fixture.pc_result = Some (VList ldflags) /\
    dict_get "include_dirs" Fixture.pc_result = Some (VList include_dirs) /\
    dict_get "cflags" Fixture.pc_result = Some (VList cflags) /\
    Fromhost.generate Fixture.pc_result 0 [new_helper "fromhost" None] =
      (Return tt,
       set_nth 0
         (add_rule (set_file (new_helper "fromhost" None) "empty.c"
                      EmptyString)
            (Call "cc_library" None
               [("copts", List (map Str cflags));
                ("srcs", List [Str "empty.c"]);
                ("linkopts",
                 List (map Str
                         ((ldflags
                             ++ map (fun d => ("-L" ++ d)%string)
                                  library_dirs)
                            ++ map (fun l => ("-l" ++ l)%string)
                                 libraries)));
                ("name", Str "libarchive");
                ("includes", List (map Str include_dirs))]))
         [new_helper "fromhost" None]).
Proof.
  apply (fromhost_generate_links_found_flags Fixture.test_world "libarchive"
           None None None []
           (snd (pkg_config Fixture.test_world "libarchive" None None None
                   []))
           Fixture.pc_result Fixture.pc_result 0
           [new_helper "fromhost" None] (new_helper "fromhost" None)).
  - vm_compute. reflexivity.
  - reflexivity.
  - reflexivity.
Defined.

Lemma read_pc_lists (w : world) (fuel : nat) (filename : string)
  (r : dict pyval) :
  read_pc_as_pkg_config w fuel filename = Return (Some r) ->
  exists vars l1 l2 l3 l4 l5,
    r = [("variables", VDict vars); ("library_dirs", VList l1);
         ("libraries", VList l2); ("ldflags", VList l3);
         ("include_dirs", VList l4); ("cflags", VList l5)].
Proof.
  unfold read_pc_as_pkg_config. intros H.
  apply FlagSetProps.res_bind_return in H as (f & Hf & H).
  destruct f as [[|e f]|]; try discriminate.
  apply FlagSetProps.res_bind_return in H as (fvars & _ & H).
  apply FlagSetProps.res_bind_return in H as (vars & _ & H).
  apply FlagSetProps.res_bind_return in H as (libs1 & _ & H).
  apply FlagSetProps.res_bind_return in H as (l1 & _ & H).
  apply FlagSetProps.res_bind_return in H as (libs2 & _ & H).
  apply FlagSetProps.res_bind_return in H as (l2 & _ & H).
  apply FlagSetProps.res_bind_return in H as (libs3 & _ & H).
  apply FlagSetProps.res_bind_return in H as (l3 & _ & H).
  apply FlagSetProps.res_bind_return in H as (cflags1 & _ & H).
  apply FlagSetProps.res_bind_return in H as (l4 & _ & H).
  apply FlagSetProps.res_bind_return in H as (cflags2 & _ & H).
  apply FlagSetProps.res_bind_return in H as (l5 & _ & H).
  injection H as <-. now exists vars, l1, l2, l3, l4, l5.
Qed.

(** The plugin after autodetection.  On whatever [find_library] found,
    or on a dictionary with the same entries, the plugin either succeeds,
    staging [empty.c] and declaring one rule, or the result is the fallback
    dictionary of the brew tier, which holds only [variables], and the
    plugin stops with a key error on [cflags], the file staged and no rule
    declared. *)
Theorem fromhost_generate_after_find_library (w : world) (fuel : nat)
  (name : string) (t t' : trace) (r variables : dict pyval)
  (helper : nat) (st : store) (h : Buildgen.helper) :
  find_library w fuel name t = (Return (Some r), t') ->
  (forall k, dict_get k variables = dict_get k r) ->
  nth_error st helper = Some h ->
  (exists node,
     Fromhost.generate variables helper st =
       (Return tt,
        set_nth helper (add_rule (set_file h "empty.c" EmptyString) node)
          st)) \/
  (exists brew_prefix,
     r = brew_default brew_prefix /\
     Fromhost.generate variables helper st =
       (Raise (KeyError "cflags"),
        set_nth helper (set_file h "empty.c" EmptyString) st)).
Proof.
  intros H Hsame Hh. unfold find_library in H.
  apply FlagSetProps.mbind_return in H as (result & t1 & Hpkg & H).
  assert (Hfound : forall r0 ta tb,
    pkg_config w name None None None ta = (Return (Some r0), tb) ->
    (forall k, dict_get k variables = dict_get k r0) ->
    exists node,
      Fromhost.generate variables helper st =
        (Return tt,
         set_nth helper (add_rule (set_file h "empty.c" EmptyString) node)
           st)).
  { intros r0 ta tb Hp Hs.
    apply FindLibraryExtra.pkg_config_found in Hp as (p & t0 & Hp).
    apply FlagSetProps.pkg_config_result_shape in Hp
      as (l1 & l2 & l3 & l4 & l5 & vars & -> & _).
    eexists.
    apply (generate_with_lists variables helper st h l5 l4 l3 l1 l2 Hh);
      rewrite Hs; reflexivity. }
  destruct result as [[|e r0]|].
  - now apply FindLibraryExtra.pkg_config_variables_key in Hpkg
      as (? & ? & ? & ? & _).
  - injection H as <- <-. left. eapply Hfound; eassumption.
  - apply FlagSetProps.mbind_return in H as (prefix & t2 & Hbrew & H).
    assert (Hport : forall t0 (k : M (option (dict pyval))),
      k = ret None ->
      mbind (port_content w name)
        (fun port_files =>
           match port_files with
           | Some (_ :: _ as port_files) =>
               pc_files <~ lift (py_filter (OList port_files)
                                   (OFun (fun f => endswith f ".pc"))) ;;
               result <~ match pc_files with
                         | pc_file :: _ =>
                             lift (read_pc_as_pkg_config w fuel pc_file)
                         | [] => ret None
                         end ;;
               match result with
               | None => ret (Some (port_default port_files))
               | Some result =>
                   variables <~ lift (getitem result "variables") ;;
                   match variables with
                   | VDict vars =>
                       ret (Some (dict_set "variables"
                                    (VDict (dict_set "content"
                                              (VList port_files) vars))
                                    result))
                   | _ => raise TypeError
                   end
               end
           | _ => k
           end) t0 = (Return (Some r), t') -> False).
    { intros t0 k -> Hp.
      apply FlagSetProps.mbind_return in Hp as (pf & t3 & _ & Hp).
      destruct pf as [[|x pf]|]; discriminate. }
    destruct prefix as [[|c p]|].
    + exfalso. eapply Hport; [reflexivity|exact H].
    + apply FlagSetProps.mbind_return in H as (result & t3 & Hread & H).
      destruct result as [r1|].
      * injection H as <- <-. unfold lift in Hread.
        injection Hread as Hread _. left.
        apply read_pc_lists in Hread
          as (vars & l1 & l2 & l3 & l4 & l5 & ->).
        eexists.
        apply (generate_with_lists variables helper st h l5 l4 l3 l1 l2 Hh);
          rewrite Hsame; reflexivity.
      * injection H as <- <-. right. exists (String c p).
        split; [reflexivity|].
        apply (generate_without_cflags variables helper st h Hh).
        rewrite Hsame. reflexivity.
    + exfalso. eapply Hport; [reflexivity|exact H].
Qed.

Lemma fromhost_generate_after_find_library_witness :
  (exists node,
     Fromhost.generate (brew_default "/usr/local/opt/libfoo") 0
       [new_helper "fromhost" None] =
       (Return tt,
        set_nth 0
          (add_rule (set_file (new_helper "fromhost" None) "empty.c"
                       EmptyString) node)
          [new_helper "fromhost" None])) \/
  (exists brew_prefix,
     brew_default "/usr/local/opt/libfoo" = brew_default brew_prefix /\
     Fromhost.generate (brew_default "/usr/local/opt/libfoo") 0
       [new_helper "fromhost" None] =
       (Raise (KeyError "cflags"),
        set_nth 0
          (set_file (new_helper "fromhost" None) "empty.c" EmptyString)
          [new_helper "fromhost" None])).
Proof.
  apply (fromhost_generate_after_find_library Fixture.brew_world 8 "libfoo"
           [] (snd (find_library Fixture.brew_world 8 "libfoo" []))
           (brew_default "/usr/local/opt/libfoo")
           (brew_default "/usr/local/opt/libfoo") 0
           [new_helper "fromhost" None] (new_helper "fromhost" None)).
  - vm_compute. reflexivity.
  - reflexivity.
  - reflexivity.
Defined.

End FromhostProps.
